(** * fgcmcal: the tract calibration controller, the LUT builder and the
    reference-catalog loader

  A shallow embedding of the orchestration code of
  [python/lsst/fgcmcal/fgcmCalibrateTract.py],
  [python/lsst/fgcm/fgcmMakeLut.py] and
  [python/lsst/fgcmcal/fgcmLoadReferenceCatalog.py].

  Conventions.
  - A Python call either returns or raises: [result A].
  - float64 quantities (repeatabilities, magnitudes, tolerances) are exact
    rationals [Q]; rounding and NaN are outside the model.
  - Integer ids and counters are [Z]; array positions are [nat].
  - The data butler is a finite map from dataset names to datasets.
  - The external [fgcm] engine and the LSST tasks are interfaces: records of
    functions about which nothing is assumed. *)

From Stdlib Require Import ZArith QArith Qround Lia Lqa Sorted.
From stdpp Require Import base option list gmap strings.
From Equations Require Import Equations.

Open Scope Z_scope.
Open Scope nat_scope.

(** ** Python outcomes *)

Module Py.

(** The exception classes that the modelled code raises or lets through. *)
Inductive exn : Type :=
| RuntimeError (msg : string)
| AttributeError (attr : string)
| NameError (name : string)
| KeyError (key : string)
| IndexError
| ZeroDivisionError
| TypeError (what : string)
| NoResults (dataset : string)
| ColortermNotFoundError (filterName : string)
| FieldValidationError (field : string)
| ConfigurationError (msg : string).

Inductive result (A : Type) : Type :=
| Ok (a : A)
| Raise (e : exn).
Arguments Ok {A} a.
Arguments Raise {A} e.

Definition bind {A B} (m : result A) (k : A → result B) : result B :=
  match m with
  | Ok a => k a
  | Raise e => Raise e
  end.

Definition is_ok {A} (m : result A) : bool :=
  match m with Ok _ => true | Raise _ => false end.

#[export] Instance result_ret : MRet result := @Ok.
#[export] Instance result_bind : MBind result := λ A B k m, bind m k.
#[export] Instance result_fmap : FMap result :=
  λ A B f m, match m with Ok a => Ok (f a) | Raise e => Raise e end.

(** numpy fancy indexing [col[idx]]: every position must exist. *)
Fixpoint np_take {A} (col : list A) (idx : list nat) : result (list A) :=
  match idx with
  | [] => Ok []
  | i :: rest =>
      match col !! i with
      | Some x => xs ← np_take col rest; Ok (x :: xs)
      | None => Raise IndexError
      end
  end.

(** Values held by the configuration dictionaries. *)
Inductive pyval : Type :=
| PyNone
| PyBool (b : bool)
| PyInt (z : Z)
| PyFloat (q : Q)
| PyStr (s : string)
| PyFloats (l : list Q)
| PyStrs (l : list string).

(** A computation over a mutable state [S] that returns or raises; the state
    reached so far survives a raise. *)
Definition M (S A : Type) : Type := S → result A * S.

#[export] Instance M_ret {S} : MRet (M S) := λ A a s, (Ok a, s).
#[export] Instance M_bind {S} : MBind (M S) :=
  λ A B k m s, match m s with
               | (Ok a, s') => k a s'
               | (Raise e, s') => (Raise e, s')
               end.

Definition raise {S A} (e : exn) : M S A := λ s, (Raise e, s).
Definition lift {S A} (r : result A) : M S A := λ s, (r, s).
Definition gets {S A} (f : S → A) : M S A := λ s, (Ok (f s), s).
Definition modify {S} (f : S → S) : M S unit := λ s, (Ok tt, f s).

(** Strict comparison of float64 values, as a boolean. *)
Definition Qltb (x y : Q) : bool := negb (Qle_bool y x).

(** Elementwise numpy expressions on one-dimensional arrays. *)
Definition np_sub (a b : list Q) : list Q := zip_with Qminus a b.
Definition np_lt (a : list Q) (t : Q) : list bool := map (λ x, Qltb x t) a.
Definition np_alltrue (m : list bool) : bool := forallb id m.
Definition np_full (n : nat) (x : Q) : list Q := replicate n x.

End Py.
Export Py.

(** ** The data butler *)

Module Butler.

Inductive dataset : Type :=
| Camera (detectors : list Z)
| LookUpTable (rec : gmap string pyval)
| Products (tract : Z) (payload : list Q).

Definition store : Type := gmap string dataset.

Definition datasetExists (b : gmap string dataset) (name : string) : bool :=
  bool_decide (is_Some (b !! name)).

Definition get (b : gmap string dataset) (name : string) : result dataset :=
  match b !! name with
  | Some d => Ok d
  | None => Raise (NoResults name)
  end.

Definition put (d : dataset) (name : string) (b : gmap string dataset)
  : gmap string dataset := <[name := d]> b.

End Butler.

(** ** Star observations matched to visits
  [fgcmCalibrateTract.py], lines 284-290. *)

Module IndexTranslator.

(** [np.searchsorted(a, v)] with the default [side='left']: bisection of
    the half-open window [lo, hi). *)
Equations? bisect_left (a : list Z) (v : Z) (lo hi : nat) : nat
  by wf (hi - lo) lt :=
  bisect_left a v lo hi with decide (lo < hi) := {
    | left _ with a !! (lo + (hi - lo) / 2) := {
        | Some x with decide (x < v)%Z := {
            | left _ => bisect_left a v (S (lo + (hi - lo) / 2)) hi
            | right _ => bisect_left a v lo (lo + (hi - lo) / 2) };
        | None => lo };
    | right _ => lo }.
Proof.
  all: change (Nat.divmod (hi - lo) 1 0 1).1 with ((hi - lo) / 2);
    pose proof (Nat.div_lt (hi - lo) 2); lia.
Qed.

Definition searchsorted (a : list Z) (v : Z) : nat :=
  bisect_left a v 0 (length a).

Definition np_searchsorted (a : list Z) (vs : list Z) : list nat :=
  map (searchsorted a) vs.

(** Lines 288-290: [obsIndex] is the index column of the matched-star
    catalog; [visitIndex] is looked up per selected observation. *)
Definition matchObservationsToVisits
    (expVisit : list Z) (obsVisit : list Z) (starObsIndex : list nat)
  : result (list nat * list nat) :=
  let obsIndex := starObsIndex in
  selected ← np_take obsVisit obsIndex;
  Ok (obsIndex, np_searchsorted expVisit selected).


(** *** Bisection finds the leftmost insertion point *)

Lemma StronglySorted_lookup_lt (a : list Z) :
  StronglySorted Z.lt a →
  ∀ i j x y, i < j → a !! i = Some x → a !! j = Some y → (x < y)%Z.
Proof.
  induction 1 as [|h t Hs IH Hall]; intros i j x y Hij Hi Hj.
  - rewrite lookup_nil in Hi. discriminate.
  - destruct j as [|j]; [lia|]. destruct i as [|i]; simpl in *.
    + injection Hi as <-. rewrite Forall_lookup in Hall. eauto.
    + eapply IH; [|eassumption..]. lia.
Qed.

Lemma StronglySorted_lookup_le (a : list Z) :
  StronglySorted Z.lt a →
  ∀ i j x y, i ≤ j → a !! i = Some x → a !! j = Some y → (x ≤ y)%Z.
Proof.
  intros Hs i j x y Hij Hi Hj.
  destruct (decide (i = j)) as [->|Hne].
  - rewrite Hi in Hj. injection Hj as <-. lia.
  - apply Z.lt_le_incl.
    apply (StronglySorted_lookup_lt a Hs i j x y); [lia|assumption..].
Qed.

Lemma bisect_left_window (a : list Z) (v : Z) (lo hi : nat) :
  (∀ i j x y, i ≤ j → a !! i = Some x → a !! j = Some y → (x ≤ y)%Z) →
  lo ≤ hi → hi ≤ length a →
  (∀ i x, i < lo → a !! i = Some x → (x < v)%Z) →
  (∀ i x, hi ≤ i → a !! i = Some x → (v ≤ x)%Z) →
  lo ≤ bisect_left a v lo hi ≤ hi
  ∧ (∀ i x, i < bisect_left a v lo hi → a !! i = Some x → (x < v)%Z)
  ∧ (∀ i x, bisect_left a v lo hi ≤ i → a !! i = Some x → (v ≤ x)%Z).
Proof.
  intros Hmono. funelim (bisect_left a v lo hi); intros Hle Hhi Hlow Hhigh.
  - assert (lo = hi) as -> by lia. repeat split; eauto; lia.
  - exfalso. pose proof (Nat.div_lt (hi - lo) 2).
    assert (is_Some (a !! (lo + (hi - lo) / 2))) as [? Hs]
      by (apply lookup_lt_is_Some; lia).
    congruence.
  - pose proof (Nat.div_lt (hi - lo) 2).
    destruct H as (Hr & Hb & Ha); try lia; trivial.
    + intros i y Hi Hy. apply Z.le_lt_trans with x; [|assumption].
      eapply Hmono; [|exact Hy|eassumption]. lia.
    + repeat split; eauto; lia.
  - pose proof (Nat.div_lt (hi - lo) 2).
    destruct H as (Hr & Hb & Ha); try lia; trivial.
    + intros i y Hi Hy. apply Z.le_trans with x; [lia|].
      eapply Hmono; [|eassumption|exact Hy]. lia.
    + repeat split; eauto; lia.
Qed.

Lemma searchsorted_split (a : list Z) (v : Z) :
  StronglySorted Z.lt a →
  searchsorted a v ≤ length a
  ∧ (∀ i x, i < searchsorted a v → a !! i = Some x → (x < v)%Z)
  ∧ (∀ i x, searchsorted a v ≤ i → a !! i = Some x → (v ≤ x)%Z).
Proof.
  intros Hs. unfold searchsorted.
  destruct (bisect_left_window a v 0 (length a)) as (Hr & Hb & Ha).
  - apply StronglySorted_lookup_le, Hs.
  - lia.
  - lia.
  - intros; lia.
  - intros i x Hi Hx. apply lookup_lt_Some in Hx. lia.
  - repeat split; eauto; lia.
Qed.



(** *** Fancy indexing keeps positions and, for increasing indices, order *)





Example searchsorted_spec_scenario :
  matchObservationsToVisits [10; 20; 30]%Z [30; 5; 20; 10; 99]%Z [0; 2; 3]
  = Ok ([0; 2; 3], [2; 1; 0]).
Proof. reflexivity. Qed.

(** *** Visits that are not in the visit list *)

(** X1. A visit that is not in the strictly ascending visit list is given a
    position all the same: that of the first listed visit above it, or the
    length of the list when no listed visit is above it. *)
Theorem unlisted_visit_takes_the_next_position (a : list Z) (v : Z) :
  StronglySorted Z.lt a →
  v ∉ a →
  searchsorted a v ≤ length a
  ∧ (∀ i x, a !! i = Some x → (i < searchsorted a v ↔ (x < v)%Z))
  ∧ (∀ x, a !! searchsorted a v = Some x → (v < x)%Z)
  ∧ (searchsorted a v = length a ↔ Forall (λ x, (x < v)%Z) a).
Proof.
  intros Hs Hnot. destruct (searchsorted_split a v Hs) as (Hlen & Hb & Ha).
  assert (∀ i x, a !! i = Some x → searchsorted a v ≤ i → (v < x)%Z) as Hstrict.
  { intros i x Hx Hi. pose proof (Ha i x Hi Hx) as Hge.
    destruct (decide (x = v)) as [->|Hne]; [|lia].
    exfalso. apply Hnot. by apply list_elem_of_lookup_2 in Hx. }
  split; [exact Hlen|]. split; [|split].
  - intros i x Hx. split; [intros Hi; by apply (Hb i x)|].
    intros Hlt. destruct (decide (i < searchsorted a v)) as [|Hge]; [assumption|].
    pose proof (Hstrict i x Hx ltac:(lia)). lia.
  - intros x Hx. by apply (Hstrict _ x Hx).
  - split.
    + intros Heq. apply Forall_lookup. intros i x Hx. apply (Hb i x); [|exact Hx].
      apply lookup_lt_Some in Hx. lia.
    + intros Hall. destruct (decide (searchsorted a v = length a)) as [|Hne];
        [assumption|]. exfalso.
      assert (is_Some (a !! searchsorted a v)) as [x Hx]
        by (apply lookup_lt_is_Some; lia).
      pose proof (Hstrict _ x Hx (le_n _)).
      rewrite Forall_lookup in Hall. pose proof (Hall _ x Hx). lia.
Qed.

Lemma unlisted_visit_takes_the_next_position_witness :
  let a := [10; 20; 30]%Z in
  let v := 25%Z in
  StronglySorted Z.lt a
  ∧ (v ∉ a)
  ∧ searchsorted a v = 2
  ∧ searchsorted a v ≤ length a
  ∧ (∀ i x, a !! i = Some x → (i < searchsorted a v ↔ (x < v)%Z))
  ∧ (∀ x, a !! searchsorted a v = Some x → (v < x)%Z)
  ∧ (searchsorted a v = length a ↔ Forall (λ x, (x < v)%Z) a).
Proof.
  cbv zeta.
  assert (StronglySorted Z.lt [10; 20; 30]%Z) as Hs
    by (repeat constructor; lia).
  assert (25%Z ∉ [10; 20; 30]%Z) as Hnot.
  { intros Hin. repeat (apply elem_of_cons in Hin as [Hin|Hin]; [lia|]).
    by apply elem_of_nil in Hin. }
  split; [exact Hs|]. split; [exact Hnot|]. split; [reflexivity|].
  exact (unlisted_visit_takes_the_next_position [10; 20; 30]%Z 25%Z Hs Hnot).
Defined.

End IndexTranslator.

(** ** The tract calibration controller
    [fgcmCalibrateTract.py], [FgcmCalibrateTractTask.runDataRef]. *)

Module CalibrateTract.
Import Butler.

(** An array the controller only passes between engine calls. *)
Definition blob : Type := list Q.

(** *** Configuration ([FgcmCalibrateTractConfig] and the parts it nests) *)

Record FgcmBuildStarsConfig : Type := {
  doReferenceMatches : bool;
  checkAllCcds : bool }.

Record FgcmFitCycleConfig : Type := {
  filterMap : gmap string string;
  maxIterBeforeFinalCycle : Z;
  pixelScale : Q;
  superStarSubCcd : bool;
  ccdGraySubCcd : bool }.

Record FgcmCalibrateTractConfig : Type := {
  fgcmBuildStars : FgcmBuildStarsConfig;
  fgcmFitCycle_config : FgcmFitCycleConfig;
  convergenceTolerance : Q;
  maxFitCycles : Z;
  doDebuggingPlots : bool }.

(** *** Catalogs produced by the build-stars task *)

Record StarObservationCat : Type := {
  obs_visit : list Z;
  obs_ccd : list Z;
  obs_ra : list Q;
  obs_dec : list Q;
  obs_instMag : list Q;
  obs_instMagErr : list Q;
  obs_x : list Q;
  obs_y : list Q }.

Record StarIdCat : Type := {
  fgcm_id : list Z;
  star_ra : list Q;
  star_dec : list Q;
  obsArrIndex : list Z;
  nObs : list Z }.

Record RefCat : Type := {
  ref_fgcm_id : list Z;
  refMag : list (list Q);
  refMagErr : list (list Q) }.

Record ExpInfo : Type := {
  VISIT : list Z;
  FILTERNAME : list string }.

(** *** Objects of the [fgcm] engine, as far as the controller touches them *)

Record FgcmConfig : Type := {
  config_cycleNumber : Z;
  expGrayPhotometricCut : list Q;
  expGrayHighCut : list Q;
  precomputeSuperStarInitialCycle : bool;
  freezeStdAtmosphere : bool;
  resetParameters : bool;
  maxIter : Z;
  outputZeropoints : bool;
  outputStandards : bool;
  doPlots : bool }.

Record FgcmParameters : Type := {
  nBands : nat;
  bands : list string;
  compReservedRawRepeatability : list Q;
  parInfoArray : blob;
  parsArray : blob;
  parSuperStarFlat : blob }.

Definition parsToArrays (p : FgcmParameters) : blob * blob :=
  (parInfoArray p, parsArray p).

Record FgcmFitCycle : Type := {
  fgcmConfig : FgcmConfig;
  initialCycle : bool;
  fgcmLut : blob;
  fgcmStars : blob;
  fgcmPars : FgcmParameters;
  updatedPhotometricCut : list Q;
  updatedHighCut : list Q;
  fgcmZpts : blob }.

(** What [loadStars] receives (lines 293-313). *)
Record StarInputs : Type := {
  in_visit : list Z;
  in_ccd : list Z;
  in_ra : list Q;
  in_dec : list Q;
  in_mag : list Q;
  in_magErr : list Q;
  in_filterName : list string;
  in_starIds : StarIdCat;
  in_x : list Q;
  in_y : list Q;
  in_ref : RefCat }.

(** The [fgcm] package: the calls the controller makes. *)
Record Fgcm : Type := {
  FgcmFitCycle_new : gmap string pyval → blob → blob → ExpInfo → blob → FgcmFitCycle;
  newParsWithArrays : FgcmConfig → blob → ExpInfo → FgcmParameters;
  loadParsWithArrays :
    FgcmConfig → ExpInfo → option blob → option blob → option blob → FgcmParameters;
  FgcmStars_new : FgcmConfig → blob;
  loadStars : FgcmParameters → StarInputs → blob → blob;
  reloadStarMagnitudes : list Q → list Q → blob → blob;
  finishSetup : FgcmFitCycle → FgcmFitCycle;
  run : FgcmFitCycle → FgcmFitCycle }.

(** The LSST tasks and helpers of [utilities] that the controller calls. *)
Record Tasks : Type := {
  dataId_tract : Z → Z;
  fgcmMakeVisitCatalog : gmap string dataset → list Z → blob;
  fgcmMakeAllStarObservations : gmap string dataset → blob → StarObservationCat;
  fgcmMatchStars :
    gmap string dataset → blob → StarObservationCat → StarIdCat * list nat * RefCat;
  translateFgcmLut : dataset → gmap string string → blob * blob * blob;
  translateVisitCatalog : blob → ExpInfo;
  makeConfigDict : FgcmFitCycleConfig → dataset → Z → Z → gmap string pyval;
  computeCcdOffsets : dataset → Q → blob;
  asDegrees : Q → Q;
  generateOutputProducts :
    gmap string dataset → Z → blob → FgcmFitCycle → bool →
    gmap string dataset * blob }.

(** *** What the run leaves behind *)

Inductive LogMessage : Type :=
| RunningOnTract (tract : Z)
| RepeatabilityAfterCycle (cycle : Z)
| BandRepeatability (band : string) (mmag : Q)
| ConvergedAfterCycle (cycle : Z)
| SettingPhotometricityCuts
| BandPhotometricityCut (band : string) (mmag : Q)
| MaxFitCyclesExceeded (cycle : Z)
| RunningFinalCleanup
| RepeatabilityAfterCleanup.

Inductive Event : Type :=
| call_loadStars
| call_updateCycleNumber (n : Z)
| call_loadParsWithArrays
| call_reloadStarMagnitudes (mag magErr : list Q)
| call_setPars
| call_finishSetup
| call_run
| call_generateOutputProducts
| log_info (m : LogMessage)
| log_warn (m : LogMessage).

Record World : Type := {
  butler : gmap string dataset;
  trace : list Event }.

Definition emit (ev : Event) : M World unit :=
  modify (λ w, {| butler := butler w; trace := trace w ++ [ev] |}).

Fixpoint emit_all (evs : list Event) : M World unit :=
  match evs with
  | [] => mret tt
  | ev :: rest => emit ev;; emit_all rest
  end.

Record OutStruct : Type := {
  products : blob;
  repeatability : list Q }.

(** *** The local variables that live across the fit cycles *)

Record Locals : Type := {
  fgcmFitCycle : FgcmFitCycle;
  local_fgcmPars : FgcmParameters;
  fgcmExpInfo : ExpInfo;
  fgcmStarObservationCat : StarObservationCat;
  obsIndex : list nat;
  visitIndex : list nat;
  converged : bool;
  cycleNumber : Z;
  previousReservedRawRepeatability : list Q;
  previousParInfo : option blob;
  previousParams : option blob;
  previousSuperStar : option blob }.

(** *** Attribute assignments on the engine objects *)

Definition rebuildConfig (c : FgcmConfig)
    (n : Z) (photCut highCut : list Q) (precompute freeze : bool) : FgcmConfig :=
  {| config_cycleNumber := n;
     expGrayPhotometricCut := photCut;
     expGrayHighCut := highCut;
     precomputeSuperStarInitialCycle := precompute;
     freezeStdAtmosphere := freeze;
     resetParameters := resetParameters c;
     maxIter := maxIter c;
     outputZeropoints := outputZeropoints c;
     outputStandards := outputStandards c;
     doPlots := doPlots c |}.

(** [fgcmConfig.updateCycleNumber(n)] *)
Definition updateCycleNumber (n : Z) (c : FgcmConfig) : FgcmConfig :=
  rebuildConfig c n (expGrayPhotometricCut c) (expGrayHighCut c)
    (precomputeSuperStarInitialCycle c) (freezeStdAtmosphere c).

(** Lines 370-373: the cuts recommended by the engine become the cuts of the
    next cycle, and the two first-cycle switches are turned off. *)
Definition adoptUpdatedCuts (photCut highCut : list Q) (c : FgcmConfig) : FgcmConfig :=
  rebuildConfig c (config_cycleNumber c) photCut highCut false false.

(** Lines 387-392. *)
Definition cleanupSettings (plots : bool) (c : FgcmConfig) : FgcmConfig :=
  {| config_cycleNumber := config_cycleNumber c;
     expGrayPhotometricCut := expGrayPhotometricCut c;
     expGrayHighCut := expGrayHighCut c;
     precomputeSuperStarInitialCycle := precomputeSuperStarInitialCycle c;
     freezeStdAtmosphere := false;
     resetParameters := false;
     maxIter := 0;
     outputZeropoints := true;
     outputStandards := true;
     doPlots := plots |}.

Definition rebuildFitCycle (fc : FgcmFitCycle)
    (c : FgcmConfig) (initial : bool) (stars : blob) (pars : FgcmParameters)
  : FgcmFitCycle :=
  {| fgcmConfig := c;
     initialCycle := initial;
     fgcmLut := fgcmLut fc;
     fgcmStars := stars;
     fgcmPars := pars;
     updatedPhotometricCut := updatedPhotometricCut fc;
     updatedHighCut := updatedHighCut fc;
     fgcmZpts := fgcmZpts fc |}.

Definition set_fgcmConfig (c : FgcmConfig) (fc : FgcmFitCycle) : FgcmFitCycle :=
  rebuildFitCycle fc c (initialCycle fc) (fgcmStars fc) (fgcmPars fc).

Definition set_initialCycle (b : bool) (fc : FgcmFitCycle) : FgcmFitCycle :=
  rebuildFitCycle fc (fgcmConfig fc) b (fgcmStars fc) (fgcmPars fc).

Definition set_fgcmStars (stars : blob) (fc : FgcmFitCycle) : FgcmFitCycle :=
  rebuildFitCycle fc (fgcmConfig fc) (initialCycle fc) stars (fgcmPars fc).

(** [fgcmFitCycle.setPars(fgcmPars)] *)
Definition setPars (pars : FgcmParameters) (fc : FgcmFitCycle) : FgcmFitCycle :=
  rebuildFitCycle fc (fgcmConfig fc) (initialCycle fc) (fgcmStars fc) pars.

Definition setLUT (lut : blob) (fc : FgcmFitCycle) : FgcmFitCycle :=
  {| fgcmConfig := fgcmConfig fc;
     initialCycle := initialCycle fc;
     fgcmLut := lut;
     fgcmStars := fgcmStars fc;
     fgcmPars := fgcmPars fc;
     updatedPhotometricCut := updatedPhotometricCut fc;
     updatedHighCut := updatedHighCut fc;
     fgcmZpts := fgcmZpts fc |}.

(** *** The convergence loop and the clean-up cycle (lines 324-412) *)

Section Controller.

Variable E : Fgcm.
Variable T : Tasks.
Variable config : FgcmCalibrateTractConfig.

(** Lines 364-366. *)
Definition repeatabilityConverged (previous current : list Q) : bool :=
  np_alltrue (np_lt (np_sub previous current) (convergenceTolerance config)).

Definition logBandRepeatability (pars : FgcmParameters) : list Event :=
  zip_with (λ band rep, log_info (BandRepeatability band (rep * 1000)))
    (bands pars) (compReservedRawRepeatability pars).

Definition logBandCuts (fc : FgcmFitCycle) : list Event :=
  zip_with (λ band cut, log_info (BandPhotometricityCut band (cut * 1000)))
    (bands (fgcmPars fc)) (updatedPhotometricCut fc).

(** Lines 345-346 and 401-402: the magnitude columns are read again from the
    observation catalog through [obsIndex]. *)
Definition reloadMagnitudes (st : Locals) (fc : FgcmFitCycle) : M World FgcmFitCycle :=
  mags ← lift (np_take (obs_instMag (fgcmStarObservationCat st)) (obsIndex st));
  errs ← lift (np_take (obs_instMagErr (fgcmStarObservationCat st)) (obsIndex st));
  emit (call_reloadStarMagnitudes mags errs);;
  mret (set_fgcmStars (reloadStarMagnitudes E mags errs (fgcmStars fc)) fc).

Definition loadPreviousPars (st : Locals) (fc : FgcmFitCycle) : FgcmParameters :=
  loadParsWithArrays E (fgcmConfig fc) (fgcmExpInfo st)
    (previousParInfo st) (previousParams st) (previousSuperStar st).

(** Lines 334-347. *)
Definition prepareCycle (st : Locals) : M World (FgcmFitCycle * FgcmParameters) :=
  let fc := set_fgcmConfig
              (updateCycleNumber (cycleNumber st) (fgcmConfig (fgcmFitCycle st)))
              (fgcmFitCycle st) in
  emit (call_updateCycleNumber (cycleNumber st));;
  if bool_decide (0 < cycleNumber st)%Z then
    let pars := loadPreviousPars st fc in
    emit call_loadParsWithArrays;;
    fc ← reloadMagnitudes st fc;
    mret (set_initialCycle false fc, pars)
  else mret (fc, local_fgcmPars st).

(** Lines 349-352. *)
Definition fitOnce (fc : FgcmFitCycle) (pars : FgcmParameters) : M World FgcmFitCycle :=
  emit call_setPars;;
  emit call_finishSetup;;
  emit call_run;;
  mret (run E (finishSetup E (setPars pars fc))).

(** Lines 354-380. *)
Definition checkConvergence (st : Locals) (pars : FgcmParameters) (fc : FgcmFitCycle)
  : M World Locals :=
  let '(parInfo, params) := parsToArrays (fgcmPars fc) in
  let superStar := parSuperStarFlat (fgcmPars fc) in
  let current := compReservedRawRepeatability (fgcmPars fc) in
  emit (log_info (RepeatabilityAfterCycle (cycleNumber st)));;
  emit_all (logBandRepeatability (fgcmPars fc));;
  if repeatabilityConverged (previousReservedRawRepeatability st) current then
    emit (log_info (ConvergedAfterCycle (cycleNumber st)));;
    mret {| fgcmFitCycle := fc;
            local_fgcmPars := pars;
            fgcmExpInfo := fgcmExpInfo st;
            fgcmStarObservationCat := fgcmStarObservationCat st;
            obsIndex := obsIndex st;
            visitIndex := visitIndex st;
            converged := true;
            cycleNumber := (cycleNumber st + 1)%Z;
            previousReservedRawRepeatability := previousReservedRawRepeatability st;
            previousParInfo := Some parInfo;
            previousParams := Some params;
            previousSuperStar := Some superStar |}
  else
    let fc' := set_fgcmConfig
                 (adoptUpdatedCuts (updatedPhotometricCut fc) (updatedHighCut fc)
                    (fgcmConfig fc)) fc in
    emit (log_info SettingPhotometricityCuts);;
    emit_all (logBandCuts fc);;
    mret {| fgcmFitCycle := fc';
            local_fgcmPars := pars;
            fgcmExpInfo := fgcmExpInfo st;
            fgcmStarObservationCat := fgcmStarObservationCat st;
            obsIndex := obsIndex st;
            visitIndex := visitIndex st;
            converged := converged st;
            cycleNumber := (cycleNumber st + 1)%Z;
            previousReservedRawRepeatability := current;
            previousParInfo := Some parInfo;
            previousParams := Some params;
            previousSuperStar := Some superStar |}.

(** One pass through the body of the [while] statement. *)
Definition loopBody (st : Locals) : M World Locals :=
  '(fc, pars) ← prepareCycle st;
  fc ← fitOnce fc pars;
  checkConvergence st pars fc.

(** Line 332. *)
Definition loopGuard (st : Locals) : bool :=
  negb (converged st) && bool_decide (cycleNumber st < maxFitCycles config)%Z.

(** The [while] statement. [whileLoop_exits] shows that the budget given by
    [fitCycles] is never used up: the loop ends with its guard false. *)
Fixpoint whileLoop (budget : nat) (st : Locals) : M World Locals :=
  if loopGuard st then
    match budget with
    | O => mret st
    | S budget' => st' ← loopBody st; whileLoop budget' st'
    end
  else mret st.

(** [k] passes through the loop body, whatever the guard says: the cycles
    an unbounded run would make. *)
Fixpoint cycles (k : nat) (st : Locals) : M World Locals :=
  match k with
  | O => mret st
  | S k' => st' ← loopBody st; cycles k' st'
  end.



(** Lines 386-412. *)
Definition finalCleanup (st : Locals) : M World Locals :=
  let fc := fgcmFitCycle st in
  let fc := set_fgcmConfig
              (updateCycleNumber (cycleNumber st)
                 (cleanupSettings (doDebuggingPlots config) (fgcmConfig fc))) fc in
  emit (call_updateCycleNumber (cycleNumber st));;
  let fc := set_initialCycle false fc in
  let pars := loadPreviousPars st fc in
  emit call_loadParsWithArrays;;
  fc ← reloadMagnitudes st fc;
  emit call_setPars;;
  emit call_finishSetup;;
  emit (log_info RunningFinalCleanup);;
  emit call_run;;
  let fc := run E (finishSetup E (setPars pars fc)) in
  emit (log_info RepeatabilityAfterCleanup);;
  emit_all (logBandRepeatability (fgcmPars fc));;
  mret {| fgcmFitCycle := fc;
          local_fgcmPars := pars;
          fgcmExpInfo := fgcmExpInfo st;
          fgcmStarObservationCat := fgcmStarObservationCat st;
          obsIndex := obsIndex st;
          visitIndex := visitIndex st;
          converged := converged st;
          cycleNumber := cycleNumber st;
          previousReservedRawRepeatability := previousReservedRawRepeatability st;
          previousParInfo := previousParInfo st;
          previousParams := previousParams st;
          previousSuperStar := previousSuperStar st |}.

(** Lines 332-412: the loop, the warning, and the clean-up cycle. *)
Definition fitCycles (st : Locals) : M World Locals :=
  st ← whileLoop (Z.to_nat (maxFitCycles config)) st;
  (if negb (converged st)
   then emit (log_warn (MaxFitCyclesExceeded (cycleNumber st)))
   else mret tt);;
  finalCleanup st.

(** Lines 324-330. *)
Definition initialLocals (fc : FgcmFitCycle) (pars : FgcmParameters)
    (expInfo : ExpInfo) (cat : StarObservationCat) (obsIdx visitIdx : list nat)
  : Locals :=
  {| fgcmFitCycle := fc;
     local_fgcmPars := pars;
     fgcmExpInfo := expInfo;
     fgcmStarObservationCat := cat;
     obsIndex := obsIdx;
     visitIndex := visitIdx;
     converged := false;
     cycleNumber := 0;
     previousReservedRawRepeatability := np_full (nBands pars) 1000;
     previousParInfo := None;
     previousParams := None;
     previousSuperStar := None |}.

(** *** The whole run (lines 224-438) *)

Definition first_ra (cat : StarObservationCat) : result Q :=
  match obs_ra cat with
  | ra0 :: _ => Ok ra0
  | [] => Raise IndexError
  end.

(** Line 277: the factor from the native angle unit to degrees. *)
Definition degreesPerUnit (ra0 : Q) : result Q :=
  if Qeq_bool ra0 0 then Raise ZeroDivisionError else Ok (asDegrees T ra0 / ra0)%Q.

(** Lines 293-313: the arguments of [loadStars], in evaluation order. *)
Definition starInputs (cat : StarObservationCat) (expInfo : ExpInfo)
    (starIdCat : StarIdCat) (refCat : RefCat) (conv : Q)
    (obsIdx visitIdx : list nat) : result StarInputs :=
  visit ← np_take (obs_visit cat) obsIdx;
  ccd ← np_take (obs_ccd cat) obsIdx;
  ra ← np_take (obs_ra cat) obsIdx;
  dec ← np_take (obs_dec cat) obsIdx;
  mag ← np_take (obs_instMag cat) obsIdx;
  magErr ← np_take (obs_instMagErr cat) obsIdx;
  filterName ← np_take (FILTERNAME expInfo) visitIdx;
  xs ← np_take (obs_x cat) obsIdx;
  ys ← np_take (obs_y cat) obsIdx;
  Ok {| in_visit := visit;
        in_ccd := ccd;
        in_ra := map (λ a, a * conv)%Q ra;
        in_dec := map (λ a, a * conv)%Q dec;
        in_mag := mag;
        in_magErr := magErr;
        in_filterName := filterName;
        in_starIds := starIdCat;
        in_x := xs;
        in_y := ys;
        in_ref := refCat |}.

Definition runDataRef (dataRefs : list Z) : M World OutStruct :=
  b ← gets butler;
  if negb (datasetExists b "fgcmLookUpTable") then
    raise (RuntimeError "Must run FgcmCalibrateTract with an fgcmLookUpTable")
  else if negb (doReferenceMatches (fgcmBuildStars config)) then
    raise (RuntimeError
             "Must run FgcmCalibrateTract with fgcmBuildStars.doReferenceMatches")
  else
    dataRef0 ← lift (match dataRefs with d :: _ => Ok d | [] => Raise IndexError end);
    let tract := dataId_tract T dataRef0 in
    emit (log_info (RunningOnTract tract));;
    let visitCat := fgcmMakeVisitCatalog T b dataRefs in
    let cat := fgcmMakeAllStarObservations T b visitCat in
    let '(starIdCat, starObsIndex, refCat) := fgcmMatchStars T b visitCat cat in
    lutCat ← lift (Butler.get b "fgcmLookUpTable");
    let '(lut, lutIndexVals, lutStd) :=
      translateFgcmLut T lutCat (filterMap (fgcmFitCycle_config config)) in
    let expInfo := translateVisitCatalog T visitCat in
    camera ← lift (Butler.get b "camera");
    let configDict :=
      <["doPlots" := PyBool false]>
        (makeConfigDict T (fgcmFitCycle_config config) camera
           (maxIterBeforeFinalCycle (fgcmFitCycle_config config)) tract) in
    let ccdOffsets := computeCcdOffsets T camera (pixelScale (fgcmFitCycle_config config)) in
    let fc := FgcmFitCycle_new E configDict lutIndexVals lutStd expInfo ccdOffsets in
    ra0 ← lift (first_ra cat);
    conv ← lift (degreesPerUnit ra0);
    let pars := newParsWithArrays E (fgcmConfig fc) lut expInfo in
    '(obsIdx, visitIdx) ←
      lift (IndexTranslator.matchObservationsToVisits
              (VISIT expInfo) (obs_visit cat) starObsIndex);
    let stars := FgcmStars_new E (fgcmConfig fc) in
    inputs ← lift (starInputs cat expInfo starIdCat refCat conv obsIdx visitIdx);
    emit call_loadStars;;
    let fc := set_fgcmStars (loadStars E pars inputs stars) (setLUT lut fc) in
    st ← fitCycles (initialLocals fc pars expInfo cat obsIdx visitIdx);
    b ← gets butler;
    let '(b', prods) :=
      generateOutputProducts T b tract visitCat (fgcmFitCycle st)
        (superStarSubCcd (fgcmFitCycle_config config)
         || ccdGraySubCcd (fgcmFitCycle_config config)) in
    emit call_generateOutputProducts;;
    modify (λ w, {| butler := b'; trace := trace w |});;
    mret {| products := prods;
            repeatability := compReservedRawRepeatability (fgcmPars (fgcmFitCycle st)) |}.

(** The event log restricted to the engine's fit routine. *)
Definition is_run (ev : Event) : bool :=
  match ev with call_run => true | _ => false end.

Definition fitInvocations (tr : list Event) : nat :=
  length (List.filter is_run tr).

(** The calls through which the controller changes the star data. *)
Definition is_star_call (ev : Event) : bool :=
  match ev with
  | call_loadStars | call_reloadStarMagnitudes _ _ => true
  | _ => false
  end.

Definition is_warning (ev : Event) : bool :=
  match ev with log_warn _ => true | _ => false end.

End Controller.

(** *** How the steps run *)

(** The world after more events were logged. *)
Definition say (evs : list Event) (w : World) : World :=
  {| butler := butler w; trace := trace w ++ evs |}.

(** The engine calls of cycle [n]; cycle 0 has no reload. *)
Definition cycleCalls (mags errs : list Q) (n : Z) : list Event :=
  call_updateCycleNumber n
  :: (if bool_decide (0 < n)%Z
      then [call_loadParsWithArrays; call_reloadStarMagnitudes mags errs]
      else [])
  ++ [call_setPars; call_finishSetup; call_run].

(** The engine calls of the clean-up cycle. *)
Definition cleanupCalls (mags errs : list Q) (n : Z) : list Event :=
  [call_updateCycleNumber n; call_loadParsWithArrays;
   call_reloadStarMagnitudes mags errs;
   call_setPars; call_finishSetup; call_run].

Definition is_call (ev : Event) : bool :=
  match ev with
  | log_info _ | log_warn _ => false
  | _ => true
  end.

(** The event log without the log messages. *)
Definition engineCalls (tr : list Event) : list Event := List.filter is_call tr.

Section ControllerSteps.

Variable E : Fgcm.
Variable T : Tasks.
Variable config : FgcmCalibrateTractConfig.

(** The fit-cycle object and parameters that enter the fit of a cycle. *)
Definition preparedFitCycle (st : Locals) (mags errs : list Q) : FgcmFitCycle :=
  let fc := set_fgcmConfig
              (updateCycleNumber (cycleNumber st) (fgcmConfig (fgcmFitCycle st)))
              (fgcmFitCycle st) in
  if bool_decide (0 < cycleNumber st)%Z
  then set_initialCycle false
         (set_fgcmStars (reloadStarMagnitudes E mags errs (fgcmStars fc)) fc)
  else fc.

Definition preparedPars (st : Locals) : FgcmParameters :=
  if bool_decide (0 < cycleNumber st)%Z
  then loadPreviousPars E st
         (set_fgcmConfig
            (updateCycleNumber (cycleNumber st) (fgcmConfig (fgcmFitCycle st)))
            (fgcmFitCycle st))
  else local_fgcmPars st.

(** The fit-cycle object as the engine leaves it after the fit of a cycle. *)
Definition fitted (st : Locals) (mags errs : list Q) : FgcmFitCycle :=
  run E (finishSetup E (setPars (preparedPars st) (preparedFitCycle st mags errs))).

(** The repeatability vector the engine reports for the cycle. *)
Definition currentRepeatability (st : Locals) (mags errs : list Q) : list Q :=
  compReservedRawRepeatability (fgcmPars (fitted st mags errs)).

Definition cycleConverged (st : Locals) (mags errs : list Q) : bool :=
  repeatabilityConverged config (previousReservedRawRepeatability st)
    (currentRepeatability st mags errs).

Lemma say_nil (w : World) : say [] w = w.
Proof. destruct w. unfold say. simpl. by rewrite app_nil_r. Qed.

Lemma say_say (a b : list Event) (w : World) : say b (say a w) = say (a ++ b) w.
Proof. unfold say. simpl. by rewrite app_assoc. Qed.

Lemma emit_run (ev : Event) (w : World) : emit ev w = (Ok tt, say [ev] w).
Proof. reflexivity. Qed.

Lemma emit_all_run (evs : list Event) (w : World) :
  emit_all evs w = (Ok tt, say evs w).
Proof.
  revert w. induction evs as [|ev evs IH]; intros w; simpl.
  - by rewrite say_nil.
  - unfold mbind, M_bind. rewrite emit_run, IH, say_say. reflexivity.
Qed.

Lemma bind_run {A B} (m : M World A) (k : A → M World B) (w w' : World) (a : A) :
  m w = (Ok a, w') → (m ≫= k) w = k a w'.
Proof. intros H. unfold mbind, M_bind. by rewrite H. Qed.

Lemma engineCalls_app (a b : list Event) :
  engineCalls (a ++ b) = engineCalls a ++ engineCalls b.
Proof. unfold engineCalls. apply List.filter_app. Qed.

Lemma engineCalls_logs {A B} (f : A → B → LogMessage) (l : list A) (k : list B) :
  engineCalls (zip_with (λ a b, log_info (f a b)) l k) = [].
Proof.
  revert k. induction l as [|a l IH]; intros [|b k]; simpl; try reflexivity.
  apply IH.
Qed.

Lemma reloadMagnitudes_run (st : Locals) (fc : FgcmFitCycle) (w : World)
    (mags errs : list Q) :
  np_take (obs_instMag (fgcmStarObservationCat st)) (obsIndex st) = Ok mags →
  np_take (obs_instMagErr (fgcmStarObservationCat st)) (obsIndex st) = Ok errs →
  reloadMagnitudes E st fc w
  = (Ok (set_fgcmStars (reloadStarMagnitudes E mags errs (fgcmStars fc)) fc),
     say [call_reloadStarMagnitudes mags errs] w).
Proof.
  intros Hm He. unfold reloadMagnitudes, mbind, M_bind, lift.
  rewrite Hm, He. reflexivity.
Qed.

Lemma prepareCycle_run (st : Locals) (w : World) (mags errs : list Q) :
  ((0 < cycleNumber st)%Z →
   np_take (obs_instMag (fgcmStarObservationCat st)) (obsIndex st) = Ok mags
   ∧ np_take (obs_instMagErr (fgcmStarObservationCat st)) (obsIndex st) = Ok errs) →
  ∃ evs,
    prepareCycle E st w
    = (Ok (preparedFitCycle st mags errs, preparedPars st), say evs w)
    ∧ engineCalls (evs ++ [call_setPars; call_finishSetup; call_run])
      = cycleCalls mags errs (cycleNumber st)
    ∧ List.filter is_warning evs = [].
Proof.
  intros Hcols. unfold prepareCycle, preparedFitCycle, preparedPars, cycleCalls.
  unfold mbind at 1, M_bind at 1. rewrite emit_run.
  case_bool_decide as Hpos.
  - destruct (Hcols Hpos) as [Hm He]. eexists. split; [|split].
    + unfold mbind at 1, M_bind at 1. rewrite emit_run.
      erewrite bind_run by (apply reloadMagnitudes_run; eassumption).
      unfold mret, M_ret. rewrite !say_say. reflexivity.
    + reflexivity.
    + reflexivity.
  - exists [call_updateCycleNumber (cycleNumber st)]. repeat split; reflexivity.
Qed.

(** The local variables after one pass through the loop body. *)
Definition nextLocals (st : Locals) (mags errs : list Q) : Locals :=
  let fc := fitted st mags errs in
  let conv := cycleConverged st mags errs in
  {| fgcmFitCycle :=
       if conv then fc
       else set_fgcmConfig
              (adoptUpdatedCuts (updatedPhotometricCut fc) (updatedHighCut fc)
                 (fgcmConfig fc)) fc;
     local_fgcmPars := preparedPars st;
     fgcmExpInfo := fgcmExpInfo st;
     fgcmStarObservationCat := fgcmStarObservationCat st;
     obsIndex := obsIndex st;
     visitIndex := visitIndex st;
     converged := if conv then true else converged st;
     cycleNumber := (cycleNumber st + 1)%Z;
     previousReservedRawRepeatability :=
       if conv then previousReservedRawRepeatability st
       else currentRepeatability st mags errs;
     previousParInfo := Some (parInfoArray (fgcmPars fc));
     previousParams := Some (parsArray (fgcmPars fc));
     previousSuperStar := Some (parSuperStarFlat (fgcmPars fc)) |}.

Lemma warnings_logs {A B} (f : A → B → LogMessage) (l : list A) (k : list B) :
  List.filter is_warning (zip_with (λ a b, log_info (f a b)) l k) = [].
Proof.
  revert k. induction l as [|a l IH]; intros [|b k]; simpl; try reflexivity.
  apply IH.
Qed.

Lemma checkConvergence_run (st : Locals) (w : World) (mags errs : list Q) :
  ∃ evs,
    checkConvergence config st (preparedPars st) (fitted st mags errs) w
    = (Ok (nextLocals st mags errs), say evs w)
    ∧ engineCalls evs = [] ∧ List.filter is_warning evs = [].
Proof.
  unfold checkConvergence, nextLocals, cycleConverged, currentRepeatability.
  simpl. unfold mbind at 1, M_bind at 1. rewrite emit_run.
  unfold mbind at 1, M_bind at 1. rewrite emit_all_run.
  destruct (repeatabilityConverged _ _ _) eqn:Hc.
  - eexists. split.
    + unfold mbind at 1, M_bind at 1. rewrite emit_run.
      unfold mret, M_ret. rewrite !say_say. reflexivity.
    + split.
      * rewrite !engineCalls_app. unfold logBandRepeatability.
        rewrite engineCalls_logs. reflexivity.
      * rewrite !List.filter_app. unfold logBandRepeatability.
        rewrite warnings_logs. reflexivity.
  - eexists. split.
    + unfold mbind at 1, M_bind at 1. rewrite emit_run.
      unfold mbind at 1, M_bind at 1. rewrite emit_all_run.
      unfold mret, M_ret. rewrite !say_say. reflexivity.
    + split.
      * rewrite !engineCalls_app. unfold logBandRepeatability, logBandCuts.
        rewrite !engineCalls_logs. reflexivity.
      * rewrite !List.filter_app. unfold logBandRepeatability, logBandCuts.
        rewrite !warnings_logs. reflexivity.
Qed.

Lemma fitOnce_run (fc : FgcmFitCycle) (pars : FgcmParameters) (w : World) :
  fitOnce E fc pars w
  = (Ok (run E (finishSetup E (setPars pars fc))),
     say [call_setPars; call_finishSetup; call_run] w).
Proof.
  unfold fitOnce, mbind, M_bind. rewrite !emit_run.
  unfold mret, M_ret. by rewrite !say_say.
Qed.

Lemma loopBody_run (st : Locals) (w : World) (mags errs : list Q) :
  ((0 < cycleNumber st)%Z →
   np_take (obs_instMag (fgcmStarObservationCat st)) (obsIndex st) = Ok mags
   ∧ np_take (obs_instMagErr (fgcmStarObservationCat st)) (obsIndex st) = Ok errs) →
  ∃ evs,
    loopBody E config st w = (Ok (nextLocals st mags errs), say evs w)
    ∧ engineCalls evs = cycleCalls mags errs (cycleNumber st)
    ∧ List.filter is_warning evs = [].
Proof.
  intros Hcols.
  destruct (prepareCycle_run st w mags errs Hcols)
    as (evs1 & Hprep & Hcalls & Hquiet).
  destruct (checkConvergence_run st
              (say (evs1 ++ [call_setPars; call_finishSetup; call_run]) w)
              mags errs) as (evs2 & Hcheck & Hnone & Hnowarn).
  exists ((evs1 ++ [call_setPars; call_finishSetup; call_run]) ++ evs2).
  split; [|split].
  - unfold loopBody. erewrite bind_run by exact Hprep. cbv beta iota.
    erewrite bind_run by apply fitOnce_run.
    rewrite say_say. fold (fitted st mags errs). rewrite Hcheck.
    by rewrite say_say.
  - rewrite engineCalls_app, Hnone, app_nil_r. exact Hcalls.
  - rewrite !List.filter_app, Hnowarn, app_nil_r.
    rewrite Hquiet. reflexivity.
Qed.

(** The local variables after [k] passes through the loop body. *)
Fixpoint afterCycles (k : nat) (st : Locals) (mags errs : list Q) : Locals :=
  match k with
  | O => st
  | S k' => afterCycles k' (nextLocals st mags errs) mags errs
  end.

Lemma afterCycles_S (k : nat) (st : Locals) (mags errs : list Q) :
  afterCycles (S k) st mags errs = nextLocals (afterCycles k st mags errs) mags errs.
Proof.
  revert st. induction k as [|k IH]; intros st; [reflexivity|].
  change (afterCycles (S (S k)) st mags errs)
    with (afterCycles (S k) (nextLocals st mags errs) mags errs).
  rewrite IH. reflexivity.
Qed.

Lemma afterCycles_frame (k : nat) (st : Locals) (mags errs : list Q) :
  obsIndex (afterCycles k st mags errs) = obsIndex st
  ∧ visitIndex (afterCycles k st mags errs) = visitIndex st
  ∧ fgcmStarObservationCat (afterCycles k st mags errs) = fgcmStarObservationCat st
  ∧ fgcmExpInfo (afterCycles k st mags errs) = fgcmExpInfo st
  ∧ cycleNumber (afterCycles k st mags errs) = (cycleNumber st + Z.of_nat k)%Z.
Proof.
  revert st. induction k as [|k IH]; intros st.
  - simpl. repeat split; lia.
  - simpl. destruct (IH (nextLocals st mags errs)) as (H1 & H2 & H3 & H4 & H5).
    rewrite H1, H2, H3, H4, H5. simpl. repeat split; lia.
Qed.

(** The engine calls of the cycles numbered [n], [n+1], ..., [n+k-1]. *)
Fixpoint callsFrom (mags errs : list Q) (n : Z) (k : nat) : list Event :=
  match k with
  | O => []
  | S k' => cycleCalls mags errs n ++ callsFrom mags errs (n + 1) k'
  end.

Lemma cycles_run (k : nat) (st : Locals) (w : World) (mags errs : list Q) :
  np_take (obs_instMag (fgcmStarObservationCat st)) (obsIndex st) = Ok mags →
  np_take (obs_instMagErr (fgcmStarObservationCat st)) (obsIndex st) = Ok errs →
  ∃ evs,
    cycles E config k st w = (Ok (afterCycles k st mags errs), say evs w)
    ∧ engineCalls evs = callsFrom mags errs (cycleNumber st) k
    ∧ List.filter is_warning evs = [].
Proof.
  revert st w. induction k as [|k IH]; intros st w Hm He.
  - exists []. rewrite say_nil. repeat split.
  - destruct (loopBody_run st w mags errs (λ _, conj Hm He)) as (evs1 & Hbody & Hcalls & Hq).
    destruct (IH (nextLocals st mags errs) (say evs1 w)) as (evs2 & Hrest & Hcalls2 & Hq2);
      [exact Hm|exact He|].
    exists (evs1 ++ evs2). split; [|split].
    + simpl. erewrite bind_run by exact Hbody. rewrite Hrest, say_say. reflexivity.
    + rewrite engineCalls_app, Hcalls, Hcalls2. reflexivity.
    + rewrite List.filter_app, Hq, Hq2. reflexivity.
Qed.

Lemma whileLoop_run (budget : nat) (st : Locals) (w : World) (mags errs : list Q) :
  np_take (obs_instMag (fgcmStarObservationCat st)) (obsIndex st) = Ok mags →
  np_take (obs_instMagErr (fgcmStarObservationCat st)) (obsIndex st) = Ok errs →
  ∃ n,
    n ≤ budget
    ∧ whileLoop E config budget st w = cycles E config n st w
    ∧ (∀ j, j < n → loopGuard config (afterCycles j st mags errs) = true)
    ∧ (loopGuard config (afterCycles n st mags errs) = false ∨ n = budget).
Proof.
  revert st w. induction budget as [|budget IH]; intros st w Hm He.
  - exists 0. split; [lia|]. split; [|split].
    + simpl. destruct (loopGuard config st); reflexivity.
    + intros; lia.
    + by right.
  - destruct (loopGuard config st) eqn:Hg.
    + destruct (loopBody_run st w mags errs (λ _, conj Hm He)) as (evs1 & Hbody & _).
      destruct (IH (nextLocals st mags errs) (say evs1 w)) as (n & Hn & Hrun & Hbefore & Hend);
        [exact Hm|exact He|].
      exists (S n). split; [lia|]. split; [|split].
      * simpl. rewrite Hg. rewrite !(bind_run _ _ _ _ _ Hbody). exact Hrun.
      * intros [|j] Hj; simpl; [exact Hg|]. apply Hbefore. lia.
      * simpl. destruct Hend as [Hend| ->]; [by left|by right].
    + exists 0. split; [lia|]. split; [|split].
      * simpl. by rewrite Hg.
      * intros; lia.
      * by left.
Qed.

(** The fit-cycle object as the clean-up cycle leaves it. *)
Definition cleanedFitCycle (st : Locals) (mags errs : list Q) : FgcmFitCycle :=
  let fc := set_initialCycle false
              (set_fgcmConfig
                 (updateCycleNumber (cycleNumber st)
                    (cleanupSettings (doDebuggingPlots config)
                       (fgcmConfig (fgcmFitCycle st))))
                 (fgcmFitCycle st)) in
  run E (finishSetup E
           (setPars (loadPreviousPars E st fc)
              (set_fgcmStars (reloadStarMagnitudes E mags errs (fgcmStars fc)) fc))).

Lemma finalCleanup_run (st : Locals) (w : World) (mags errs : list Q) :
  np_take (obs_instMag (fgcmStarObservationCat st)) (obsIndex st) = Ok mags →
  np_take (obs_instMagErr (fgcmStarObservationCat st)) (obsIndex st) = Ok errs →
  ∃ st' evs,
    finalCleanup E config st w = (Ok st', say evs w)
    ∧ engineCalls evs = cleanupCalls mags errs (cycleNumber st)
    ∧ List.filter is_warning evs = []
    ∧ fgcmFitCycle st' = cleanedFitCycle st mags errs
    ∧ obsIndex st' = obsIndex st
    ∧ visitIndex st' = visitIndex st
    ∧ fgcmStarObservationCat st' = fgcmStarObservationCat st
    ∧ converged st' = converged st
    ∧ cycleNumber st' = cycleNumber st.
Proof.
  intros Hm He. unfold finalCleanup.
  eexists. eexists. split.
  - cbv zeta. unfold mbind at 1, M_bind at 1. rewrite emit_run.
    unfold mbind at 1, M_bind at 1. rewrite emit_run.
    erewrite bind_run by (apply reloadMagnitudes_run; eassumption).
    unfold mbind at 1, M_bind at 1. rewrite emit_run.
    unfold mbind at 1, M_bind at 1. rewrite emit_run.
    unfold mbind at 1, M_bind at 1. rewrite emit_run.
    unfold mbind at 1, M_bind at 1. rewrite emit_run.
    unfold mbind at 1, M_bind at 1. rewrite emit_run.
    unfold mbind at 1, M_bind at 1. rewrite emit_all_run.
    unfold mret, M_ret. rewrite !say_say. reflexivity.
  - split.
    + rewrite !engineCalls_app. unfold logBandRepeatability.
      rewrite engineCalls_logs. reflexivity.
    + split.
      * rewrite !List.filter_app. unfold logBandRepeatability.
        rewrite warnings_logs. reflexivity.
      * repeat split.
Qed.

(** The events between the loop and the clean-up cycle (lines 383-384). *)
Definition exhaustionWarning (st : Locals) : list Event :=
  if negb (converged st)
  then [log_warn (MaxFitCyclesExceeded (cycleNumber st))]
  else [].

(** The loop ends with its guard false, after as many cycles as the guard
    allowed, and the clean-up cycle follows. *)
Lemma fitCycles_run (st0 : Locals) (w0 : World) (mags errs : list Q) :
  cycleNumber st0 = 0%Z →
  np_take (obs_instMag (fgcmStarObservationCat st0)) (obsIndex st0) = Ok mags →
  np_take (obs_instMagErr (fgcmStarObservationCat st0)) (obsIndex st0) = Ok errs →
  ∃ n st loopEvs cleanEvs,
    fitCycles E config st0 w0
    = (Ok st, say (loopEvs ++ exhaustionWarning (afterCycles n st0 mags errs) ++ cleanEvs) w0)
    ∧ cycles E config n st0 w0 = (Ok (afterCycles n st0 mags errs), say loopEvs w0)
    ∧ (∀ j, j < n → loopGuard config (afterCycles j st0 mags errs) = true)
    ∧ loopGuard config (afterCycles n st0 mags errs) = false
    ∧ engineCalls loopEvs = callsFrom mags errs 0 n
    ∧ List.filter is_warning loopEvs = []
    ∧ engineCalls cleanEvs = cleanupCalls mags errs (Z.of_nat n)
    ∧ List.filter is_warning cleanEvs = []
    ∧ fgcmFitCycle st = cleanedFitCycle (afterCycles n st0 mags errs) mags errs
    ∧ obsIndex st = obsIndex st0
    ∧ visitIndex st = visitIndex st0
    ∧ fgcmStarObservationCat st = fgcmStarObservationCat st0
    ∧ converged st = converged (afterCycles n st0 mags errs).
Proof.
  intros Hzero Hm He.
  destruct (whileLoop_run (Z.to_nat (maxFitCycles config)) st0 w0 mags errs Hm He)
    as (n & Hn & Hloop & Hbefore & Hend).
  destruct (cycles_run n st0 w0 mags errs Hm He) as (loopEvs & Hcyc & Hcalls & Hquiet).
  destruct (afterCycles_frame n st0 mags errs) as (Hoi & Hvi & Hcat & Hexp & Hcn).
  set (st1 := afterCycles n st0 mags errs) in *.
  assert (loopGuard config st1 = false) as Hexit.
  { destruct Hend as [Hend| ->]; [exact Hend|].
    unfold loopGuard. rewrite Hcn, Hzero.
    rewrite (bool_decide_eq_false_2 _); [apply andb_false_r|]. lia. }
  destruct (finalCleanup_run st1
              (say (loopEvs ++ exhaustionWarning st1) w0) mags errs)
    as (st & cleanEvs & Hfin & Hfcalls & Hfquiet & Hfc & Hfoi & Hfvi & Hfcat & Hfconv & Hfcn).
  { by rewrite Hcat, Hoi. }
  { by rewrite Hcat, Hoi. }
  exists n, st, loopEvs, cleanEvs.
  split; [|repeat split; try assumption; try congruence].
  - unfold fitCycles. rewrite (bind_run _ _ w0 (say loopEvs w0) st1) by (by rewrite Hloop).
    assert ((if negb (converged st1)
             then emit (log_warn (MaxFitCyclesExceeded (cycleNumber st1)))
             else mret ()) (say loopEvs w0)
            = (Ok tt, say (loopEvs ++ exhaustionWarning st1) w0)) as Hwarn.
    { unfold exhaustionWarning. destruct (converged st1); simpl.
      - unfold mret, M_ret. by rewrite app_nil_r.
      - rewrite emit_run, say_say. reflexivity. }
    rewrite (bind_run _ _ _ _ _ Hwarn). rewrite Hfin, say_say.
    by rewrite <- app_assoc.
  - rewrite Hfcalls, Hcn, Hzero. reflexivity.
Qed.

End ControllerSteps.

(** *** The convergence test *)

Lemma Qltb_lt (x y : Q) : Qltb x y = true ↔ (x < y)%Q.
Proof.
  unfold Qltb. rewrite negb_true_iff. split.
  - intros H. apply Qnot_le_lt. intros Hle.
    apply Qle_bool_iff in Hle. congruence.
  - intros H. destruct (Qle_bool y x) eqn:Hb; [|reflexivity].
    apply Qle_bool_iff in Hb. exfalso. exact (Qlt_not_le _ _ H Hb).
Qed.

Lemma repeatabilityConverged_spec (config : FgcmCalibrateTractConfig)
    (previous current : list Q) :
  repeatabilityConverged config previous current = true
  ↔ ∀ i p c, previous !! i = Some p → current !! i = Some c →
             (p - c < convergenceTolerance config)%Q.
Proof.
  unfold repeatabilityConverged, np_alltrue, np_lt, np_sub.
  revert current. induction previous as [|p0 previous IH]; intros current.
  - simpl. split; [|reflexivity]. intros _ i p c Hp. by rewrite lookup_nil in Hp.
  - destruct current as [|c0 current]; simpl.
    + split; [|reflexivity]. intros _ i p c _ Hc. by rewrite lookup_nil in Hc.
    + rewrite andb_true_iff, IH. unfold id. rewrite Qltb_lt. split.
      * intros [H0 Hrest] [|i] p c Hp Hc; simpl in *.
        -- injection Hp as <-. injection Hc as <-. exact H0.
        -- eauto.
      * intros H. split.
        -- apply (H 0); reflexivity.
        -- intros i p c Hp Hc. apply (H (S i)); assumption.
Qed.

Lemma nextLocals_pars (E : Fgcm) (config : FgcmCalibrateTractConfig)
    (st : Locals) (mags errs : list Q) :
  compReservedRawRepeatability (fgcmPars (fgcmFitCycle (nextLocals E config st mags errs)))
  = currentRepeatability E st mags errs.
Proof.
  unfold nextLocals, currentRepeatability. simpl.
  destruct (cycleConverged E config st mags errs); reflexivity.
Qed.


(** C4. Before cycle 0 every band's previous repeatability is the sentinel
    1000; the first pass through the loop body always completes, and it
    leaves the convergence flag unset as soon as one band reports a
    repeatability that lies below the sentinel by at least the tolerance. *)
Theorem sentinel_keeps_first_cycle_unconverged
    (E : Fgcm) (config : FgcmCalibrateTractConfig)
    (fc : FgcmFitCycle) (pars : FgcmParameters) (expInfo : ExpInfo)
    (cat : StarObservationCat) (obsIdx visitIdx : list nat) (w : World) :
  let st0 := initialLocals fc pars expInfo cat obsIdx visitIdx in
  length (previousReservedRawRepeatability st0) = nBands pars
  ∧ (∀ i p, previousReservedRawRepeatability st0 !! i = Some p → p = 1000%Q)
  ∧ cycleNumber st0 = 0%Z
  ∧ converged st0 = false
  ∧ ∃ st' w',
      loopBody E config st0 w = (Ok st', w')
      ∧ ∀ i c,
          i < nBands pars →
          compReservedRawRepeatability (fgcmPars (fgcmFitCycle st')) !! i = Some c →
          (c + convergenceTolerance config <= 1000)%Q →
          converged st' = false.
Proof.
  intros st0. split; [apply length_replicate|]. split.
  { intros i p Hp. apply lookup_replicate in Hp as [-> _]. reflexivity. }
  split; [reflexivity|]. split; [reflexivity|].
  destruct (loopBody_run E config st0 w [] []) as (evs & Hbody & _).
  { simpl. lia. }
  exists (nextLocals E config st0 [] []), (say evs w).
  split; [exact Hbody|].
  intros i c Hi Hc Hfar. rewrite nextLocals_pars in Hc.
  assert (converged (nextLocals E config st0 [] [])
          = cycleConverged E config st0 [] []) as ->.
  { unfold nextLocals. simpl. by destruct (cycleConverged E config st0 [] []). }
  destruct (cycleConverged E config st0 [] []) eqn:Hconv; [|reflexivity].
  exfalso. unfold cycleConverged in Hconv.
  rewrite repeatabilityConverged_spec in Hconv.
  assert (previousReservedRawRepeatability st0 !! i = Some 1000%Q) as Hp
    by (by apply lookup_replicate_2).
  pose proof (Hconv i _ c Hp Hc) as Hlt. lra.
Qed.

(** C5. When the look-up table is not in the butler, or reference matching is
    switched off, the run raises a [RuntimeError] and leaves the world as it
    found it: no event was logged, so no engine call was made, and the butler
    holds what it held. *)
Theorem missing_preconditions_raise_before_any_fit
    (E : Fgcm) (T : Tasks) (config : FgcmCalibrateTractConfig)
    (dataRefs : list Z) (w : World) :
  butler w !! "fgcmLookUpTable" = None
  ∨ doReferenceMatches (fgcmBuildStars config) = false →
  ∃ msg,
    runDataRef E T config dataRefs w = (Raise (RuntimeError msg), w)
    ∧ fitInvocations (trace (runDataRef E T config dataRefs w).2)
      = fitInvocations (trace w)
    ∧ butler (runDataRef E T config dataRefs w).2 = butler w.
Proof.
  intros Hpre.
  assert (∃ msg, runDataRef E T config dataRefs w = (Raise (RuntimeError msg), w))
    as [msg Hrun].
  { unfold runDataRef. unfold mbind at 1, M_bind at 1, gets. simpl.
    destruct (datasetExists (butler w) "fgcmLookUpTable") eqn:Hlut; simpl.
    - destruct Hpre as [Hnone|Hoff].
      + unfold datasetExists in Hlut. rewrite Hnone in Hlut.
        apply bool_decide_eq_true in Hlut. by destruct Hlut.
      + rewrite Hoff. simpl. eexists. reflexivity.
    - eexists. reflexivity. }
  exists msg. rewrite Hrun. repeat split.
Qed.

(** *** Counting fit invocations *)










(** C8. Through the loop and the clean-up cycle the index arrays and the
    observation catalog stay what they were before the loop, after every
    cycle and at the end. The controller's calls are those of cycles
    0, 1, ..., n-1 followed by those of the clean-up cycle; among them the
    calls that touch the star data are one magnitude reload per cycle after
    cycle 0 and one for the clean-up cycle, each with the magnitude and error
    columns of the catalog read through the unchanged [obsIndex]. *)
Theorem indices_fixed_magnitudes_reloaded
    (E : Fgcm) (config : FgcmCalibrateTractConfig)
    (st0 : Locals) (w0 : World) (mags errs : list Q) :
  cycleNumber st0 = 0%Z →
  np_take (obs_instMag (fgcmStarObservationCat st0)) (obsIndex st0) = Ok mags →
  np_take (obs_instMagErr (fgcmStarObservationCat st0)) (obsIndex st0) = Ok errs →
  ∃ n st evs,
    fitCycles E config st0 w0 = (Ok st, say evs w0)
    ∧ obsIndex st = obsIndex st0
    ∧ visitIndex st = visitIndex st0
    ∧ fgcmStarObservationCat st = fgcmStarObservationCat st0
    ∧ (∀ j stj wj,
         cycles E config j st0 w0 = (Ok stj, wj) →
         obsIndex stj = obsIndex st0
         ∧ visitIndex stj = visitIndex st0
         ∧ fgcmStarObservationCat stj = fgcmStarObservationCat st0)
    ∧ engineCalls evs
      = callsFrom mags errs 0 n ++ cleanupCalls mags errs (Z.of_nat n)
    ∧ List.filter is_star_call evs
      = replicate (Nat.pred n + 1) (call_reloadStarMagnitudes mags errs)
    ∧ List.filter is_star_call (cycleCalls mags errs 0) = []
    ∧ (∀ k, (0 < k)%Z →
         List.filter is_star_call (cycleCalls mags errs k)
         = [call_reloadStarMagnitudes mags errs])
    ∧ List.filter is_star_call (cleanupCalls mags errs (Z.of_nat n))
      = [call_reloadStarMagnitudes mags errs].
Proof.
  intros Hzero Hm He.
  destruct (fitCycles_run E config st0 w0 mags errs Hzero Hm He)
    as (n & st & loopEvs & cleanEvs & Hrun & Hcyc & Hbefore & Hexit & Hcalls & Hquiet
        & Hfcalls & Hfquiet & _ & Hoi & Hvi & Hcat & Hconv).
  exists n, st, (loopEvs ++ exhaustionWarning (afterCycles E config n st0 mags errs)
                 ++ cleanEvs).
  assert (engineCalls
            (loopEvs ++ exhaustionWarning (afterCycles E config n st0 mags errs)
             ++ cleanEvs)
          = callsFrom mags errs 0 n ++ cleanupCalls mags errs (Z.of_nat n)) as Hall.
  { rewrite !engineCalls_app, Hcalls, Hfcalls. unfold exhaustionWarning.
    destruct (converged (afterCycles E config n st0 mags errs)); reflexivity. }
  assert (∀ l, List.filter is_star_call (engineCalls l) = List.filter is_star_call l)
    as Hstar.
  { induction l as [|ev l IH]; [reflexivity|].
    unfold engineCalls in *. destruct ev; simpl; try exact IH; by rewrite IH. }
  assert (∀ k m, (0 ≤ m)%Z →
            List.filter is_star_call (callsFrom mags errs m k)
            = replicate (if bool_decide (0 < m)%Z then k else Nat.pred k)
                (call_reloadStarMagnitudes mags errs)) as Hloopstars.
  { induction k as [|k IH]; intros m Hle.
    - by case_bool_decide.
    - simpl. rewrite List.filter_app, IH by lia. unfold cycleCalls.
      rewrite (bool_decide_eq_true_2 (0 < m + 1)%Z) by lia.
      case_bool_decide; reflexivity. }
  split; [exact Hrun|]. split; [exact Hoi|]. split; [exact Hvi|].
  split; [exact Hcat|]. split; [|split; [exact Hall|split; [|split; [|split]]]].
  - intros j stj wj Hj.
    destruct (cycles_run E config j st0 w0 mags errs Hm He) as (evsj & Hcj & _).
    rewrite Hcj in Hj. injection Hj as <- _.
    destruct (afterCycles_frame E config j st0 mags errs) as (H1 & H2 & H3 & _).
    by split; [|split].
  - rewrite <- Hstar, Hall, List.filter_app, Hloopstars by lia.
    rewrite (bool_decide_eq_false_2 (0 < 0)%Z) by lia.
    change (List.filter is_star_call (cleanupCalls mags errs (Z.of_nat n)))
      with (replicate 1 (call_reloadStarMagnitudes mags errs)).
    by rewrite <- replicate_add.
  - reflexivity.
  - intros k Hk. unfold cycleCalls. by rewrite bool_decide_eq_true_2.
  - reflexivity.
Qed.

(** *** A run of the specification's scenarios on a stand-in engine *)

Module Scenario.

Definition pars (reps : list Q) : FgcmParameters :=
  {| nBands := 2;
     bands := ["g"; "r"];
     compReservedRawRepeatability := reps;
     parInfoArray := [];
     parsArray := [];
     parSuperStarFlat := [] |}.

Definition engineConfig : FgcmConfig :=
  {| config_cycleNumber := 0;
     expGrayPhotometricCut := [-0.05; -0.05]%Q;
     expGrayHighCut := [0.2; 0.2]%Q;
     precomputeSuperStarInitialCycle := true;
     freezeStdAtmosphere := true;
     resetParameters := true;
     maxIter := 50;
     outputZeropoints := false;
     outputStandards := false;
     doPlots := false |}.

Definition fitCycleObject : FgcmFitCycle :=
  {| fgcmConfig := engineConfig;
     initialCycle := true;
     fgcmLut := [];
     fgcmStars := [];
     fgcmPars := pars [];
     updatedPhotometricCut := [-0.03; -0.03]%Q;
     updatedHighCut := [0.1; 0.1]%Q;
     fgcmZpts := [] |}.

(** An engine whose fit reports, per band, what [reps] says for the cycle
    number it was given. *)
Definition engine (reps : Z → list Q) : Fgcm :=
  {| FgcmFitCycle_new := λ _ _ _ _ _, fitCycleObject;
     newParsWithArrays := λ _ _ _, pars [];
     loadParsWithArrays := λ _ _ _ _ _, pars [];
     FgcmStars_new := λ _, [];
     loadStars := λ _ _ stars, stars;
     reloadStarMagnitudes := λ mags _ _, mags;
     finishSetup := λ fc, fc;
     run := λ fc, setPars (pars (reps (config_cycleNumber (fgcmConfig fc)))) fc |}.

(** Scenario 4 of the specification: 0.0200, 0.0180 after cycle 0 and
    0.0158, 0.0145 afterwards. *)
Definition improving (n : Z) : list Q :=
  if bool_decide (n = 0)%Z then [0.0200; 0.0180]%Q else [0.0158; 0.0145]%Q.

(** Scenario 5: every cycle improves each band by 10, never within tolerance. *)
Definition restless (n : Z) : list Q :=
  [inject_Z (100 - 10 * n); inject_Z (100 - 10 * n)].

Definition tractConfig (cap : Z) : FgcmCalibrateTractConfig :=
  {| fgcmBuildStars := {| doReferenceMatches := true; checkAllCcds := true |};
     fgcmFitCycle_config :=
       {| filterMap := ∅;
          maxIterBeforeFinalCycle := 50;
          pixelScale := 0.168;
          superStarSubCcd := false;
          ccdGraySubCcd := false |};
     convergenceTolerance := 0.005;
     maxFitCycles := cap;
     doDebuggingPlots := false |}.

Definition catalog : StarObservationCat :=
  {| obs_visit := [30; 5; 20; 10; 99]%Z;
     obs_ccd := [1; 1; 2; 2; 3]%Z;
     obs_ra := [1; 1; 1; 1; 1]%Q;
     obs_dec := [0; 0; 0; 0; 0]%Q;
     obs_instMag := [20.1; 19.5; 21.0; 18.2; 22.4]%Q;
     obs_instMagErr := [0.01; 0.02; 0.03; 0.01; 0.05]%Q;
     obs_x := [0; 0; 0; 0; 0]%Q;
     obs_y := [0; 0; 0; 0; 0]%Q |}.

Definition start : Locals :=
  initialLocals fitCycleObject (pars [])
    {| VISIT := [10; 20; 30]%Z; FILTERNAME := ["g"; "r"; "g"] |}
    catalog [0; 2; 3] [2; 1; 0].

Definition emptyWorld : World := {| butler := ∅; trace := [] |}.

Example scenario_first_cycle_not_converged :
  ∃ st w, loopBody (engine improving) (tractConfig 5) start emptyWorld = (Ok st, w)
          ∧ converged st = false
          ∧ previousReservedRawRepeatability st = [0.0200; 0.0180]%Q.
Proof. eexists. eexists. vm_compute. repeat split. Qed.

Example scenario_converges_after_two_cycles :
  ∃ st w, fitCycles (engine improving) (tractConfig 5) start emptyWorld = (Ok st, w)
          ∧ converged st = true
          ∧ cycleNumber st = 2%Z
          ∧ fitInvocations (trace w) = 3.
Proof. eexists. eexists. vm_compute. repeat split. Qed.

Example scenario_cap_of_five :
  ∃ st w, fitCycles (engine restless) (tractConfig 5) start emptyWorld = (Ok st, w)
          ∧ converged st = false
          ∧ fitInvocations (trace w) = 6
          ∧ List.filter is_warning (trace w) = [log_warn (MaxFitCyclesExceeded 5)].
Proof. eexists. eexists. vm_compute. repeat split. Qed.

(** A band that got slightly worse still passes the signed test. *)
Example worsened_band_counts_as_converged :
  repeatabilityConverged (tractConfig 5) [0.0158; 0.0145]%Q [0.0160; 0.0150]%Q = true.
Proof. reflexivity. Qed.

(** The local variables with which cycle 1 of scenario 4 starts. *)
Definition afterFirstCycle : Locals :=
  match loopBody (engine improving) (tractConfig 5) start emptyWorld with
  | (Ok st, _) => st
  | (Raise _, _) => start
  end.




Lemma missing_preconditions_raise_before_any_fit_witness :
  let E := engine improving in
  let T := {| dataId_tract := λ d, d;
              fgcmMakeVisitCatalog := λ _ _, [];
              fgcmMakeAllStarObservations := λ _ _, catalog;
              fgcmMatchStars := λ _ _ _,
                ({| fgcm_id := []; star_ra := []; star_dec := [];
                    obsArrIndex := []; nObs := [] |},
                 [0; 2; 3],
                 {| ref_fgcm_id := []; refMag := []; refMagErr := [] |});
              translateFgcmLut := λ _ _, ([], [], []);
              translateVisitCatalog := λ _,
                {| VISIT := [10; 20; 30]%Z; FILTERNAME := ["g"; "r"; "g"] |};
              makeConfigDict := λ _ _ _ _, ∅;
              computeCcdOffsets := λ _ _, [];
              asDegrees := λ a, a;
              generateOutputProducts := λ b _ _ _ _, (b, []) |} in
  let config := tractConfig 5 in
  let dataRefs := [9813%Z] in
  let w := emptyWorld in
  (butler w !! "fgcmLookUpTable" = None
   ∨ doReferenceMatches (fgcmBuildStars config) = false)
  ∧ ∃ msg,
      runDataRef E T config dataRefs w = (Raise (RuntimeError msg), w)
      ∧ fitInvocations (trace (runDataRef E T config dataRefs w).2)
        = fitInvocations (trace w)
      ∧ butler (runDataRef E T config dataRefs w).2 = butler w.
Proof.
  cbv zeta.
  assert (butler emptyWorld !! "fgcmLookUpTable" = None
          ∨ doReferenceMatches (fgcmBuildStars (tractConfig 5)) = false) as Hpre
    by (left; reflexivity).
  split; [exact Hpre|].
  exact (missing_preconditions_raise_before_any_fit _ _ _ _ _ Hpre).
Defined.

Lemma indices_fixed_magnitudes_reloaded_witness :
  let E := engine restless in
  let config := tractConfig 5 in
  let st0 := start in
  let w0 := emptyWorld in
  let mags := [20.1; 21.0; 18.2]%Q in
  let errs := [0.01; 0.03; 0.01]%Q in
  cycleNumber st0 = 0%Z
  ∧ np_take (obs_instMag (fgcmStarObservationCat st0)) (obsIndex st0) = Ok mags
  ∧ np_take (obs_instMagErr (fgcmStarObservationCat st0)) (obsIndex st0) = Ok errs
  ∧ ∃ n st evs,
      fitCycles E config st0 w0 = (Ok st, say evs w0)
      ∧ obsIndex st = obsIndex st0
      ∧ visitIndex st = visitIndex st0
      ∧ fgcmStarObservationCat st = fgcmStarObservationCat st0
      ∧ (∀ j stj wj,
           cycles E config j st0 w0 = (Ok stj, wj) →
           obsIndex stj = obsIndex st0
           ∧ visitIndex stj = visitIndex st0
           ∧ fgcmStarObservationCat stj = fgcmStarObservationCat st0)
      ∧ engineCalls evs
        = callsFrom mags errs 0 n ++ cleanupCalls mags errs (Z.of_nat n)
      ∧ List.filter is_star_call evs
        = replicate (Nat.pred n + 1) (call_reloadStarMagnitudes mags errs)
      ∧ List.filter is_star_call (cycleCalls mags errs 0) = []
      ∧ (∀ k, (0 < k)%Z →
           List.filter is_star_call (cycleCalls mags errs k)
           = [call_reloadStarMagnitudes mags errs])
      ∧ List.filter is_star_call (cleanupCalls mags errs (Z.of_nat n))
        = [call_reloadStarMagnitudes mags errs].
Proof.
  cbv zeta. split; [reflexivity|]. split; [reflexivity|]. split; [reflexivity|].
  exact (indices_fixed_magnitudes_reloaded
           (engine restless) (tractConfig 5) start emptyWorld
           [20.1; 21.0; 18.2]%Q [0.01; 0.03; 0.01]%Q
           eq_refl eq_refl eq_refl).
Defined.

Example scenario_reloads_in_cycles_one_to_four_and_cleanup :
  ∃ st w, fitCycles (engine restless) (tractConfig 5) start emptyWorld = (Ok st, w)
          ∧ List.filter is_star_call (trace w)
            = replicate 5 (call_reloadStarMagnitudes
                             [20.1; 21.0; 18.2]%Q [0.01; 0.03; 0.01]%Q).
Proof. eexists. eexists. vm_compute. repeat split. Qed.

End Scenario.

(** *** The run as a whole (lines 224-438) *)

Section WholeRun.

Variable E : Fgcm.
Variable T : Tasks.
Variable config : FgcmCalibrateTractConfig.

(** Lines 238-253: what the build-stars task and the translators return for
    the butler of the world and the data references. *)
Definition visitCatalog (w : World) (dataRefs : list Z) : blob :=
  fgcmMakeVisitCatalog T (butler w) dataRefs.

Definition observations (w : World) (dataRefs : list Z) : StarObservationCat :=
  fgcmMakeAllStarObservations T (butler w) (visitCatalog w dataRefs).

Definition matchedObsIndex (w : World) (dataRefs : list Z) : list nat :=
  (fgcmMatchStars T (butler w) (visitCatalog w dataRefs) (observations w dataRefs)).1.2.

Definition exposures (w : World) (dataRefs : list Z) : ExpInfo :=
  translateVisitCatalog T (visitCatalog w dataRefs).

(** Lines 414-438: the output products and the returned struct. *)
Definition outputProducts (tract : Z) (visitCat : blob) (st : Locals)
  : M World OutStruct :=
  b ← gets butler;
  let '(b', prods) :=
    generateOutputProducts T b tract visitCat (fgcmFitCycle st)
      (superStarSubCcd (fgcmFitCycle_config config)
       || ccdGraySubCcd (fgcmFitCycle_config config)) in
  emit call_generateOutputProducts;;
  modify (λ w, {| butler := b'; trace := trace w |});;
  mret {| products := prods;
          repeatability := compReservedRawRepeatability (fgcmPars (fgcmFitCycle st)) |}.

Lemma runDataRef_checks (w : World) (dataRefs : list Z) :
  is_Some (butler w !! "fgcmLookUpTable") →
  doReferenceMatches (fgcmBuildStars config) = true →
  runDataRef E T config dataRefs w
  = match dataRefs with
    | [] => (Raise IndexError, w)
    | d :: _ =>
        let w1 := say [log_info (RunningOnTract (dataId_tract T d))] w in
        let b := butler w in
        let visitCat := visitCatalog w dataRefs in
        let cat := observations w dataRefs in
        let '(starIdCat, starObsIndex, refCat) :=
          fgcmMatchStars T b visitCat cat in
        match Butler.get b "fgcmLookUpTable" with
        | Raise e => (Raise e, w1)
        | Ok lutCat =>
            let '(lut, lutIndexVals, lutStd) :=
              translateFgcmLut T lutCat (filterMap (fgcmFitCycle_config config)) in
            let expInfo := exposures w dataRefs in
            match Butler.get b "camera" with
            | Raise e => (Raise e, w1)
            | Ok camera =>
                let configDict :=
                  <["doPlots" := PyBool false]>
                    (makeConfigDict T (fgcmFitCycle_config config) camera
                       (maxIterBeforeFinalCycle (fgcmFitCycle_config config))
                       (dataId_tract T d)) in
                let ccdOffsets :=
                  computeCcdOffsets T camera (pixelScale (fgcmFitCycle_config config)) in
                let fc := FgcmFitCycle_new E configDict lutIndexVals lutStd expInfo
                            ccdOffsets in
                match first_ra cat with
                | Raise e => (Raise e, w1)
                | Ok ra0 =>
                    match degreesPerUnit T ra0 with
                    | Raise e => (Raise e, w1)
                    | Ok conv =>
                        let pars := newParsWithArrays E (fgcmConfig fc) lut expInfo in
                        match IndexTranslator.matchObservationsToVisits
                                (VISIT expInfo) (obs_visit cat) starObsIndex with
                        | Raise e => (Raise e, w1)
                        | Ok (obsIdx, visitIdx) =>
                            let stars := FgcmStars_new E (fgcmConfig fc) in
                            match starInputs cat expInfo starIdCat refCat conv
                                    obsIdx visitIdx with
                            | Raise e => (Raise e, w1)
                            | Ok inputs =>
                                let fc := set_fgcmStars (loadStars E pars inputs stars)
                                            (setLUT lut fc) in
                                (st ← fitCycles E config
                                       (initialLocals fc pars expInfo cat obsIdx visitIdx);
                                 outputProducts (dataId_tract T d) visitCat st)
                                  (say [call_loadStars] w1)
                            end
                        end
                    end
                end
            end
        end
    end.
Proof.
  intros Hlut Href. unfold runDataRef.
  unfold mbind at 1, M_bind at 1, gets at 1.
  unfold datasetExists. rewrite (bool_decide_eq_true_2 _ Hlut), Href.
  cbn [negb].
  destruct dataRefs as [|d rest]; [reflexivity|].
  unfold mbind at 1, M_bind at 1, lift at 1.
  unfold mbind at 1, M_bind at 1. rewrite emit_run.
  unfold visitCatalog, observations, exposures. cbv zeta.
  destruct (fgcmMatchStars T (butler w) _ _) as [[starIdCat starObsIndex] refCat].
  unfold mbind at 1, M_bind at 1, lift at 1.
  destruct (Butler.get (butler w) "fgcmLookUpTable") as [lutCat|e]; [|reflexivity].
  destruct (translateFgcmLut T lutCat _) as [[lut lutIndexVals] lutStd].
  unfold mbind at 1, M_bind at 1, lift at 1.
  destruct (Butler.get (butler w) "camera") as [camera|e]; [|reflexivity].
  unfold mbind at 1, M_bind at 1, lift at 1.
  destruct (first_ra _) as [ra0|e]; [|reflexivity].
  unfold mbind at 1, M_bind at 1, lift at 1.
  destruct (degreesPerUnit T ra0) as [conv|e]; [|reflexivity].
  unfold mbind at 1, M_bind at 1, lift at 1.
  destruct (IndexTranslator.matchObservationsToVisits _ _ _) as [[obsIdx visitIdx]|e];
    [|reflexivity].
  unfold mbind at 1, M_bind at 1, lift at 1.
  destruct (starInputs _ _ _ _ _ _ _) as [inputs|e]; [|reflexivity].
  unfold mbind at 1, M_bind at 1. rewrite emit_run, say_say.
  reflexivity.
Qed.

Lemma np_take_raises {A} (col : list A) (idx : list nat) (e : exn) :
  np_take col idx = Raise e → e = IndexError.
Proof.
  induction idx as [|i rest IH]; cbn [np_take]; [intros Hbad; discriminate Hbad|].
  destruct (col !! i) as [x|]; [|by intros [= <-]].
  unfold mbind, result_bind, bind.
  destruct (np_take col rest) as [xs|e']; [intros Hbad; discriminate Hbad|].
  intros [= <-]. by apply IH.
Qed.

Lemma np_take_out_of_range {A} (col : list A) (idx : list nat) (i : nat) :
  i ∈ idx → length col ≤ i → np_take col idx = Raise IndexError.
Proof.
  intros Hin Hlen.
  destruct (np_take col idx) as [sel|e] eqn:Htake;
    [|by rewrite (np_take_raises _ _ _ Htake)].
  exfalso. revert sel Htake. induction idx as [|k rest IH]; intros sel;
    [by apply elem_of_nil in Hin|].
  cbn [np_take]. destruct (col !! k) as [x|] eqn:Hk; [|intros Hbad; discriminate Hbad].
  unfold mbind, result_bind, bind.
  destruct (np_take col rest) as [xs|e] eqn:Hrest; [|intros Hbad; discriminate Hbad].
  intros _. apply elem_of_cons in Hin as [->|Hin].
  - apply lookup_lt_Some in Hk. lia.
  - by apply (IH Hin xs).
Qed.

Lemma np_take_Ok_lookup {A} (col : list A) (idx : list nat) (sel : list A) :
  np_take col idx = Ok sel → ∀ j i, idx !! j = Some i → sel !! j = col !! i.
Proof.
  revert sel. induction idx as [|k idx IH]; intros sel Hsel j i Hj;
    [by rewrite lookup_nil in Hj|].
  cbn [np_take] in Hsel. destruct (col !! k) as [x|] eqn:Hk; [|discriminate Hsel].
  unfold mbind, result_bind, bind in Hsel.
  destruct (np_take col idx) as [xs|] eqn:Hxs; [|discriminate Hsel].
  injection Hsel as <-. destruct j as [|j]; cbn in *.
  - injection Hj as ->. by rewrite Hk.
  - by apply (IH xs).
Qed.

Lemma starInputs_raises (cat : StarObservationCat) (expInfo : ExpInfo)
    (starIdCat : StarIdCat) (refCat : RefCat) (conv : Q) (obsIdx visitIdx : list nat)
    (e : exn) :
  starInputs cat expInfo starIdCat refCat conv obsIdx visitIdx = Raise e →
  e = IndexError.
Proof.
  unfold starInputs, mbind, result_bind, bind.
  repeat match goal with
         | |- context [np_take ?col ?idx] =>
             let H := fresh "Htake" in
             destruct (np_take col idx) eqn:H;
             [|intros [= <-]; by apply np_take_raises in H]
         end.
  intros Hbad; discriminate Hbad.
Qed.






(** X2. With the look-up table present and reference matching on, an empty
    list of data references raises the [IndexError] of [dataRefs[0]] before
    anything is logged, loaded or fitted. *)
Theorem empty_dataRefs_raise_IndexError (w : World) :
  is_Some (butler w !! "fgcmLookUpTable") →
  doReferenceMatches (fgcmBuildStars config) = true →
  runDataRef E T config [] w = (Raise IndexError, w).
Proof. intros Hlut Href. by rewrite runDataRef_checks. Qed.

(** X3. An observation catalog with no row, or one whose first right ascension
    is 0, stops the run at the conversion factor of line 277: [IndexError]
    for the empty catalog, [ZeroDivisionError] for the zero. The tract has
    been logged by then, and nothing else: no star is loaded and no fit is
    made. *)
Theorem unusable_first_coordinate_stops_run
    (d : Z) (rest : list Z) (w : World) :
  let cat := observations w (d :: rest) in
  is_Some (butler w !! "fgcmLookUpTable") →
  is_Some (butler w !! "camera") →
  doReferenceMatches (fgcmBuildStars config) = true →
  (∀ ra0 more, obs_ra cat = ra0 :: more → Qeq_bool ra0 0 = true) →
  runDataRef E T config (d :: rest) w
  = (Raise (if obs_ra cat is [] then IndexError else ZeroDivisionError),
     say [log_info (RunningOnTract (dataId_tract T d))] w).
Proof.
  intros cat [lutCat Hlut] [camera Hcam] Href Hra.
  rewrite runDataRef_checks by (by rewrite ?Hlut).
  cbv zeta. fold cat.
  destruct (fgcmMatchStars T (butler w) _ _) as [[starIdCat starObsIndex] refCat].
  unfold Butler.get. rewrite Hlut, Hcam.
  destruct (translateFgcmLut T lutCat _) as [[lut lutIndexVals] lutStd].
  unfold first_ra. destruct (obs_ra cat) as [|ra0 more]; [reflexivity|].
  unfold degreesPerUnit. by rewrite (Hra ra0 more eq_refl).
Qed.


(** X5. A selected observation whose visit lies beyond the last visit of the
    visit list is not dropped: its position is the length of the list, and
    the run stops with the [IndexError] of [FILTERNAME[visitIndex]] once
    the tract is logged, with no star loaded and no fit made. *)
Theorem observation_beyond_last_visit_stops_run
    (d : Z) (rest : list Z) (w : World) (ra0 : Q) (more : list Q) (i : nat) (v : Z) :
  let dataRefs := d :: rest in
  let cat := observations w dataRefs in
  let obsIdx := matchedObsIndex w dataRefs in
  let expInfo := exposures w dataRefs in
  is_Some (butler w !! "fgcmLookUpTable") →
  is_Some (butler w !! "camera") →
  doReferenceMatches (fgcmBuildStars config) = true →
  obs_ra cat = ra0 :: more →
  Qeq_bool ra0 0 = false →
  StronglySorted Z.lt (VISIT expInfo) →
  length (FILTERNAME expInfo) ≤ length (VISIT expInfo) →
  i ∈ obsIdx →
  obs_visit cat !! i = Some v →
  Forall (λ x, (x < v)%Z) (VISIT expInfo) →
  runDataRef E T config dataRefs w
  = (Raise IndexError, say [log_info (RunningOnTract (dataId_tract T d))] w).
Proof.
  intros dataRefs cat obsIdx expInfo [lutCat Hlut] [camera Hcam] Href
    Hra Hnz Hsorted Hnames Hin Hv Hbeyond.
  subst dataRefs.
  rewrite runDataRef_checks by (by rewrite ?Hlut).
  cbv zeta. fold cat. fold expInfo.
  unfold matchedObsIndex in obsIdx. fold cat in obsIdx.
  destruct (fgcmMatchStars T (butler w) (visitCatalog w (d :: rest)) cat)
    as [[starIdCat starObsIndex] refCat] eqn:Hmatch.
  cbn [fst snd] in obsIdx. subst obsIdx.
  unfold Butler.get. rewrite Hlut, Hcam.
  destruct (translateFgcmLut T lutCat _) as [[lut lutIndexVals] lutStd].
  unfold first_ra. rewrite Hra. unfold degreesPerUnit. rewrite Hnz.
  unfold IndexTranslator.matchObservationsToVisits.
  destruct (np_take (obs_visit cat) starObsIndex) as [selected|e] eqn:Hsel;
    [|by rewrite (np_take_raises _ _ _ Hsel)].
  cbn [mbind result_bind bind].
  destruct (starInputs cat expInfo starIdCat refCat (asDegrees T ra0 / ra0)%Q
              starObsIndex (IndexTranslator.np_searchsorted (VISIT expInfo) selected))
    as [inputs|e] eqn:Hinputs; [|by rewrite (starInputs_raises _ _ _ _ _ _ _ _ Hinputs)].
  exfalso. unfold starInputs, mbind, result_bind, bind in Hinputs.
  rewrite Hsel in Hinputs.
  destruct (np_take (obs_ccd cat) starObsIndex); [|discriminate Hinputs].
  destruct (np_take (obs_ra cat) starObsIndex); [|discriminate Hinputs].
  destruct (np_take (obs_dec cat) starObsIndex); [|discriminate Hinputs].
  destruct (np_take (obs_instMag cat) starObsIndex); [|discriminate Hinputs].
  destruct (np_take (obs_instMagErr cat) starObsIndex); [|discriminate Hinputs].
  rewrite (np_take_out_of_range (FILTERNAME expInfo) _ (length (VISIT expInfo)))
    in Hinputs; [discriminate Hinputs| |exact Hnames].
  apply list_elem_of_lookup_1 in Hin as [j Hj].
  assert (selected !! j = Some v) as Hjv
    by (by rewrite (np_take_Ok_lookup _ _ _ Hsel j i Hj)).
  apply list_elem_of_lookup_2 with j.
  unfold IndexTranslator.np_searchsorted. rewrite list_lookup_fmap, Hjv. cbn.
  f_equal.
  destruct (IndexTranslator.searchsorted_split (VISIT expInfo) v Hsorted)
    as (Hle & _ & Hafter).
  destruct (decide (IndexTranslator.searchsorted (VISIT expInfo) v
                    = length (VISIT expInfo))) as [->|Hne]; [reflexivity|].
  exfalso.
  assert (is_Some (VISIT expInfo !! IndexTranslator.searchsorted (VISIT expInfo) v))
    as [x Hx] by (apply lookup_lt_is_Some; lia).
  pose proof (Hafter _ x (le_n _) Hx) as Hge.
  rewrite Forall_lookup in Hbeyond. pose proof (Hbeyond _ x Hx). lia.
Qed.

End WholeRun.

(** *** What a cycle hands to the next *)

Section CycleFacts.

Variable E : Fgcm.
Variable config : FgcmCalibrateTractConfig.

(** X6. After every pass through the loop body the saved arrays are those of
    the parameters that the fit of this cycle left in the fit-cycle object,
    and the next cycle starts from them: its parameters are loaded from
    these arrays, with the configuration already moved to the new cycle
    number, its star magnitudes are reloaded, and [initialCycle] is off. *)
Theorem parameters_are_handed_to_the_next_cycle
    (st : Locals) (w : World) (mags errs : list Q) :
  (0 ≤ cycleNumber st)%Z →
  np_take (obs_instMag (fgcmStarObservationCat st)) (obsIndex st) = Ok mags →
  np_take (obs_instMagErr (fgcmStarObservationCat st)) (obsIndex st) = Ok errs →
  ∃ st' w',
    loopBody E config st w = (Ok st', w')
    ∧ cycleNumber st' = (cycleNumber st + 1)%Z
    ∧ previousParInfo st' = Some (parsToArrays (fgcmPars (fgcmFitCycle st'))).1
    ∧ previousParams st' = Some (parsToArrays (fgcmPars (fgcmFitCycle st'))).2
    ∧ previousSuperStar st' = Some (parSuperStarFlat (fgcmPars (fgcmFitCycle st')))
    ∧ ∃ fc pars w'',
        prepareCycle E st' w' = (Ok (fc, pars), w'')
        ∧ config_cycleNumber (fgcmConfig fc) = (cycleNumber st + 1)%Z
        ∧ initialCycle fc = false
        ∧ fgcmStars fc
          = reloadStarMagnitudes E mags errs (fgcmStars (fgcmFitCycle st'))
        ∧ pars
          = loadParsWithArrays E (fgcmConfig fc) (fgcmExpInfo st)
              (Some (parsToArrays (fgcmPars (fgcmFitCycle st'))).1)
              (Some (parsToArrays (fgcmPars (fgcmFitCycle st'))).2)
              (Some (parSuperStarFlat (fgcmPars (fgcmFitCycle st')))).
Proof.
  intros Hpos Hm He.
  destruct (loopBody_run E config st w mags errs (λ _, conj Hm He))
    as (evs & Hbody & _).
  set (st' := nextLocals E config st mags errs) in *.
  assert (fgcmPars (fgcmFitCycle st') = fgcmPars (fitted E st mags errs)) as Hpars.
  { subst st'. unfold nextLocals. cbn [fgcmFitCycle].
    by destruct (cycleConverged E config st mags errs). }
  exists st', (say evs w). split; [exact Hbody|].
  split; [reflexivity|]. split; [by rewrite Hpars|].
  split; [by rewrite Hpars|]. split; [by rewrite Hpars|].
  destruct (prepareCycle_run E st' (say evs w) mags errs) as (evs' & Hprep & _).
  { intros _. split; assumption. }
  eexists. eexists. eexists. split; [exact Hprep|].
  assert (bool_decide (0 < cycleNumber st')%Z = true) as Hnext
    by (apply bool_decide_eq_true; subst st'; cbn; lia).
  unfold preparedFitCycle, preparedPars. rewrite Hnext.
  split; [reflexivity|]. split; [reflexivity|]. split; [reflexivity|].
  unfold loadPreviousPars. rewrite Hpars. reflexivity.
Qed.

(** X7. The cuts are touched on the branch that did not converge only. When a
    cycle converges the fit-cycle object is kept as the engine returned it;
    otherwise the two exposure-gray cuts of its configuration are replaced
    by the cuts the engine recommends, the two first-cycle switches are
    turned off, and nothing else of the object changes. *)
Theorem cuts_are_adopted_only_without_convergence
    (st : Locals) (w : World) (mags errs : list Q) :
  converged st = false →
  np_take (obs_instMag (fgcmStarObservationCat st)) (obsIndex st) = Ok mags →
  np_take (obs_instMagErr (fgcmStarObservationCat st)) (obsIndex st) = Ok errs →
  let fc := fitted E st mags errs in
  ∃ st' w',
    loopBody E config st w = (Ok st', w')
    ∧ (converged st' = true → fgcmFitCycle st' = fc)
    ∧ (converged st' = false →
       expGrayPhotometricCut (fgcmConfig (fgcmFitCycle st')) = updatedPhotometricCut fc
       ∧ expGrayHighCut (fgcmConfig (fgcmFitCycle st')) = updatedHighCut fc
       ∧ precomputeSuperStarInitialCycle (fgcmConfig (fgcmFitCycle st')) = false
       ∧ freezeStdAtmosphere (fgcmConfig (fgcmFitCycle st')) = false
       ∧ config_cycleNumber (fgcmConfig (fgcmFitCycle st'))
         = config_cycleNumber (fgcmConfig fc)
       ∧ resetParameters (fgcmConfig (fgcmFitCycle st')) = resetParameters (fgcmConfig fc)
       ∧ maxIter (fgcmConfig (fgcmFitCycle st')) = maxIter (fgcmConfig fc)
       ∧ outputZeropoints (fgcmConfig (fgcmFitCycle st'))
         = outputZeropoints (fgcmConfig fc)
       ∧ outputStandards (fgcmConfig (fgcmFitCycle st'))
         = outputStandards (fgcmConfig fc)
       ∧ doPlots (fgcmConfig (fgcmFitCycle st')) = doPlots (fgcmConfig fc)
       ∧ set_fgcmConfig (fgcmConfig fc) (fgcmFitCycle st') = set_fgcmConfig (fgcmConfig fc) fc).
Proof.
  intros Hflag Hm He fc.
  destruct (loopBody_run E config st w mags errs (λ _, conj Hm He))
    as (evs & Hbody & _).
  exists (nextLocals E config st mags errs), (say evs w).
  split; [exact Hbody|].
  unfold nextLocals. cbn [converged fgcmFitCycle]. fold fc. rewrite Hflag.
  destruct (cycleConverged E config st mags errs).
  - split; [reflexivity|]. intros Hbad; discriminate Hbad.
  - split; [intros Hbad; discriminate Hbad|]. intros _. by repeat split.
Qed.

(** X8. The object handed to the engine for the clean-up fit: zero iterations,
    zeropoints and standards switched on, parameters not reset, the standard
    atmosphere not frozen, plots as [doDebuggingPlots] says, the cycle
    number of the loop's exit, [initialCycle] off, the cuts as the loop left
    them, the star magnitudes reloaded, and the parameters loaded, under
    these settings, from the arrays saved by the last cycle. *)
Theorem cleanup_fit_settings (st : Locals) (w : World) (mags errs : list Q) :
  np_take (obs_instMag (fgcmStarObservationCat st)) (obsIndex st) = Ok mags →
  np_take (obs_instMagErr (fgcmStarObservationCat st)) (obsIndex st) = Ok errs →
  ∃ st' w' fc,
    finalCleanup E config st w = (Ok st', w')
    ∧ fgcmFitCycle st' = run E (finishSetup E fc)
    ∧ maxIter (fgcmConfig fc) = 0%Z
    ∧ outputZeropoints (fgcmConfig fc) = true
    ∧ outputStandards (fgcmConfig fc) = true
    ∧ resetParameters (fgcmConfig fc) = false
    ∧ freezeStdAtmosphere (fgcmConfig fc) = false
    ∧ doPlots (fgcmConfig fc) = doDebuggingPlots config
    ∧ config_cycleNumber (fgcmConfig fc) = cycleNumber st
    ∧ expGrayPhotometricCut (fgcmConfig fc)
      = expGrayPhotometricCut (fgcmConfig (fgcmFitCycle st))
    ∧ expGrayHighCut (fgcmConfig fc) = expGrayHighCut (fgcmConfig (fgcmFitCycle st))
    ∧ precomputeSuperStarInitialCycle (fgcmConfig fc)
      = precomputeSuperStarInitialCycle (fgcmConfig (fgcmFitCycle st))
    ∧ initialCycle fc = false
    ∧ fgcmLut fc = fgcmLut (fgcmFitCycle st)
    ∧ fgcmStars fc = reloadStarMagnitudes E mags errs (fgcmStars (fgcmFitCycle st))
    ∧ fgcmPars fc
      = loadParsWithArrays E (fgcmConfig fc) (fgcmExpInfo st)
          (previousParInfo st) (previousParams st) (previousSuperStar st).
Proof.
  intros Hm He.
  destruct (finalCleanup_run E config st w mags errs Hm He)
    as (st' & evs & Hrun & _ & _ & Hfc & _).
  exists st', (say evs w). eexists. split; [exact Hrun|].
  split; [exact Hfc|]. by repeat split.
Qed.


End CycleFacts.

(** *** The task runner
    [FgcmCalibrateTractRunner.__call__], lines 114-147. *)

(** [TaskRunner.doRaise] and [TaskRunner.doReturnResults]. *)
Record RunnerFlags : Type := {
  doRaise : bool;
  doReturnResults : bool }.

(** What the runner itself does around the task. *)
Inductive RunnerEvent : Type :=
| log_fatal (e : exn)
| print_traceback (e : exn)
| call_writeMetadata.

Record RunnerWorld : Type := {
  taskWorld : World;
  runnerTrace : list RunnerEvent }.

(** [pipeBase.Struct(exitStatus=..., results=...)]; [results] is [None]
    when the struct has no such attribute. *)
Record ExitStruct : Type := {
  exitStatus : Z;
  results : option OutStruct }.

Definition note (ev : RunnerEvent) : M RunnerWorld unit :=
  modify (λ rw, {| taskWorld := taskWorld rw; runnerTrace := runnerTrace rw ++ [ev] |}).

(** A method of the task, run on the task's part of the world. *)
Definition inTask {A} (m : M World A) : M RunnerWorld A :=
  λ rw, let '(r, w') := m (taskWorld rw) in
        (r, {| taskWorld := w'; runnerTrace := runnerTrace rw |}).

Section Runner.

Variable E : Fgcm.
Variable T : Tasks.
Variable config : FgcmCalibrateTractConfig.

(** [isinstance(e, pipeBase.TaskError)] *)
Variable isTaskError : exn → bool.

(** Lines 129-139. The local [results] is bound only when [runDataRef]
    returns: [None] stands for the unbound name. *)
Definition guardedRun (flags : RunnerFlags) (dataRefs : list Z)
  : M RunnerWorld (Z * option OutStruct) :=
  if doRaise flags then
    results ← inTask (runDataRef E T config dataRefs);
    mret (0%Z, Some results)
  else
    λ rw, match inTask (runDataRef E T config dataRefs) rw with
          | (Ok results, rw') => (Ok (0%Z, Some results), rw')
          | (Raise e, rw') =>
              (note (log_fatal e);;
               (if negb (isTaskError e) then note (print_traceback e) else mret tt);;
               mret (1%Z, None)) rw'
          end.

(** The butler of [args] is the butler of the world. *)
Definition __call__ (flags : RunnerFlags) (dataRefs : list Z)
  : M RunnerWorld (list ExitStruct) :=
  '(exitStatus, results) ← guardedRun flags dataRefs;
  note call_writeMetadata;;
  if doReturnResults flags then
    match results with
    | Some r => mret [{| exitStatus := exitStatus; results := Some r |}]
    | None => raise (NameError "results")
    end
  else mret [{| exitStatus := exitStatus; results := None |}].

(** What the runner logs when the task raised [e]. *)
Definition failureReport (e : exn) : list RunnerEvent :=
  log_fatal e :: (if isTaskError e then [] else [print_traceback e]).

Lemma guardedRun_caught (flags : RunnerFlags) (dataRefs : list Z) (rw : RunnerWorld) :
  doRaise flags = false →
  guardedRun flags dataRefs rw
  = match runDataRef E T config dataRefs (taskWorld rw) with
    | (Ok out, w') =>
        (Ok (0%Z, Some out), {| taskWorld := w'; runnerTrace := runnerTrace rw |})
    | (Raise e, w') =>
        (Ok (1%Z, None),
         {| taskWorld := w'; runnerTrace := runnerTrace rw ++ failureReport e |})
    end.
Proof.
  intros Hcatch. unfold guardedRun, inTask, failureReport. rewrite Hcatch.
  destruct (runDataRef E T config dataRefs (taskWorld rw)) as [[out|e] w'];
    [reflexivity|].
  unfold mbind, M_bind, note, modify, mret, M_ret. cbn [taskWorld runnerTrace].
  destruct (isTaskError e); cbn [negb taskWorld runnerTrace]; [reflexivity|].
  by rewrite <- app_assoc.
Qed.

Lemma guardedRun_raising (flags : RunnerFlags) (dataRefs : list Z) (rw : RunnerWorld) :
  doRaise flags = true →
  guardedRun flags dataRefs rw
  = match runDataRef E T config dataRefs (taskWorld rw) with
    | (Ok out, w') =>
        (Ok (0%Z, Some out), {| taskWorld := w'; runnerTrace := runnerTrace rw |})
    | (Raise e, w') =>
        (Raise e, {| taskWorld := w'; runnerTrace := runnerTrace rw |})
    end.
Proof.
  intros Hraise. unfold guardedRun, inTask, mbind, M_bind. rewrite Hraise.
  by destruct (runDataRef E T config dataRefs (taskWorld rw)) as [[out|e] w'].
Qed.

(** X10. When [runDataRef] returns, the runner writes metadata and returns one
    struct with exit status 0. When it raises, the runner raises too in two
    cases: with [doRaise] on, the error is that of [runDataRef] and metadata
    is not written; with [doRaise] off and the results requested, the
    failure is logged, metadata is written, and the error is the
    [NameError] of the local [results], which was never bound. Otherwise
    the failure is logged, metadata is written and the struct returned has
    exit status 1. *)
Theorem runner_raises_with_doRaise_or_unbound_results
    (flags : RunnerFlags) (dataRefs : list Z) (rw : RunnerWorld) :
  match runDataRef E T config dataRefs (taskWorld rw) with
  | (Ok out, w') =>
      __call__ flags dataRefs rw
      = (Ok [{| exitStatus := 0;
                results := if doReturnResults flags then Some out else None |}],
         {| taskWorld := w'; runnerTrace := runnerTrace rw ++ [call_writeMetadata] |})
  | (Raise e, w') =>
      if doRaise flags then
        __call__ flags dataRefs rw
        = (Raise e, {| taskWorld := w'; runnerTrace := runnerTrace rw |})
      else if doReturnResults flags then
        __call__ flags dataRefs rw
        = (Raise (NameError "results"),
           {| taskWorld := w';
              runnerTrace := runnerTrace rw ++ failureReport e ++ [call_writeMetadata] |})
      else
        __call__ flags dataRefs rw
        = (Ok [{| exitStatus := 1; results := None |}],
           {| taskWorld := w';
              runnerTrace := runnerTrace rw ++ failureReport e ++ [call_writeMetadata] |})
  end.
Proof.
  unfold __call__.
  destruct (runDataRef E T config dataRefs (taskWorld rw)) as [[out|e] w'] eqn:Hrun;
    destruct (doRaise flags) eqn:Hraise;
    destruct (doReturnResults flags) eqn:Hresults;
    unfold mbind at 1, M_bind at 1;
    first [rewrite (guardedRun_raising _ _ _ Hraise)
          |rewrite (guardedRun_caught _ _ _ Hraise)];
    rewrite Hrun; try reflexivity;
    unfold mbind, M_bind, note, modify, mret, M_ret;
    cbn [taskWorld runnerTrace]; by rewrite <- app_assoc.
Qed.

End Runner.

(** *** A run on tract 9813 *)

Module Tract9813.
Import Scenario.

(** The tasks that return the observation table [cat], matched through
    the indices [idx], and the three visits of [Scenario.start]. *)
Definition tasks (cat : StarObservationCat) (idx : list nat) : Tasks :=
  {| dataId_tract := λ d, d;
     fgcmMakeVisitCatalog := λ _ _, [];
     fgcmMakeAllStarObservations := λ _ _, cat;
     fgcmMatchStars := λ _ _ _,
       ({| fgcm_id := []; star_ra := []; star_dec := [];
           obsArrIndex := []; nObs := [] |},
        idx,
        {| ref_fgcm_id := []; refMag := []; refMagErr := [] |});
     translateFgcmLut := λ _ _, ([], [], []);
     translateVisitCatalog := λ _,
       {| VISIT := [10; 20; 30]%Z; FILTERNAME := ["g"; "r"; "g"] |};
     makeConfigDict := λ _ _ _ _, ∅;
     computeCcdOffsets := λ _ _, [];
     asDegrees := λ a, (a * 57)%Q;
     generateOutputProducts := λ b tract _ fc _,
       (<["fgcm_photoCalib" :=
            Products tract (compReservedRawRepeatability (fgcmPars fc))]> b, []) |}.

Definition noObservations : StarObservationCat :=
  {| obs_visit := []; obs_ccd := []; obs_ra := []; obs_dec := [];
     obs_instMag := []; obs_instMagErr := []; obs_x := []; obs_y := [] |}.

Definition readyWorld : World :=
  {| butler := {["fgcmLookUpTable" := LookUpTable ∅; "camera" := Camera [0; 1]%Z]};
     trace := [] |}.

Lemma readyWorld_lut : is_Some (butler readyWorld !! "fgcmLookUpTable").
Proof. eexists. vm_compute. reflexivity. Qed.

Lemma readyWorld_camera : is_Some (butler readyWorld !! "camera").
Proof. eexists. vm_compute. reflexivity. Qed.

Lemma empty_dataRefs_raise_IndexError_witness :
  let E := engine improving in
  let T := tasks catalog [0; 2; 3] in
  let config := tractConfig 5 in
  is_Some (butler readyWorld !! "fgcmLookUpTable")
  ∧ doReferenceMatches (fgcmBuildStars config) = true
  ∧ runDataRef E T config [] readyWorld = (Raise IndexError, readyWorld).
Proof.
  cbv zeta. split; [exact readyWorld_lut|]. split; [reflexivity|].
  exact (empty_dataRefs_raise_IndexError (engine improving) (tasks catalog [0; 2; 3])
           (tractConfig 5) readyWorld readyWorld_lut eq_refl).
Defined.

Lemma unusable_first_coordinate_stops_run_witness :
  let E := engine improving in
  let T := tasks noObservations [] in
  let config := tractConfig 5 in
  let cat := observations T readyWorld [9813%Z] in
  (is_Some (butler readyWorld !! "fgcmLookUpTable")
   ∧ is_Some (butler readyWorld !! "camera")
   ∧ doReferenceMatches (fgcmBuildStars config) = true
   ∧ (∀ ra0 more, obs_ra cat = ra0 :: more → Qeq_bool ra0 0 = true))
  ∧ runDataRef E T config [9813%Z] readyWorld
    = (Raise IndexError, say [log_info (RunningOnTract 9813)] readyWorld).
Proof.
  cbv zeta.
  assert (∀ ra0 more,
            obs_ra (observations (tasks noObservations []) readyWorld [9813%Z])
            = ra0 :: more → Qeq_bool ra0 0 = true) as Hra
    by (intros ra0 more Hbad; discriminate Hbad).
  split; [split; [exact readyWorld_lut|split; [exact readyWorld_camera|by split]]|].
  exact (unusable_first_coordinate_stops_run (engine improving)
           (tasks noObservations []) (tractConfig 5) 9813%Z [] readyWorld
           readyWorld_lut readyWorld_camera eq_refl Hra).
Defined.




Lemma observation_beyond_last_visit_stops_run_witness :
  let E := engine improving in
  let T := tasks catalog [0; 4] in
  let config := tractConfig 5 in
  let dataRefs := [9813%Z] in
  let w := readyWorld in
  let cat := observations T w dataRefs in
  let obsIdx := matchedObsIndex T w dataRefs in
  let expInfo := exposures T w dataRefs in
  (is_Some (butler w !! "fgcmLookUpTable")
   ∧ is_Some (butler w !! "camera")
   ∧ doReferenceMatches (fgcmBuildStars config) = true
   ∧ obs_ra cat = 1%Q :: [1; 1; 1; 1]%Q
   ∧ Qeq_bool 1 0 = false
   ∧ StronglySorted Z.lt (VISIT expInfo)
   ∧ length (FILTERNAME expInfo) ≤ length (VISIT expInfo)
   ∧ 4 ∈ obsIdx
   ∧ obs_visit cat !! 4 = Some 99%Z
   ∧ Forall (λ x, (x < 99)%Z) (VISIT expInfo))
  ∧ runDataRef E T config dataRefs w
    = (Raise IndexError, say [log_info (RunningOnTract 9813)] w).
Proof.
  cbv zeta.
  assert (StronglySorted Z.lt [10; 20; 30]%Z) as Hsorted
    by (repeat constructor; lia).
  assert (4 ∈ [0; 4]) as Hin
    by (apply list_elem_of_further, list_elem_of_here).
  assert (Forall (λ x, (x < 99)%Z) [10; 20; 30]%Z) as Hbeyond
    by (repeat constructor; lia).
  assert (length ["g"; "r"; "g"] ≤ length [10; 20; 30]%Z) as Hnames by (cbn; lia).
  split.
  { split; [exact readyWorld_lut|]. split; [exact readyWorld_camera|].
    split; [reflexivity|]. split; [reflexivity|]. split; [reflexivity|].
    split; [exact Hsorted|]. split; [exact Hnames|]. split; [exact Hin|].
    split; [reflexivity|exact Hbeyond]. }
  exact (observation_beyond_last_visit_stops_run (engine improving)
           (tasks catalog [0; 4]) (tractConfig 5) 9813%Z [] readyWorld
           1%Q [1; 1; 1; 1]%Q 4 99%Z readyWorld_lut readyWorld_camera eq_refl
           eq_refl eq_refl Hsorted Hnames Hin eq_refl Hbeyond).
Defined.

Lemma parameters_are_handed_to_the_next_cycle_witness :
  let E := engine improving in
  let config := tractConfig 5 in
  let st := start in
  let mags := [20.1; 21.0; 18.2]%Q in
  let errs := [0.01; 0.03; 0.01]%Q in
  ((0 ≤ cycleNumber st)%Z
   ∧ np_take (obs_instMag (fgcmStarObservationCat st)) (obsIndex st) = Ok mags
   ∧ np_take (obs_instMagErr (fgcmStarObservationCat st)) (obsIndex st) = Ok errs)
  ∧ ∃ st' w',
      loopBody E config st emptyWorld = (Ok st', w')
      ∧ cycleNumber st' = (cycleNumber st + 1)%Z
      ∧ previousParInfo st' = Some (parsToArrays (fgcmPars (fgcmFitCycle st'))).1
      ∧ previousParams st' = Some (parsToArrays (fgcmPars (fgcmFitCycle st'))).2
      ∧ previousSuperStar st' = Some (parSuperStarFlat (fgcmPars (fgcmFitCycle st')))
      ∧ ∃ fc pars w'',
          prepareCycle E st' w' = (Ok (fc, pars), w'')
          ∧ config_cycleNumber (fgcmConfig fc) = (cycleNumber st + 1)%Z
          ∧ initialCycle fc = false
          ∧ fgcmStars fc
            = reloadStarMagnitudes E mags errs (fgcmStars (fgcmFitCycle st'))
          ∧ pars
            = loadParsWithArrays E (fgcmConfig fc) (fgcmExpInfo st)
                (Some (parsToArrays (fgcmPars (fgcmFitCycle st'))).1)
                (Some (parsToArrays (fgcmPars (fgcmFitCycle st'))).2)
                (Some (parSuperStarFlat (fgcmPars (fgcmFitCycle st')))).
Proof.
  cbv zeta.
  assert (0 ≤ cycleNumber start)%Z as Hpos by (cbn; lia).
  split; [split; [exact Hpos|split; reflexivity]|].
  exact (parameters_are_handed_to_the_next_cycle (engine improving) (tractConfig 5)
           start emptyWorld [20.1; 21.0; 18.2]%Q [0.01; 0.03; 0.01]%Q
           Hpos eq_refl eq_refl).
Defined.

Lemma cuts_are_adopted_only_without_convergence_witness :
  let E := engine improving in
  let config := tractConfig 5 in
  let st := start in
  let mags := [20.1; 21.0; 18.2]%Q in
  let errs := [0.01; 0.03; 0.01]%Q in
  (converged st = false
   ∧ np_take (obs_instMag (fgcmStarObservationCat st)) (obsIndex st) = Ok mags
   ∧ np_take (obs_instMagErr (fgcmStarObservationCat st)) (obsIndex st) = Ok errs)
  ∧ ∃ st' w',
      loopBody E config st emptyWorld = (Ok st', w')
      ∧ converged st' = false
      ∧ expGrayPhotometricCut (fgcmConfig (fgcmFitCycle st')) = [-0.03; -0.03]%Q
      ∧ expGrayHighCut (fgcmConfig (fgcmFitCycle st')) = [0.1; 0.1]%Q
      ∧ precomputeSuperStarInitialCycle (fgcmConfig (fgcmFitCycle st')) = false
      ∧ freezeStdAtmosphere (fgcmConfig (fgcmFitCycle st')) = false.
Proof.
  cbv zeta. split; [by repeat split|].
  destruct (cuts_are_adopted_only_without_convergence (engine improving)
              (tractConfig 5) start emptyWorld [20.1; 21.0; 18.2]%Q
              [0.01; 0.03; 0.01]%Q eq_refl eq_refl eq_refl)
    as (st' & w' & Hrun & _ & Hcuts).
  exists st', w'. split; [exact Hrun|].
  assert (converged st' = false) as Hflag.
  { assert (Ok st' = (loopBody (engine improving) (tractConfig 5) start emptyWorld).1)
      as Hst by (by rewrite Hrun).
    vm_compute in Hst. injection Hst as ->. reflexivity. }
  split; [exact Hflag|].
  destruct (Hcuts Hflag) as (H1 & H2 & H3 & H4 & _).
  rewrite H1, H2, H3, H4. by repeat split.
Defined.

Lemma cleanup_fit_settings_witness :
  let E := engine improving in
  let config := tractConfig 5 in
  let st := afterFirstCycle in
  let mags := [20.1; 21.0; 18.2]%Q in
  let errs := [0.01; 0.03; 0.01]%Q in
  (np_take (obs_instMag (fgcmStarObservationCat st)) (obsIndex st) = Ok mags
   ∧ np_take (obs_instMagErr (fgcmStarObservationCat st)) (obsIndex st) = Ok errs)
  ∧ ∃ st' w' fc,
      finalCleanup E config st emptyWorld = (Ok st', w')
      ∧ fgcmFitCycle st' = run E (finishSetup E fc)
      ∧ maxIter (fgcmConfig fc) = 0%Z
      ∧ outputZeropoints (fgcmConfig fc) = true
      ∧ outputStandards (fgcmConfig fc) = true
      ∧ resetParameters (fgcmConfig fc) = false
      ∧ freezeStdAtmosphere (fgcmConfig fc) = false
      ∧ doPlots (fgcmConfig fc) = doDebuggingPlots config
      ∧ config_cycleNumber (fgcmConfig fc) = cycleNumber st
      ∧ expGrayPhotometricCut (fgcmConfig fc)
        = expGrayPhotometricCut (fgcmConfig (fgcmFitCycle st))
      ∧ expGrayHighCut (fgcmConfig fc) = expGrayHighCut (fgcmConfig (fgcmFitCycle st))
      ∧ precomputeSuperStarInitialCycle (fgcmConfig fc)
        = precomputeSuperStarInitialCycle (fgcmConfig (fgcmFitCycle st))
      ∧ initialCycle fc = false
      ∧ fgcmLut fc = fgcmLut (fgcmFitCycle st)
      ∧ fgcmStars fc = reloadStarMagnitudes E mags errs (fgcmStars (fgcmFitCycle st))
      ∧ fgcmPars fc
        = loadParsWithArrays E (fgcmConfig fc) (fgcmExpInfo st)
            (previousParInfo st) (previousParams st) (previousSuperStar st).
Proof.
  cbv zeta. split; [split; reflexivity|].
  exact (cleanup_fit_settings (engine improving) (tractConfig 5) afterFirstCycle
           emptyWorld [20.1; 21.0; 18.2]%Q [0.01; 0.03; 0.01]%Q eq_refl eq_refl).
Defined.


(** The runner on a world without the look-up table: the failure becomes
    exit status 1, or the unbound [results] when results are requested. *)
Example runner_without_the_look_up_table :
  let call flags :=
    __call__ (engine improving) (tasks catalog [0; 2; 3]) (tractConfig 5)
      (λ _, false) flags [9813%Z]
      {| taskWorld := emptyWorld; runnerTrace := [] |} in
  let failure :=
    RuntimeError "Must run FgcmCalibrateTract with an fgcmLookUpTable" in
  (call {| doRaise := false; doReturnResults := false |}).1
  = Ok [{| exitStatus := 1; results := None |}]
  ∧ runnerTrace (call {| doRaise := false; doReturnResults := false |}).2
    = [log_fatal failure; print_traceback failure; call_writeMetadata]
  ∧ (call {| doRaise := false; doReturnResults := true |}).1
    = Raise (NameError "results")
  ∧ (call {| doRaise := true; doReturnResults := true |}).1 = Raise failure.
Proof. cbv zeta. repeat split; vm_compute; reflexivity. Qed.

End Tract9813.

End CalibrateTract.

(** ** The look-up-table builder
    [fgcmMakeLut.py], [FgcmMakeLutTask]. *)

Module MakeLut.
Import Butler.

(** *** Configuration ([FgcmMakeLutConfig], lines 27-147) *)

Record FgcmMakeLutConfig : Type := {
  bands : list string;
  elevation : option Q;
  pmbRange : list Q;
  pmbSteps : Z;
  pwvRange : list Q;
  pwvSteps : Z;
  o3Range : list Q;
  o3Steps : Z;
  tauRange : list Q;
  tauSteps : Z;
  alphaRange : list Q;
  alphaSteps : Z;
  zenithRange : list Q;
  zenithSteps : Z;
  pmbStd : option Q;
  pwvStd : option Q;
  o3Std : option Q;
  tauStd : option Q;
  alphaStd : option Q;
  airmassStd : option Q;
  lambdaNorm : option Q;
  lambdaStep : Q;
  lambdaRange : option (list Q) }.

Definition optFloat (o : option Q) : pyval :=
  match o with Some q => PyFloat q | None => PyNone end.

Definition optFloats (o : option (list Q)) : pyval :=
  match o with Some l => PyFloats l | None => PyNone end.

(** The fields the configuration class declares, by name. *)
Definition configFields (c : FgcmMakeLutConfig) : list (string * pyval) :=
  [ ("bands", PyStrs (bands c));
    ("elevation", optFloat (elevation c));
    ("pmbRange", PyFloats (pmbRange c));
    ("pmbSteps", PyInt (pmbSteps c));
    ("pwvRange", PyFloats (pwvRange c));
    ("pwvSteps", PyInt (pwvSteps c));
    ("o3Range", PyFloats (o3Range c));
    ("o3Steps", PyInt (o3Steps c));
    ("tauRange", PyFloats (tauRange c));
    ("tauSteps", PyInt (tauSteps c));
    ("alphaRange", PyFloats (alphaRange c));
    ("alphaSteps", PyInt (alphaSteps c));
    ("zenithRange", PyFloats (zenithRange c));
    ("zenithSteps", PyInt (zenithSteps c));
    ("pmbStd", optFloat (pmbStd c));
    ("pwvStd", optFloat (pwvStd c));
    ("o3Std", optFloat (o3Std c));
    ("tauStd", optFloat (tauStd c));
    ("alphaStd", optFloat (alphaStd c));
    ("airmassStd", optFloat (airmassStd c));
    ("lambdaNorm", optFloat (lambdaNorm c));
    ("lambdaStep", PyFloat (lambdaStep c));
    ("lambdaRange", optFloats (lambdaRange c)) ].

Fixpoint assoc (name : string) (l : list (string * pyval)) : option pyval :=
  match l with
  | [] => None
  | (k, v) :: rest => if String.eqb name k then Some v else assoc name rest
  end.

(** [self.config.<name>]: a name that is not a declared field has no value. *)
Definition getattr (c : FgcmMakeLutConfig) (name : string) : result pyval :=
  match assoc name (configFields c) with
  | Some v => Ok v
  | None => Raise (AttributeError name)
  end.

(** *** Names in scope inside [_fgcmMakeLut] *)

(** What a name is bound to; only arrays are looked into. *)
Inductive pyobj : Type :=
| Opaque
| Floats (l : list Q)
| Text (s : string).

(** Module level: the imports and definitions of lines 3-25, 27, 149, 193. *)
Definition moduleNames : list string :=
  [ "division"; "absolute_import"; "print_function";
    "sys"; "traceback"; "np"; "lsst"; "pexConfig"; "pipeBase"; "pexExceptions";
    "afwTable"; "DateTime"; "afwGeom"; "butlerExceptions"; "DetectorThroughput";
    "time"; "fgcm"; "__all__";
    "FgcmMakeLutConfig"; "FgcmMakeLutRunner"; "FgcmMakeLutTask" ].

(** The built-in functions and constants. *)
Definition builtinNames : list string :=
  [ "abs"; "all"; "any"; "ascii"; "bin"; "bool"; "bytearray"; "bytes";
    "callable"; "chr"; "classmethod"; "compile"; "complex"; "delattr"; "dict";
    "dir"; "divmod"; "enumerate"; "eval"; "exec"; "filter"; "float"; "format";
    "frozenset"; "getattr"; "globals"; "hasattr"; "hash"; "help"; "hex"; "id";
    "input"; "int"; "isinstance"; "issubclass"; "iter"; "len"; "list"; "locals";
    "map"; "max"; "memoryview"; "min"; "next"; "object"; "oct"; "open"; "ord";
    "pow"; "print"; "property"; "range"; "repr"; "reversed"; "round"; "set";
    "setattr"; "slice"; "sorted"; "staticmethod"; "str"; "sum"; "super";
    "tuple"; "type"; "vars"; "zip"; "__import__";
    "True"; "False"; "None"; "Exception" ].

(** The names bound on entry: globals, built-ins and the two parameters. *)
Definition entryScope : gmap string pyobj :=
  list_to_map ((λ n, (n, Opaque)) <$> (moduleNames ++ builtinNames ++ ["self"; "butler"])).

(** *** The state of a call *)

Record Frame : Type := {
  butler : gmap string dataset;
  writes : list (string * dataset);
  scope : gmap string pyobj;
  lutConfig : gmap string pyval }.

Arguments entryScope : simpl never.

Definition entryFrame (b : gmap string dataset) : Frame :=
  {| butler := b; writes := []; scope := entryScope; lutConfig := ∅ |}.

(** [butler.put(d, name)] *)
Definition butler_put (d : dataset) (name : string) : M Frame unit :=
  modify (λ f, {| butler := put d name (butler f);
                  writes := writes f ++ [(name, d)];
                  scope := scope f;
                  lutConfig := lutConfig f |}).

(** [name = value] *)
Definition assign (name : string) (v : pyobj) : M Frame unit :=
  modify (λ f, {| butler := butler f;
                  writes := writes f;
                  scope := <[name := v]> (scope f);
                  lutConfig := lutConfig f |}).

(** Reading a name. *)
Definition name (n : string) : M Frame pyobj :=
  f ← gets scope;
  match f !! n with
  | Some v => mret v
  | None => raise (NameError n)
  end.

Definition asFloats (v : pyobj) : result (list Q) :=
  match v with
  | Floats l => Ok l
  | _ => Raise (TypeError "array expected")
  end.

(** [lutConfig[key] = value] *)
Definition setitem (key : string) (v : pyval) : M Frame unit :=
  modify (λ f, {| butler := butler f;
                  writes := writes f;
                  scope := scope f;
                  lutConfig := <[key := v]> (lutConfig f) |}).

(** *** The configuration dictionary (lines 260-284) *)

Inductive source : Type :=
| ConfigAttr (attr : string)
| Local (v : pyval).

(** The assignments, in source order: dictionary key and right-hand side. *)
Definition lutConfigItems (nCcd : nat) : list (string * source) :=
  [ ("elevation", ConfigAttr "elevation");
    ("bands", ConfigAttr "bands");
    ("nCCD", Local (PyInt (Z.of_nat nCcd)));
    ("pmbRange", ConfigAttr "pmbRange");
    ("pmbSteps", ConfigAttr "pmbSteps");
    ("pwvRange", ConfigAttr "pwvRange");
    ("pwvSteps", ConfigAttr "pwvSteps");
    ("o3Range", ConfigAttr "o3Range");
    ("o3Steps", ConfigAttr "o3Steps");
    ("tauRange", ConfigAttr "tauRange");
    ("tauSteps", ConfigAttr "tauSteps");
    ("alphaRange", ConfigAttr "alphaRange");
    ("alphaSteps", ConfigAttr "alphaSteps");
    ("zenithRange", ConfigAttr "zenithRange");
    ("zenithSteps", ConfigAttr "zenithSteps");
    ("pmbStd", ConfigAttr "pmbStd");
    ("pwvStd", ConfigAttr "pwvStd");
    ("o3Std", ConfigAttr "p3Std");
    ("tauStd", ConfigAttr "tauStd");
    ("alphaStd", ConfigAttr "alphaStd");
    ("airmassStd", ConfigAttr "airmassStd");
    ("lambdaRange", ConfigAttr "lambdaRange");
    ("lambdaStep", ConfigAttr "lambdaStep");
    ("lambdaNorm", ConfigAttr "lambdaNorm") ].

Fixpoint assignItems (c : FgcmMakeLutConfig) (items : list (string * source))
  : M Frame unit :=
  match items with
  | [] => mret tt
  | (key, src) :: rest =>
      v ← match src with
          | ConfigAttr attr => lift (getattr c attr)
          | Local v => mret v
          end;
      setitem key v;;
      assignItems c rest
  end.

(** *** The external LUT maker and throughput reader *)

#[warnings="-register-all"]
Inductive ndarray : Type :=
| Scalar (x : Q)
| Axis (items : list ndarray).

(** [a.flatten()]: row-major order. *)
Fixpoint flatten (a : ndarray) : list Q :=
  match a with
  | Scalar x => [x]
  | Axis items =>
      (fix go (l : list ndarray) : list Q :=
         match l with
         | [] => []
         | h :: t => flatten h ++ go t
         end) items
  end.

(** [fgcm.FgcmLUTMaker]: the attributes it carries, and the two tables. *)
Record LutMaker : Type := {
  attrs : gmap string (list Q);
  lut : ndarray;
  lutDeriv : ndarray }.

Record Fgcm : Type := {
  FgcmLUTMaker_new : gmap string pyval → LutMaker;
  setThroughputs : list (string * list (list Q)) → LutMaker → LutMaker;
  makeLUT : LutMaker → LutMaker;
  getThroughputDetector : Z → string → list Q → list Q }.

(** [self.fgcmLutMaker.<attr>] *)
Definition makerAttr (m : LutMaker) (attr : string) : result (list Q) :=
  match attrs m !! attr with
  | Some v => Ok v
  | None => Raise (AttributeError attr)
  end.

(** *** The throughput dictionary (lines 292-308) *)

(** [np.arange(start, stop, step)]: [ceil((stop - start) / step)] samples. *)
Definition np_arange (start stop step : Q) : result (list Q) :=
  if Qeq_bool step 0 then Raise ZeroDivisionError
  else
    let n := Z.to_nat (Qceiling ((stop - start) / step)) in
    Ok ((λ k, start + inject_Z (Z.of_nat k) * step)%Q <$> seq 0 n).

(** [self.config.lambdaRange[i]] *)
Definition lambdaRangeAt (c : FgcmMakeLutConfig) (i : nat) : result Q :=
  match lambdaRange c with
  | None => Raise (TypeError "NoneType is not subscriptable")
  | Some l => match l !! i with
              | Some x => Ok x
              | None => Raise IndexError
              end
  end.

(** Lines 304-307, for one band: every detector's throughput. The loop
    variable of the enclosing loop is [b]; the body reads [band] and
    [throughputLambda]. *)
Fixpoint detectorThroughputs (L : Fgcm) (camera : list Z) : M Frame (list (list Q)) :=
  match camera with
  | [] => mret []
  | detector :: rest =>
      assign "ccdIndex" Opaque;;
      assign "detector" Opaque;;
      bandObj ← name "band";
      lamObj ← name "throughputLambda";
      lam ← lift (asFloats lamObj);
      let band := match bandObj with Text s => s | _ => EmptyString end in
      let t := getThroughputDetector L detector band ((λ x, x / 10)%Q <$> lam) in
      ts ← detectorThroughputs L rest;
      mret (t :: ts)
  end.

(** Lines 301-308. *)
Fixpoint throughputLoop (L : Fgcm) (bandList : list string) (camera : list Z)
  : M Frame (list (string * list (list Q))) :=
  match bandList with
  | [] => mret []
  | b :: rest =>
      assign "i" Opaque;;
      assign "b" (Text b);;
      assign "tDict" Opaque;;
      lamObj ← name "throughputLambda";
      lam ← lift (asFloats lamObj);
      ts ← detectorThroughputs L camera;
      ds ← throughputLoop L rest camera;
      mret ((b, lam :: ts) :: ds)
  end.

(** Lines 292-308. *)
Definition computeThroughputs (L : Fgcm) (c : FgcmMakeLutConfig) (camera : list Z)
  : M Frame (list (string * list (list Q))) :=
  lo ← lift (lambdaRangeAt c 0);
  hi ← lift (lambdaRangeAt c 1);
  throughLambda ← lift (np_arange lo hi (lambdaStep c * 10));
  assign "throughLambda" (Floats throughLambda);;
  assign "tput" Opaque;;
  assign "throughputDict" Opaque;;
  throughputLoop L (bands c) camera.

(** *** The record (lines 316-413) *)

(** Lines 322-378: the maker attributes whose sizes shape the schema. *)
Definition sizedBy : list string :=
  ["pmb"; "pwv"; "o3"; "tau"; "alpha"; "zenith"; "bands"; "atmLambda"; "atmStd"].

(** Lines 385-410: record field and the maker attribute copied into it. *)
Definition recordItems : list (string * string) :=
  [ ("pmb", "pmb"); ("pmbfactor", "pmbFactor"); ("pmbElevation", "pmbElevation");
    ("pwv", "pwv"); ("o3", "o3"); ("tau", "tau"); ("lambdanorm", "lambdaNorm");
    ("alpha", "alpha"); ("zenith", "zenith"); ("nccd", "nCCD");
    ("pmbstd", "pmbStd"); ("pwvstd", "pwvStd"); ("o3std", "o3Std");
    ("taustd", "tauStd"); ("alphastd", "alphaStd"); ("zenithstd", "zenithStd");
    ("lambdarange", "lambdaRange"); ("lambdastep", "lambdaStep");
    ("lambdastd", "lambdaStd"); ("i0std", "i0Std"); ("i1std", "i1Std");
    ("i10std", "i10Std"); ("lambdab", "lambdab"); ("atmlambda", "atmlambda");
    ("atmstdtrans", "atmstdtrans") ].

Fixpoint checkSizes (m : LutMaker) (names : list string) : result unit :=
  match names with
  | [] => Ok tt
  | n :: rest => _ ← makerAttr m n; checkSizes m rest
  end.

Fixpoint copyItems (m : LutMaker) (items : list (string * string))
    (rec : gmap string pyval) : result (gmap string pyval) :=
  match items with
  | [] => Ok rec
  | (field, attr) :: rest =>
      v ← makerAttr m attr;
      copyItems m rest (<[field := PyFloats v]> rec)
  end.

Definition bandString (c : FgcmMakeLutConfig) : string :=
  String.concat "," (bands c).

(** Lines 380-413: the one record of the catalog, filled in memory. *)
Definition lutRecord (c : FgcmMakeLutConfig) (m : LutMaker)
  : result (gmap string pyval) :=
  _ ← checkSizes m sizedBy;
  rec ← copyItems m recordItems (<["bands" := PyStr (bandString c)]> ∅);
  Ok (<["lutderiv" := PyFloats (flatten (lutDeriv m))]>
        (<["lut" := PyFloats (flatten (lut m))]> rec)).

(** Lines 316-415. *)
Definition saveLut (c : FgcmMakeLutConfig) (m : LutMaker) : M Frame unit :=
  rec ← lift (lutRecord c m);
  butler_put (LookUpTable rec) "fgcmLookUpTable".

(** *** The method (lines 245-417) *)

Definition detectorsOf (d : dataset) : result (list Z) :=
  match d with
  | Camera detectors => Ok detectors
  | _ => Raise (TypeError "camera expected")
  end.

(** Lines 253-287: the camera, the configuration dictionary, the maker. *)
Definition configureMaker (L : Fgcm) (c : FgcmMakeLutConfig)
  : M Frame (list Z * LutMaker) :=
  b ← gets butler;
  cameraDs ← lift (get b "camera");
  camera ← lift (detectorsOf cameraDs);
  assign "camera" Opaque;;
  let nCcd := length camera in
  assign "nCcd" Opaque;;
  assign "lutConfig" Opaque;;
  assignItems c (lutConfigItems nCcd);;
  config ← gets lutConfig;
  mret (camera, FgcmLUTMaker_new L config).

(** Lines 253-314: everything before the record is written. *)
Definition buildLut (L : Fgcm) (c : FgcmMakeLutConfig) : M Frame LutMaker :=
  '(camera, maker) ← configureMaker L c;
  throughputDict ← computeThroughputs L c camera;
  mret (makeLUT L (setThroughputs L throughputDict maker)).

Definition _fgcmMakeLut (L : Fgcm) (c : FgcmMakeLutConfig) : M Frame unit :=
  b ← gets butler;
  if datasetExists b "fgcmLookUpTable" then mret tt
  else
    maker ← buildLut L c;
    saveLut c maker.

(** [FgcmMakeLutTask.run], lines 240-243. *)
Definition run (L : Fgcm) (c : FgcmMakeLutConfig) : M Frame unit :=
  b ← gets butler;
  if negb (datasetExists b "fgcmLut") then _fgcmMakeLut L c else mret tt.

(** A record is complete when it holds every field of the schema, the two
    tables flattened in full among them. *)
Definition recordFields : list string :=
  "bands" :: (fst <$> recordItems) ++ ["lut"; "lutderiv"].

Definition complete (m : LutMaker) (rec : gmap string pyval) : Prop :=
  (∀ field, field ∈ recordFields → is_Some (rec !! field))
  ∧ rec !! "lut" = Some (PyFloats (flatten (lut m)))
  ∧ rec !! "lutderiv" = Some (PyFloats (flatten (lutDeriv m))).

(** *** Steps that leave the butler alone *)

Definition quiet {A} (m : M Frame A) : Prop :=
  ∀ f, butler (m f).2 = butler f ∧ writes (m f).2 = writes f.

Lemma quiet_ret {A} (a : A) : quiet (mret a).
Proof. by intros f. Qed.

Lemma quiet_bind {A B} (m : M Frame A) (k : A → M Frame B) :
  quiet m → (∀ a, quiet (k a)) → quiet (m ≫= k).
Proof.
  intros Hm Hk f. unfold mbind, M_bind. specialize (Hm f).
  destruct (m f) as [[a|e] f']; simpl in *.
  - destruct (Hk a f') as [H1 H2]. destruct Hm as [H3 H4]. split; congruence.
  - exact Hm.
Qed.

Lemma quiet_lift {A} (r : result A) : quiet (lift r).
Proof. by intros f. Qed.

Lemma quiet_raise {A} (e : exn) : quiet (@raise Frame A e).
Proof. by intros f. Qed.

Lemma quiet_gets {A} (g : Frame → A) : quiet (gets g).
Proof. by intros f. Qed.

Lemma quiet_assign (n : string) (v : pyobj) : quiet (assign n v).
Proof. by intros f. Qed.

Lemma quiet_setitem (key : string) (v : pyval) : quiet (setitem key v).
Proof. by intros f. Qed.

Lemma quiet_name (n : string) : quiet (name n).
Proof.
  unfold name. apply quiet_bind; [apply quiet_gets|].
  intros sc. destruct (sc !! n); [apply quiet_ret|apply quiet_raise].
Qed.

Create HintDb quiet.
#[local] Hint Resolve quiet_ret quiet_lift quiet_raise quiet_gets quiet_assign
  quiet_setitem quiet_name : quiet.

Ltac quiet_steps :=
  repeat first
    [ apply quiet_bind; [solve [auto with quiet]|intros ?]
    | solve [auto with quiet] ].

Lemma quiet_assignItems (c : FgcmMakeLutConfig) (items : list (string * source)) :
  quiet (assignItems c items).
Proof.
  induction items as [|[key src] items IH]; simpl; [apply quiet_ret|].
  apply quiet_bind; [destruct src; auto with quiet|]. intros v.
  apply quiet_bind; [auto with quiet|]. intros _. exact IH.
Qed.

Lemma quiet_detectorThroughputs (L : Fgcm) (camera : list Z) :
  quiet (detectorThroughputs L camera).
Proof.
  induction camera as [|d camera IH]; simpl; [apply quiet_ret|]. quiet_steps.
Qed.

#[local] Hint Resolve quiet_assignItems quiet_detectorThroughputs : quiet.

Lemma quiet_throughputLoop (L : Fgcm) (bandList : list string) (camera : list Z) :
  quiet (throughputLoop L bandList camera).
Proof.
  induction bandList as [|b bandList IH]; simpl; [apply quiet_ret|]. quiet_steps.
Qed.

#[local] Hint Resolve quiet_throughputLoop : quiet.

Lemma quiet_computeThroughputs (L : Fgcm) (c : FgcmMakeLutConfig) (camera : list Z) :
  quiet (computeThroughputs L c camera).
Proof. unfold computeThroughputs. quiet_steps. Qed.

Lemma quiet_configureMaker (L : Fgcm) (c : FgcmMakeLutConfig) :
  quiet (configureMaker L c).
Proof. unfold configureMaker. quiet_steps. Qed.

Lemma quiet_buildLut (L : Fgcm) (c : FgcmMakeLutConfig) : quiet (buildLut L c).
Proof.
  unfold buildLut. apply quiet_bind; [apply quiet_configureMaker|].
  intros [camera maker]. apply quiet_bind; [apply quiet_computeThroughputs|].
  intros d. apply quiet_ret.
Qed.

(** *** The record is whole when it is written *)

Lemma copyItems_fields (m : LutMaker) (items : list (string * string)) :
  ∀ rec0 rec : gmap string pyval,
    copyItems m items rec0 = Ok rec →
    (∀ k, is_Some (rec0 !! k) → is_Some (rec !! k))
    ∧ (∀ field, field ∈ (fst <$> items) → is_Some (rec !! field)).
Proof.
  induction items as [|[field attr] items IH]; intros rec0 rec; simpl.
  - intros [= <-]. split; [auto|]. intros field Hin. by apply elem_of_nil in Hin.
  - destruct (makerAttr m attr) as [v|e]; simpl; [|discriminate].
    intros Hrest. destruct (IH _ _ Hrest) as [Hkeep Hnew]. split.
    + intros k Hk. apply Hkeep. rewrite lookup_insert_is_Some'. by right.
    + intros fld Hin. apply elem_of_cons in Hin as [->|Hin]; [|by apply Hnew].
      apply Hkeep. rewrite lookup_insert_is_Some'. by left.
Qed.

Lemma lutRecord_complete (c : FgcmMakeLutConfig) (m : LutMaker)
    (rec : gmap string pyval) :
  lutRecord c m = Ok rec → complete m rec.
Proof.
  unfold lutRecord, mbind, result_bind, bind.
  destruct (checkSizes m sizedBy) as [[]|e]; [|discriminate].
  destruct (copyItems m recordItems (<["bands" := PyStr (bandString c)]> ∅))
    as [rec1|e] eqn:Hcopy; [|discriminate].
  intros [= <-]. destruct (copyItems_fields _ _ _ _ Hcopy) as [Hkeep Hnew].
  split; [|split].
  - intros field Hin. rewrite !lookup_insert_is_Some'.
    unfold recordFields in Hin. apply elem_of_cons in Hin as [->|Hin].
    + right. right. apply Hkeep. by rewrite lookup_insert_eq.
    + apply elem_of_app in Hin as [Hin|Hin].
      * right. right. by apply Hnew.
      * apply elem_of_cons in Hin as [->|Hin]; [right; by left|].
        apply elem_of_cons in Hin as [->|Hin]; [by left|].
        by apply elem_of_nil in Hin.
  - rewrite lookup_insert_ne by done. by rewrite lookup_insert_eq.
  - by rewrite lookup_insert_eq.
Qed.

Lemma saveLut_run (c : FgcmMakeLutConfig) (m : LutMaker) (f : Frame) :
  (∃ rec,
     lutRecord c m = Ok rec
     ∧ saveLut c m f
       = (Ok tt,
          {| butler := <["fgcmLookUpTable" := LookUpTable rec]> (butler f);
             writes := writes f ++ [("fgcmLookUpTable", LookUpTable rec)];
             scope := scope f;
             lutConfig := lutConfig f |}))
  ∨ (∃ e, lutRecord c m = Raise e ∧ saveLut c m f = (Raise e, f)).
Proof.
  unfold saveLut, mbind, M_bind, lift.
  destruct (lutRecord c m) as [rec|e]; [left|right]; eexists; split; reflexivity.
Qed.

Lemma _fgcmMakeLut_unfold (L : Fgcm) (c : FgcmMakeLutConfig) (f : Frame) :
  _fgcmMakeLut L c f
  = if datasetExists (butler f) "fgcmLookUpTable" then (Ok tt, f)
    else match buildLut L c f with
         | (Ok maker, f1) => saveLut c maker f1
         | (Raise e, f1) => (Raise e, f1)
         end.
Proof.
  unfold _fgcmMakeLut, mbind, M_bind, gets.
  destruct (datasetExists (butler f) "fgcmLookUpTable"); reflexivity.
Qed.

Lemma _fgcmMakeLut_writes (L : Fgcm) (c : FgcmMakeLutConfig) (f : Frame) :
  (writes (_fgcmMakeLut L c f).2 = writes f
   ∧ butler (_fgcmMakeLut L c f).2 = butler f)
  ∨ (∃ m rec,
       (buildLut L c f).1 = Ok m
       ∧ (_fgcmMakeLut L c f).1 = Ok tt
       ∧ writes (_fgcmMakeLut L c f).2
         = writes f ++ [("fgcmLookUpTable", LookUpTable rec)]
       ∧ butler (_fgcmMakeLut L c f).2
         = <["fgcmLookUpTable" := LookUpTable rec]> (butler f)
       ∧ complete m rec).
Proof.
  rewrite _fgcmMakeLut_unfold.
  destruct (datasetExists (butler f) "fgcmLookUpTable");
    [left; split; reflexivity|].
  destruct (quiet_buildLut L c f) as [Hb Hw].
  destruct (buildLut L c f) as [[maker|e] f1]; cbn [fst snd] in *.
  - destruct (saveLut_run c maker f1) as [(rec & Hrec & ->)|(e & _ & ->)].
    + right. exists maker, rec. cbn [fst snd butler writes]. rewrite Hb, Hw.
      split; [reflexivity|].
      split; [reflexivity|]. split; [reflexivity|]. split; [reflexivity|].
      exact (lutRecord_complete c maker rec Hrec).
    + left. split; assumption.
  - left. split; assumption.
Qed.

Lemma _fgcmMakeLut_exists (L : Fgcm) (c : FgcmMakeLutConfig) (f : Frame) :
  is_Some (butler f !! "fgcmLookUpTable") → _fgcmMakeLut L c f = (Ok tt, f).
Proof.
  intros Hex. rewrite _fgcmMakeLut_unfold.
  unfold datasetExists. by rewrite bool_decide_eq_true_2.
Qed.

(** C9. Whatever the butler holds, a call of [_fgcmMakeLut] leaves either
    no write at all and the butler as it was, or exactly one write: the
    look-up-table record, complete with both flattened tables, stored under
    [fgcmLookUpTable]. When the record is already there, nothing is written.
    The steps before the record is stored never touch the butler, and the
    storing step writes the whole record or, when filling it fails, nothing. *)
Theorem lut_written_whole_once_or_not_at_all
    (L : Fgcm) (c : FgcmMakeLutConfig) (b : gmap string dataset) :
  ((writes (_fgcmMakeLut L c (entryFrame b)).2 = []
    ∧ butler (_fgcmMakeLut L c (entryFrame b)).2 = b)
   ∨ (∃ m rec,
        (buildLut L c (entryFrame b)).1 = Ok m
        ∧ (_fgcmMakeLut L c (entryFrame b)).1 = Ok tt
        ∧ writes (_fgcmMakeLut L c (entryFrame b)).2
          = [("fgcmLookUpTable", LookUpTable rec)]
        ∧ butler (_fgcmMakeLut L c (entryFrame b)).2
          = <["fgcmLookUpTable" := LookUpTable rec]> b
        ∧ complete m rec))
  ∧ (is_Some (b !! "fgcmLookUpTable") →
     _fgcmMakeLut L c (entryFrame b) = (Ok tt, entryFrame b))
  ∧ quiet (buildLut L c)
  ∧ (∀ m f,
       (∃ rec,
          complete m rec
          ∧ (saveLut c m f).1 = Ok tt
          ∧ writes (saveLut c m f).2
            = writes f ++ [("fgcmLookUpTable", LookUpTable rec)]
          ∧ butler (saveLut c m f).2
            = <["fgcmLookUpTable" := LookUpTable rec]> (butler f))
       ∨ (∃ e, saveLut c m f = (Raise e, f))).
Proof.
  split; [|split; [|split; [apply quiet_buildLut|]]].
  - exact (_fgcmMakeLut_writes L c (entryFrame b)).
  - exact (_fgcmMakeLut_exists L c (entryFrame b)).
  - intros m f. destruct (saveLut_run c m f) as [(rec & Hrec & ->)|(e & _ & ->)].
    + left. exists rec. split; [exact (lutRecord_complete c m rec Hrec)|].
      split; [reflexivity|]. split; reflexivity.
    + right. by exists e.
Qed.

(** *** The configuration dictionary as the assignments leave it *)

Definition valueOf (c : FgcmMakeLutConfig) (src : source) : result pyval :=
  match src with
  | ConfigAttr attr => getattr c attr
  | Local v => Ok v
  end.

(** The dictionary after the assignments, up to the first that raises. *)
Fixpoint storeItems (c : FgcmMakeLutConfig) (items : list (string * source))
    (d : gmap string pyval) : gmap string pyval :=
  match items with
  | [] => d
  | (key, src) :: rest =>
      match valueOf c src with
      | Ok v => storeItems c rest (<[key := v]> d)
      | Raise _ => d
      end
  end.

Fixpoint itemsOutcome (c : FgcmMakeLutConfig) (items : list (string * source))
  : result unit :=
  match items with
  | [] => Ok tt
  | (_, src) :: rest =>
      match valueOf c src with
      | Ok _ => itemsOutcome c rest
      | Raise e => Raise e
      end
  end.

Definition with_lutConfig (d : gmap string pyval) (f : Frame) : Frame :=
  {| butler := butler f; writes := writes f; scope := scope f; lutConfig := d |}.

Lemma assignItems_run (c : FgcmMakeLutConfig) (items : list (string * source)) :
  ∀ f, assignItems c items f
       = (itemsOutcome c items, with_lutConfig (storeItems c items (lutConfig f)) f).
Proof.
  induction items as [|[key src] items IH]; intros f.
  - destruct f; reflexivity.
  - cbn [assignItems itemsOutcome storeItems]. unfold mbind, M_bind.
    destruct src as [attr|v]; cbn [valueOf]; unfold lift, mret, M_ret.
    + destruct (getattr c attr) as [v|e].
      * unfold setitem, modify. rewrite IH. reflexivity.
      * destruct f; reflexivity.
    + unfold setitem, modify. rewrite IH. reflexivity.
Qed.

Lemma storeItems_other (c : FgcmMakeLutConfig) (items : list (string * source)) :
  ∀ d key, key ∉ (fst <$> items) → storeItems c items d !! key = d !! key.
Proof.
  induction items as [|[k src] items IH]; intros d key Hnot; [reflexivity|].
  cbn [storeItems]. rewrite fmap_cons in Hnot.
  apply not_elem_of_cons in Hnot as [Hne Hnot].
  destruct (valueOf c src); [|reflexivity].
  rewrite IH by assumption. by apply lookup_insert_ne.
Qed.

Lemma storeItems_lookup (c : FgcmMakeLutConfig) (items : list (string * source)) :
  ∀ d key src v,
    NoDup (fst <$> items) →
    itemsOutcome c items = Ok tt →
    (key, src) ∈ items →
    valueOf c src = Ok v →
    storeItems c items d !! key = Some v.
Proof.
  induction items as [|[k s0] items IH]; intros d key src v Hnd Hok Hin Hv.
  - by apply elem_of_nil in Hin.
  - rewrite fmap_cons in Hnd. apply NoDup_cons in Hnd as [Hfresh Hnd].
    cbn [storeItems itemsOutcome] in *.
    destruct (valueOf c s0) as [v0|e] eqn:Hv0; [|discriminate].
    apply elem_of_cons in Hin as [[= -> ->]|Hin].
    + rewrite storeItems_other by assumption.
      rewrite lookup_insert_eq. congruence.
    + eapply IH; eassumption.
Qed.

Lemma storeItems_stops (c : FgcmMakeLutConfig) (l1 l2 : list (string * source))
    (key : string) (src : source) (e : exn) (d : gmap string pyval) :
  itemsOutcome c l1 = Ok tt →
  valueOf c src = Raise e →
  storeItems c (l1 ++ (key, src) :: l2) d = storeItems c l1 d
  ∧ itemsOutcome c (l1 ++ (key, src) :: l2) = Raise e.
Proof.
  revert d. induction l1 as [|[k s0] l1 IH]; intros d Hok Hraise.
  - cbn [app storeItems itemsOutcome]. by rewrite Hraise.
  - cbn [app storeItems itemsOutcome] in *.
    destruct (valueOf c s0); [|discriminate]. by apply IH.
Qed.

(** The assignments of lines 261-277, the ones before [o3Std]. *)
Definition itemsBeforeO3Std (nCcd : nat) : list (string * source) :=
  take 17 (lutConfigItems nCcd).

(** The six axes: range and step count as the configuration holds them. *)
Definition axisEntries (c : FgcmMakeLutConfig) : list (string * pyval) :=
  [ ("pmbRange", PyFloats (pmbRange c)); ("pmbSteps", PyInt (pmbSteps c));
    ("pwvRange", PyFloats (pwvRange c)); ("pwvSteps", PyInt (pwvSteps c));
    ("o3Range", PyFloats (o3Range c)); ("o3Steps", PyInt (o3Steps c));
    ("tauRange", PyFloats (tauRange c)); ("tauSteps", PyInt (tauSteps c));
    ("alphaRange", PyFloats (alphaRange c)); ("alphaSteps", PyInt (alphaSteps c));
    ("zenithRange", PyFloats (zenithRange c)); ("zenithSteps", PyInt (zenithSteps c)) ].

Lemma itemsBeforeO3Std_ok (c : FgcmMakeLutConfig) (nCcd : nat) :
  itemsOutcome c (itemsBeforeO3Std nCcd) = Ok tt.
Proof. reflexivity. Qed.

Lemma lutConfigItems_split (nCcd : nat) :
  lutConfigItems nCcd
  = itemsBeforeO3Std nCcd ++ ("o3Std", ConfigAttr "p3Std") :: drop 18 (lutConfigItems nCcd).
Proof. reflexivity. Qed.

Lemma p3Std_is_no_field (c : FgcmMakeLutConfig) :
  getattr c "p3Std" = Raise (AttributeError "p3Std").
Proof. reflexivity. Qed.

Lemma lutConfigItems_run (c : FgcmMakeLutConfig) (nCcd : nat) (d : gmap string pyval) :
  storeItems c (lutConfigItems nCcd) d = storeItems c (itemsBeforeO3Std nCcd) d
  ∧ itemsOutcome c (lutConfigItems nCcd) = Raise (AttributeError "p3Std").
Proof.
  rewrite lutConfigItems_split.
  apply storeItems_stops; [apply itemsBeforeO3Std_ok|apply p3Std_is_no_field].
Qed.

Lemma axisEntries_stored (c : FgcmMakeLutConfig) (nCcd : nat) (d : gmap string pyval)
    (key : string) (v : pyval) :
  (key, v) ∈ axisEntries c →
  storeItems c (itemsBeforeO3Std nCcd) d !! key = Some v.
Proof.
  intros Hin.
  assert (NoDup (fst <$> itemsBeforeO3Std nCcd)) as Hnd.
  { apply NoDup_ListNoDup. repeat constructor; cbn; intros Hbad;
      repeat (destruct Hbad as [Hbad|Hbad]; [discriminate Hbad|]); exact Hbad. }
  unfold axisEntries in Hin.
  repeat (apply elem_of_cons in Hin as [[= -> ->]|Hin];
          [eapply (storeItems_lookup c _ d _ (ConfigAttr _));
           [exact Hnd
           |apply itemsBeforeO3Std_ok
           |unfold itemsBeforeO3Std, lutConfigItems; cbn [take];
            repeat first [apply list_elem_of_here|apply list_elem_of_further]
           |reflexivity]|]).
  by apply elem_of_nil in Hin.
Qed.

(** *** How far a build gets *)

(** The frame in which the read of [p3Std] raises. *)
Definition frameAtP3Std (c : FgcmMakeLutConfig) (nCcd : nat) (f : Frame) : Frame :=
  {| butler := butler f;
     writes := writes f;
     scope := <["lutConfig" := Opaque]>
                (<["nCcd" := Opaque]> (<["camera" := Opaque]> (scope f)));
     lutConfig := storeItems c (itemsBeforeO3Std nCcd) (lutConfig f) |}.

Lemma configureMaker_run (L : Fgcm) (c : FgcmMakeLutConfig) (f : Frame) :
  configureMaker L c f
  = match butler f !! "camera" with
    | None => (Raise (NoResults "camera"), f)
    | Some (Camera detectors) =>
        (Raise (AttributeError "p3Std"), frameAtP3Std c (length detectors) f)
    | Some _ => (Raise (TypeError "camera expected"), f)
    end.
Proof.
  unfold configureMaker. unfold mbind at 1, M_bind at 1, gets.
  unfold mbind at 1, M_bind at 1, lift, get.
  destruct (butler f !! "camera") as [[detectors|rec|tract payload]|];
    reflexivity.
Qed.

Lemma buildLut_run (L : Fgcm) (c : FgcmMakeLutConfig) (f : Frame) :
  buildLut L c f
  = match butler f !! "camera" with
    | None => (Raise (NoResults "camera"), f)
    | Some (Camera detectors) =>
        (Raise (AttributeError "p3Std"), frameAtP3Std c (length detectors) f)
    | Some _ => (Raise (TypeError "camera expected"), f)
    end.
Proof.
  unfold buildLut. unfold mbind at 1, M_bind at 1. rewrite configureMaker_run.
  destruct (butler f !! "camera") as [[detectors|rec|tract payload]|]; reflexivity.
Qed.

Lemma _fgcmMakeLut_run (L : Fgcm) (c : FgcmMakeLutConfig) (f : Frame) :
  _fgcmMakeLut L c f
  = if datasetExists (butler f) "fgcmLookUpTable" then (Ok tt, f)
    else match butler f !! "camera" with
         | None => (Raise (NoResults "camera"), f)
         | Some (Camera detectors) =>
             (Raise (AttributeError "p3Std"), frameAtP3Std c (length detectors) f)
         | Some _ => (Raise (TypeError "camera expected"), f)
         end.
Proof.
  rewrite _fgcmMakeLut_unfold, buildLut_run.
  destruct (datasetExists (butler f) "fgcmLookUpTable"); [reflexivity|].
  destruct (butler f !! "camera") as [[detectors|rec|tract payload]|]; reflexivity.
Qed.

Lemma datasetExists_None (b : gmap string dataset) (n : string) :
  b !! n = None → datasetExists b n = false.
Proof.
  intros H. unfold datasetExists. rewrite H. apply bool_decide_eq_false_2.
  by intros [? ?].
Qed.

(** C6, as the code has it. The builder neither builds nor checks an axis:
    the assignments of lines 261-277 raise nothing and store every range and
    step count in the configuration dictionary exactly as configured,
    whatever their values; the dictionary still holds them when the build
    stops; and no call of [_fgcmMakeLut] ends in a [ConfigurationError]. *)
Theorem axis_triples_stored_unchecked
    (L : Fgcm) (c : FgcmMakeLutConfig) (b : gmap string dataset) :
  (∀ f nCcd,
     (assignItems c (itemsBeforeO3Std nCcd) f).1 = Ok tt
     ∧ ∀ key v, (key, v) ∈ axisEntries c →
                lutConfig (assignItems c (itemsBeforeO3Std nCcd) f).2 !! key = Some v)
  ∧ (∀ detectors key v,
       b !! "fgcmLookUpTable" = None →
       b !! "camera" = Some (Camera detectors) →
       (key, v) ∈ axisEntries c →
       lutConfig (_fgcmMakeLut L c (entryFrame b)).2 !! key = Some v)
  ∧ (∀ msg, (_fgcmMakeLut L c (entryFrame b)).1 ≠ Raise (ConfigurationError msg)).
Proof.
  split; [|split].
  - intros f nCcd. rewrite assignItems_run. cbn [fst snd].
    split; [apply itemsBeforeO3Std_ok|].
    intros key v Hin. unfold with_lutConfig. cbn [lutConfig].
    by apply axisEntries_stored.
  - intros detectors key v Hlut Hcam Hin. rewrite _fgcmMakeLut_run.
    cbn [entryFrame butler]. rewrite (datasetExists_None _ _ Hlut), Hcam.
    cbn [snd frameAtP3Std lutConfig]. by apply axisEntries_stored.
  - intros msg. rewrite _fgcmMakeLut_run.
    destruct (datasetExists _ _); [discriminate|].
    destruct (butler (entryFrame b) !! "camera") as [[detectors|rec|tract payload]|];
      discriminate.
Qed.

(** C10. When the look-up-table record is not in the butler, [_fgcmMakeLut]
    raises and has written nothing. With a camera in the butler the error is
    the [AttributeError] for [p3Std], which is no field of the configuration
    although [o3Std] is; the names [throughputLambda] and [band] are bound
    neither on entry nor where the build stops, and the throughput loop, run
    from any frame that lacks them, raises the [NameError] on its first
    pass. *)
Theorem lut_build_raises_before_any_put
    (L : Fgcm) (c : FgcmMakeLutConfig) (b : gmap string dataset) :
  b !! "fgcmLookUpTable" = None →
  ∃ e f',
    _fgcmMakeLut L c (entryFrame b) = (Raise e, f')
    ∧ butler f' = b
    ∧ writes f' = []
    ∧ (∀ detectors, b !! "camera" = Some (Camera detectors) →
                    e = AttributeError "p3Std")
    ∧ getattr c "p3Std" = Raise (AttributeError "p3Std")
    ∧ getattr c "o3Std" = Ok (optFloat (o3Std c))
    ∧ entryScope !! "throughputLambda" = None
    ∧ entryScope !! "band" = None
    ∧ scope f' !! "throughputLambda" = None
    ∧ scope f' !! "band" = None
    ∧ (∀ f camera b0 rest,
         scope f !! "throughputLambda" = None →
         ∃ f'', throughputLoop L (b0 :: rest) camera f
                = (Raise (NameError "throughputLambda"), f''))
    ∧ (∀ f camera lo hi more b0 rest,
         scope f !! "throughputLambda" = None →
         lambdaRange c = Some (lo :: hi :: more) →
         Qeq_bool (lambdaStep c * 10) 0 = false →
         bands c = b0 :: rest →
         ∃ f'', computeThroughputs L c camera f
                = (Raise (NameError "throughputLambda"), f''))
    ∧ (∀ f detector rest,
         scope f !! "band" = None →
         ∃ f'', detectorThroughputs L (detector :: rest) f
                = (Raise (NameError "band"), f'')).
Proof.
  intros Hlut.
  assert (entryScope !! "throughputLambda" = None) as Hlam by (vm_compute; reflexivity).
  assert (entryScope !! "band" = None) as Hband by (vm_compute; reflexivity).
  assert (∀ f camera b0 rest,
            scope f !! "throughputLambda" = None →
            ∃ f'', throughputLoop L (b0 :: rest) camera f
                   = (Raise (NameError "throughputLambda"), f'')) as Hloop.
  { intros f camera b0 rest Hnone. eexists.
    cbn [throughputLoop]. cbv [mbind M_bind assign modify name gets].
    cbn [scope]. rewrite !lookup_insert_ne by done. rewrite Hnone. reflexivity. }
  rewrite _fgcmMakeLut_run. cbn [entryFrame butler].
  rewrite (datasetExists_None _ _ Hlut).
  assert (∀ f : Frame, ∃ e f',
            match b !! "camera" with
            | None => (Raise (NoResults "camera"), f)
            | Some (Camera detectors) =>
                (Raise (AttributeError "p3Std"), frameAtP3Std c (length detectors) f)
            | Some _ => (Raise (TypeError "camera expected"), f)
            end = (@Raise unit e, f')
            ∧ butler f' = butler f ∧ writes f' = writes f
            ∧ (∀ detectors, b !! "camera" = Some (Camera detectors) →
                            e = AttributeError "p3Std")
            ∧ (∀ n, n ≠ "lutConfig" → n ≠ "nCcd" → n ≠ "camera" →
                    scope f' !! n = scope f !! n)) as Hcases.
  { intros f. destruct (b !! "camera") as [[detectors|rec|tract payload]|];
      eexists; eexists; (split; [reflexivity|]);
      (split; [reflexivity|]); (split; [reflexivity|]); split;
      try (intros ? [=]); try reflexivity; try (intros; reflexivity).
    intros n H1 H2 H3. cbn [frameAtP3Std scope].
    rewrite !lookup_insert_ne by done. reflexivity. }
  destruct (Hcases (entryFrame b)) as (e & f' & Hrun & Hb & Hw & Herr & Hscope).
  exists e, f'. split; [exact Hrun|]. split; [exact Hb|]. split; [exact Hw|].
  split; [exact Herr|]. split; [reflexivity|]. split; [reflexivity|].
  split; [exact Hlam|]. split; [exact Hband|].
  split; [rewrite Hscope by done; exact Hlam|].
  split; [rewrite Hscope by done; exact Hband|].
  split; [exact Hloop|]. split.
  - intros f camera lo hi more b0 rest Hnone Hrange Hstep Hbands.
    unfold computeThroughputs, lambdaRangeAt. rewrite Hrange, Hbands.
    unfold mbind at 1, M_bind at 1, lift. cbn [lookup list_lookup].
    unfold mbind at 1, M_bind at 1.
    unfold np_arange. rewrite Hstep.
    unfold mbind at 1, M_bind at 1.
    unfold mbind at 1, M_bind at 1, assign, modify.
    unfold mbind at 1, M_bind at 1.
    unfold mbind at 1, M_bind at 1.
    apply Hloop. cbn [scope]. rewrite !lookup_insert_ne by done. exact Hnone.
  - intros f detector rest Hnone. eexists.
    cbn [detectorThroughputs]. cbv [mbind M_bind assign modify name gets].
    cbn [scope]. rewrite !lookup_insert_ne by done. rewrite Hnone. reflexivity.
Qed.

(** *** A build on sample configurations *)

Module Sample.

(** The defaults of the configuration class, with the fields that have none
    filled in. *)
Definition defaults : FgcmMakeLutConfig :=
  {| bands := ["g"; "r"; "i"];
     elevation := Some 4139%Q;
     pmbRange := [770; 790]%Q;
     pmbSteps := 5;
     pwvRange := [0.1; 12]%Q;
     pwvSteps := 21;
     o3Range := [220; 310]%Q;
     o3Steps := 3;
     tauRange := [0.002; 0.25]%Q;
     tauSteps := 11;
     alphaRange := [0; 2]%Q;
     alphaSteps := 9;
     zenithRange := [0; 70]%Q;
     zenithSteps := 21;
     pmbStd := Some 778%Q;
     pwvStd := Some 3%Q;
     o3Std := Some 263%Q;
     tauStd := Some 0.03%Q;
     alphaStd := Some 1%Q;
     airmassStd := Some 1.1%Q;
     lambdaNorm := Some 7750%Q;
     lambdaStep := 0.5;
     lambdaRange := Some [3000; 11000]%Q |}.

(** As [defaults], with a pressure axis of no steps whose range runs
    backwards. *)
Definition backwardsAxis : FgcmMakeLutConfig :=
  {| bands := bands defaults;
     elevation := elevation defaults;
     pmbRange := [790; 770]%Q;
     pmbSteps := 0;
     pwvRange := pwvRange defaults;
     pwvSteps := pwvSteps defaults;
     o3Range := o3Range defaults;
     o3Steps := o3Steps defaults;
     tauRange := tauRange defaults;
     tauSteps := tauSteps defaults;
     alphaRange := alphaRange defaults;
     alphaSteps := alphaSteps defaults;
     zenithRange := zenithRange defaults;
     zenithSteps := zenithSteps defaults;
     pmbStd := pmbStd defaults;
     pwvStd := pwvStd defaults;
     o3Std := o3Std defaults;
     tauStd := tauStd defaults;
     alphaStd := alphaStd defaults;
     airmassStd := airmassStd defaults;
     lambdaNorm := lambdaNorm defaults;
     lambdaStep := lambdaStep defaults;
     lambdaRange := lambdaRange defaults |}.

Definition maker : LutMaker :=
  {| attrs := ∅; lut := Axis []; lutDeriv := Axis [] |}.

Definition engine : Fgcm :=
  {| FgcmLUTMaker_new := λ _, maker;
     setThroughputs := λ _ m, m;
     makeLUT := λ m, m;
     getThroughputDetector := λ _ _ lam, lam |}.

Definition cameraOnly : gmap string dataset := {["camera" := Camera [0; 1; 2]%Z]}.

(** A pressure axis with no steps and a backwards range is stored as it is;
    the build then stops at [p3Std], as it does for every configuration, and
    not with a [ConfigurationError]. *)
Lemma backwards_axis_is_not_rejected :
  (pmbSteps backwardsAxis < 1)%Z
  ∧ pmbRange backwardsAxis = [790; 770]%Q
  ∧ (assignItems backwardsAxis (itemsBeforeO3Std 3) (entryFrame cameraOnly)).1 = Ok tt
  ∧ lutConfig (assignItems backwardsAxis (itemsBeforeO3Std 3) (entryFrame cameraOnly)).2
      !! "pmbSteps" = Some (PyInt 0)
  ∧ lutConfig (assignItems backwardsAxis (itemsBeforeO3Std 3) (entryFrame cameraOnly)).2
      !! "pmbRange" = Some (PyFloats [790; 770]%Q)
  ∧ (_fgcmMakeLut engine backwardsAxis (entryFrame cameraOnly)).1
    = Raise (AttributeError "p3Std")
  ∧ (_fgcmMakeLut engine defaults (entryFrame cameraOnly)).1
    = Raise (AttributeError "p3Std")
  ∧ ∀ msg, (_fgcmMakeLut engine backwardsAxis (entryFrame cameraOnly)).1
           ≠ Raise (ConfigurationError msg).
Proof.
  split; [reflexivity|]. split; [reflexivity|].
  split; [vm_compute; reflexivity|].
  split; [vm_compute; reflexivity|].
  split; [vm_compute; reflexivity|].
  assert (∀ c, (_fgcmMakeLut engine c (entryFrame cameraOnly)).1
               = Raise (AttributeError "p3Std")) as Hstop.
  { intros c. rewrite _fgcmMakeLut_run. reflexivity. }
  split; [apply Hstop|]. split; [apply Hstop|].
  intros msg. rewrite Hstop. discriminate.
Qed.

Lemma lut_build_raises_before_any_put_witness :
  let L := engine in
  let c := defaults in
  let b := cameraOnly in
  b !! "fgcmLookUpTable" = None
  ∧ ∃ e f',
      _fgcmMakeLut L c (entryFrame b) = (Raise e, f')
      ∧ butler f' = b
      ∧ writes f' = []
      ∧ (∀ detectors, b !! "camera" = Some (Camera detectors) →
                      e = AttributeError "p3Std")
      ∧ getattr c "p3Std" = Raise (AttributeError "p3Std")
      ∧ getattr c "o3Std" = Ok (optFloat (o3Std c))
      ∧ entryScope !! "throughputLambda" = None
      ∧ entryScope !! "band" = None
      ∧ scope f' !! "throughputLambda" = None
      ∧ scope f' !! "band" = None
      ∧ (∀ f camera b0 rest,
           scope f !! "throughputLambda" = None →
           ∃ f'', throughputLoop L (b0 :: rest) camera f
                  = (Raise (NameError "throughputLambda"), f''))
      ∧ (∀ f camera lo hi more b0 rest,
           scope f !! "throughputLambda" = None →
           lambdaRange c = Some (lo :: hi :: more) →
           Qeq_bool (lambdaStep c * 10) 0 = false →
           bands c = b0 :: rest →
           ∃ f'', computeThroughputs L c camera f
                  = (Raise (NameError "throughputLambda"), f''))
      ∧ (∀ f detector rest,
           scope f !! "band" = None →
           ∃ f'', detectorThroughputs L (detector :: rest) f
                  = (Raise (NameError "band"), f'')).
Proof.
  cbv zeta.
  assert (cameraOnly !! "fgcmLookUpTable" = None) as Hlut by (vm_compute; reflexivity).
  split; [exact Hlut|].
  exact (lut_build_raises_before_any_put engine defaults cameraOnly Hlut).
Defined.

(** With the names in scope the throughput loop goes through: the slip of
    the names, not the loop, is what stops it. *)
Example throughput_loop_runs_once_names_are_bound :
  ∃ f', throughputLoop engine ["g"] [0%Z]
          {| butler := cameraOnly; writes := [];
             scope := {["throughputLambda" := Floats [3000; 3005]%Q;
                        "band" := Text "g"]};
             lutConfig := ∅ |}
        = (Ok [("g", [[3000; 3005]; [3000 / 10; 3005 / 10]]%Q)], f').
Proof. eexists. vm_compute. reflexivity. Qed.

End Sample.

(** *** The entry point and the runner
    [FgcmMakeLutTask.run] (lines 227-243) and [FgcmMakeLutRunner.__call__]
    (lines 161-175). *)

Lemma run_unfold (L : Fgcm) (c : FgcmMakeLutConfig) (f : Frame) :
  run L c f
  = if datasetExists (butler f) "fgcmLut" then (Ok tt, f) else _fgcmMakeLut L c f.
Proof.
  unfold run, mbind, M_bind, gets.
  by destruct (datasetExists (butler f) "fgcmLut").
Qed.

Lemma run_outcome
    (L : Fgcm) (c : FgcmMakeLutConfig) (b : gmap string dataset) :
  (is_Some (b !! "fgcmLut") ∨ is_Some (b !! "fgcmLookUpTable") →
   run L c (entryFrame b) = (Ok tt, entryFrame b))
  ∧ (b !! "fgcmLut" = None → b !! "fgcmLookUpTable" = None →
     ∃ e, (run L c (entryFrame b)).1 = Raise e)
  ∧ butler (run L c (entryFrame b)).2 = b
  ∧ writes (run L c (entryFrame b)).2 = [].
Proof.
  assert (butler (_fgcmMakeLut L c (entryFrame b)).2 = b
          ∧ writes (_fgcmMakeLut L c (entryFrame b)).2 = []) as [Hb Hw].
  { rewrite _fgcmMakeLut_run.
    destruct (datasetExists _ _); [by split|].
    destruct (butler (entryFrame b) !! "camera") as [[detectors|rec|tract payload]|];
      by split. }
  split; [|split; [|split]].
  - intros Hex. rewrite run_unfold. cbn [entryFrame butler].
    destruct (datasetExists b "fgcmLut") eqn:Hlut; [reflexivity|].
    destruct Hex as [Hex|Hex].
    + unfold datasetExists in Hlut. by rewrite (bool_decide_eq_true_2 _ Hex) in Hlut.
    + by apply _fgcmMakeLut_exists.
  - intros Hlut Htable. rewrite run_unfold. cbn [entryFrame butler].
    rewrite (datasetExists_None _ _ Hlut), _fgcmMakeLut_run. cbn [entryFrame butler].
    rewrite (datasetExists_None _ _ Htable).
    destruct (b !! "camera") as [[detectors|rec|tract payload]|]; by eexists.
  - rewrite run_unfold. by destruct (datasetExists _ _).
  - rewrite run_unfold. by destruct (datasetExists _ _).
Qed.

(** X11. [run] looks for [fgcmLut], the builder for [fgcmLookUpTable]: with
    either dataset in the butler the call returns at once and leaves the
    frame as it is; with neither it raises. In no case is anything written. *)
Theorem run_returns_only_when_a_table_exists
    (L : Fgcm) (c : FgcmMakeLutConfig) (b : gmap string dataset) :
  (is_Some (b !! "fgcmLut") ∨ is_Some (b !! "fgcmLookUpTable") →
   run L c (entryFrame b) = (Ok tt, entryFrame b))
  ∧ (b !! "fgcmLut" = None → b !! "fgcmLookUpTable" = None →
     ∃ e, (run L c (entryFrame b)).1 = Raise e)
  ∧ butler (run L c (entryFrame b)).2 = b
  ∧ writes (run L c (entryFrame b)).2 = [].
Proof. apply run_outcome. Qed.

(** [TaskRunner.doRaise] and [TaskRunner.doReturnResults]. *)
Record RunnerFlags : Type := {
  doRaise : bool;
  doReturnResults : bool }.

(** What the runner itself does around the task. *)
Inductive RunnerEvent : Type :=
| log_fatal (e : exn)
| print_traceback (e : exn)
| call_writeMetadata.

Record RunnerWorld : Type := {
  runnerButler : gmap string dataset;
  runnerWrites : list (string * dataset);
  runnerTrace : list RunnerEvent }.

Definition note (ev : RunnerEvent) : M RunnerWorld unit :=
  modify (λ rw, {| runnerButler := runnerButler rw;
                   runnerWrites := runnerWrites rw;
                   runnerTrace := runnerTrace rw ++ [ev] |}).

Section Runner.

Variable L : Fgcm.
Variable c : FgcmMakeLutConfig.

(** [isinstance(e, pipeBase.TaskError)] *)
Variable isTaskError : exn → bool.

(** [task.run(butler)]: a call of the method on the runner's butler. *)
Definition runTask : M RunnerWorld unit :=
  λ rw, let '(r, f) := run L c (entryFrame (runnerButler rw)) in
        (r, {| runnerButler := butler f;
               runnerWrites := runnerWrites rw ++ writes f;
               runnerTrace := runnerTrace rw |}).

(** Lines 163-171. The local [results] is bound, to the [None] that [run]
    returns, only when [run] returns: [false] stands for the unbound name. *)
Definition guardedRun (flags : RunnerFlags) : M RunnerWorld bool :=
  if doRaise flags then runTask;; mret true
  else
    λ rw, match runTask rw with
          | (Ok _, rw') => (Ok true, rw')
          | (Raise e, rw') =>
              (note (log_fatal e);;
               (if negb (isTaskError e) then note (print_traceback e) else mret tt);;
               mret false) rw'
          end.

(** The value returned is [None] in every case. *)
Definition __call__ (flags : RunnerFlags) : M RunnerWorld unit :=
  bound ← guardedRun flags;
  note call_writeMetadata;;
  if doReturnResults flags then
    if bound : bool then mret tt else raise (NameError "results")
  else mret tt.

(** What the runner logs when the task raised [e]. *)
Definition failureReport (e : exn) : list RunnerEvent :=
  log_fatal e :: (if isTaskError e then [] else [print_traceback e]).

Lemma runTask_run (rw : RunnerWorld) :
  ∃ r, runTask rw = (r, rw)
       ∧ (is_ok r = true
          ↔ is_Some (runnerButler rw !! "fgcmLut")
            ∨ is_Some (runnerButler rw !! "fgcmLookUpTable")).
Proof.
  destruct (run_outcome L c (runnerButler rw))
    as (Hex & Hnone & Hb & Hw).
  unfold runTask.
  destruct (run L c (entryFrame (runnerButler rw))) as [r f] eqn:Hrun.
  cbn [fst snd] in *. exists r. split.
  - rewrite Hb, Hw, app_nil_r. by destruct rw.
  - split.
    + intros Hok.
      destruct (runnerButler rw !! "fgcmLut") as [d|] eqn:Hlut; [left; by eexists|].
      destruct (runnerButler rw !! "fgcmLookUpTable") as [d|] eqn:Htable;
        [right; by eexists|].
      destruct (Hnone eq_refl eq_refl) as [e ->]. discriminate Hok.
    + intros Hsome. specialize (Hex Hsome). by injection Hex as ->.
Qed.

(** X12. The runner never changes the butler. It returns when one of the two
    table datasets exists, writing metadata and logging no failure. When
    neither exists the build raises: with [doRaise] on the runner raises the
    same error before metadata is written; with [doRaise] off it logs the
    failure and writes metadata, and then returns, unless the results are
    requested, in which case it raises the [NameError] of the local
    [results], which was never bound. *)
Theorem lut_runner_outcome (flags : RunnerFlags) (rw : RunnerWorld) :
  let tables := is_Some (runnerButler rw !! "fgcmLut")
                ∨ is_Some (runnerButler rw !! "fgcmLookUpTable") in
  runnerButler (__call__ flags rw).2 = runnerButler rw
  ∧ runnerWrites (__call__ flags rw).2 = runnerWrites rw
  ∧ (tables →
     __call__ flags rw
     = (Ok tt, {| runnerButler := runnerButler rw;
                  runnerWrites := runnerWrites rw;
                  runnerTrace := runnerTrace rw ++ [call_writeMetadata] |}))
  ∧ (¬ tables →
     ∃ e,
       (run L c (entryFrame (runnerButler rw))).1 = Raise e
       ∧ __call__ flags rw
         = if doRaise flags then (Raise e, rw)
           else (if doReturnResults flags then Raise (NameError "results") else Ok tt,
                 {| runnerButler := runnerButler rw;
                    runnerWrites := runnerWrites rw;
                    runnerTrace := runnerTrace rw ++ failureReport e
                                   ++ [call_writeMetadata] |})).
Proof.
  cbv zeta.
  destruct (runTask_run rw) as (r & Hrun & Hok).
  assert ((run L c (entryFrame (runnerButler rw))).1 = r) as Hr.
  { unfold runTask in Hrun.
    destruct (run L c (entryFrame (runnerButler rw))) as [r' f].
    by injection Hrun as ->. }
  assert (∀ e, r = Raise e →
            __call__ flags rw
            = if doRaise flags then (Raise e, rw)
              else (if doReturnResults flags then Raise (NameError "results") else Ok tt,
                    {| runnerButler := runnerButler rw;
                       runnerWrites := runnerWrites rw;
                       runnerTrace := runnerTrace rw ++ failureReport e
                                      ++ [call_writeMetadata] |})) as Hfail.
  { intros e ->. unfold __call__, guardedRun, failureReport.
    unfold mbind at 1, M_bind at 1.
    destruct (doRaise flags).
    - unfold mbind at 1, M_bind at 1. by rewrite Hrun.
    - rewrite Hrun. unfold mbind, M_bind, note, modify, mret, M_ret, raise.
      cbn [runnerButler runnerWrites runnerTrace].
      destruct (isTaskError e), (doReturnResults flags);
        cbn [negb runnerButler runnerWrites runnerTrace];
        by rewrite <- ?app_assoc. }
  assert (r = Ok tt →
          __call__ flags rw
          = (Ok tt, {| runnerButler := runnerButler rw;
                       runnerWrites := runnerWrites rw;
                       runnerTrace := runnerTrace rw ++ [call_writeMetadata] |}))
    as Hfine.
  { intros ->. unfold __call__, guardedRun.
    unfold mbind at 1, M_bind at 1.
    destruct (doRaise flags).
    - unfold mbind at 1, M_bind at 1. rewrite Hrun.
      unfold mbind, M_bind, note, modify, mret, M_ret.
      by destruct (doReturnResults flags).
    - rewrite Hrun. unfold mbind, M_bind, note, modify, mret, M_ret.
      by destruct (doReturnResults flags). }
  destruct r as [[]|e].
  - rewrite (Hfine eq_refl). split; [reflexivity|]. split; [reflexivity|].
    split; [reflexivity|]. intros Hnot. exfalso. apply Hnot. by apply Hok.
  - rewrite (Hfail e eq_refl). split; [|split; [|split]].
    + by destruct (doRaise flags).
    + by destruct (doRaise flags).
    + intros Hsome. apply Hok in Hsome. discriminate Hsome.
    + intros _. exists e. by split.
Qed.

End Runner.

End MakeLut.

(** ** The reference-catalog loader
    [fgcmLoadReferenceCatalog.py], [FgcmLoadReferenceCatalogTask]. *)

Module LoadReferenceCatalog.

(** *** Configuration, catalogs and the collaborating tasks *)

Record FgcmLoadReferenceCatalogConfig : Type := {
  refFilterMap : gmap string string;
  applyColorTerms : bool }.

(** A reference catalog: coordinates in the native angle unit and the
    columns of its schema, by field name. *)
Record RefCatalog : Type := {
  coord_ra : list Q;
  coord_dec : list Q;
  columns : gmap string (list Q) }.

(** The catalog returned to fgcm. [refMag !! i] is the column
    [refMag[:, i]] of band [i]. *)
Record FgcmRefCat : Type := {
  ra : list Q;
  dec : list Q;
  refMag : list (list Q);
  refMagErr : list (list Q) }.

(** The loader, the selector, the color-term library and the unit helpers. *)
Record Collaborators : Type := {
  ref_dataset_name : option string;
  loadSkyCircle : Q * Q → Q → option string → result RefCatalog;
  getRefFluxField : RefCatalog → string → result string;
  selectSources : RefCatalog → list bool;
  getColorterm : string → string → result (RefCatalog → string → result (list Q * list Q));
  asDegrees : Q → Q;
  toABmag : Q → Q;
  abMagErrFromFluxErr : Q → Q → Q }.

(** The attributes of the task that the two methods read and write, and the
    warnings logged. *)
Record Task : Type := {
  _fluxFilters : option (list string);
  _fluxFields : option (list (option string));
  _referenceFilter : option string;
  warnings : list string }.

Definition set_fluxFilters (v : option (list string)) : M Task unit :=
  modify (λ t, {| _fluxFilters := v;
                  _fluxFields := _fluxFields t;
                  _referenceFilter := _referenceFilter t;
                  warnings := warnings t |}).

Definition set_fluxFields (v : option (list (option string))) : M Task unit :=
  modify (λ t, {| _fluxFilters := _fluxFilters t;
                  _fluxFields := v;
                  _referenceFilter := _referenceFilter t;
                  warnings := warnings t |}).

Definition set_referenceFilter (v : option string) : M Task unit :=
  modify (λ t, {| _fluxFilters := _fluxFilters t;
                  _fluxFields := _fluxFields t;
                  _referenceFilter := v;
                  warnings := warnings t |}).

Definition warn (msg : string) : M Task unit :=
  modify (λ t, {| _fluxFilters := _fluxFilters t;
                  _fluxFields := _fluxFields t;
                  _referenceFilter := _referenceFilter t;
                  warnings := warnings t ++ [msg] |}).

(** [self._fluxFields.append(fluxField)] *)
Definition append_fluxField (v : option string) : M Task unit :=
  fields ← gets _fluxFields;
  match fields with
  | Some l => set_fluxFields (Some (l ++ [v]))
  | None => raise (AttributeError "append")
  end.

Section Loader.

Variable X : Collaborators.
Variable config : FgcmLoadReferenceCatalogConfig.

(** *** [_determine_flux_fields] (lines 295-359) *)

(** Lines 315-334: the first camera filter whose reference filter loads. *)
Fixpoint findReferenceFilter (center : Q * Q) (filters : list string)
  : M Task (option RefCatalog) :=
  match filters with
  | [] => mret None
  | filterName :: rest =>
      match refFilterMap config !! filterName with
      | None =>
          warn ("Camera filter " +:+ filterName +:+ " not defined in refFilterMap");;
          findReferenceFilter center rest
      | Some refFilterName =>
          match loadSkyCircle X center 0.05 (Some refFilterName) with
          | Ok results =>
              set_referenceFilter (Some refFilterName);;
              mret (Some results)
          | Raise (RuntimeError _) => findReferenceFilter center rest
          | Raise e => raise e
          end
      end
  end.

(** Lines 343-354: the flux field of one camera filter, or [None]. *)
Definition fluxFieldOf (results : RefCatalog) (filterName : string)
  : result (option string) :=
  match refFilterMap config !! filterName with
  | None => Ok None
  | Some refFilterName =>
      match getRefFluxField X results refFilterName with
      | Ok fluxField => Ok (Some fluxField)
      | Raise (RuntimeError _) => Ok None
      | Raise e => Raise e
      end
  end.

(** Lines 342-359. *)
Fixpoint collectFluxFields (results : RefCatalog) (filters : list string)
  : M Task unit :=
  match filters with
  | [] => mret tt
  | filterName :: rest =>
      fluxField ← lift (fluxFieldOf results filterName);
      (if fluxField is None
       then warn ("No reference flux field for camera filter " +:+ filterName)
       else mret tt);;
      append_fluxField fluxField;;
      collectFluxFields results rest
  end.

Definition _determine_flux_fields (center : Q * Q) (filterList : list string)
  : M Task unit :=
  set_fluxFilters (Some filterList);;
  found ← findReferenceFilter center filterList;
  match found with
  | None =>
      raise (RuntimeError ("Could not find any valid flux field(s) "
                           +:+ String.concat ", " filterList))
  | Some results =>
      set_fluxFields (Some []);;
      collectFluxFields results filterList
  end.

(** *** [getFgcmReferenceStarsSkyCircle] (lines 172-293) *)

(** Boolean-mask selection [xs[selected]], for a mask as long as the array. *)
Fixpoint mask {A} (selected : list bool) (xs : list A) : list A :=
  match selected, xs with
  | true :: sel, x :: rest => x :: mask sel rest
  | false :: sel, _ :: rest => mask sel rest
  | _, _ => []
  end.

(** [column[good] = values[good]] on arrays of one length. *)
Fixpoint assignWhere (good : list bool) (values column : list Q) : list Q :=
  match good, values, column with
  | g :: gs, v :: vs, x :: xs => (if g then v else x) :: assignWhere gs vs xs
  | _, _, _ => column
  end.

(** [refCat[field]] *)
Definition column (refCat : RefCatalog) (field : option string) : result (list Q) :=
  match field with
  | None => Raise (TypeError "field name expected")
  | Some name =>
      match columns refCat !! name with
      | Some col => Ok col
      | None => Raise (KeyError name)
      end
  end.

(** Line 239. *)
Definition degreesPerUnit (refCat : RefCatalog) : result Q :=
  match coord_ra refCat with
  | [] => Raise IndexError
  | ra0 :: _ =>
      if Qeq_bool ra0 0 then Raise ZeroDivisionError
      else Ok (asDegrees X ra0 / ra0)%Q
  end.

(** Lines 270-272: the rows whose corrected magnitude and error are usable. *)
Definition goodMagnitudes (magS errS : list Q) : list bool :=
  zip_with (λ m e, Qltb m 90 && Qltb e 90 && Qltb 0 e) magS errS.

(** Lines 259-275: one band with color terms. *)
Definition correctedBand (refCatName : string) (refCat : RefCatalog)
    (selected : list bool) (i : nat) (filterName : string) (cat : FgcmRefCat)
  : result FgcmRefCat :=
  colorterm ← getColorterm X filterName refCatName;
  '(mag, magErr) ← colorterm refCat filterName;
  let magS := mask selected mag in
  let errS := mask selected magErr in
  let good := goodMagnitudes magS errS in
  Ok {| ra := ra cat;
        dec := dec cat;
        refMag := alter (assignWhere good magS) i (refMag cat);
        refMagErr := alter (assignWhere good errS) i (refMagErr cat) |}.

(** Lines 255-275. *)
Fixpoint applyColorterms (refCatName : string) (refCat : RefCatalog)
    (selected : list bool) (i : nat) (bandsAndFields : list (string * option string))
    (cat : FgcmRefCat) : result FgcmRefCat :=
  match bandsAndFields with
  | [] => Ok cat
  | (filterName, fluxField) :: rest =>
      match fluxField with
      | None => applyColorterms refCatName refCat selected (S i) rest cat
      | Some _ =>
          cat' ← correctedBand refCatName refCat selected i filterName cat;
          applyColorterms refCatName refCat selected (S i) rest cat'
      end
  end.

(** Lines 285-291: one band without color terms. *)
Definition plainBand (refCat : RefCatalog) (selected : list bool) (i : nat)
    (fluxField : option string) (cat : FgcmRefCat) : result FgcmRefCat :=
  flux ← column refCat fluxField;
  fluxErr ← column refCat ((λ f, f +:+ "Err") <$> fluxField);
  let fluxS := mask selected flux in
  let errS := mask selected fluxErr in
  let good := zip_with (λ f e, Qltb 0 f && Qltb 0 e) fluxS errS in
  Ok {| ra := ra cat;
        dec := dec cat;
        refMag := alter (assignWhere good (toABmag X <$> fluxS)) i (refMag cat);
        refMagErr :=
          alter (assignWhere good (zip_with (abMagErrFromFluxErr X) errS fluxS)) i
            (refMagErr cat) |}.

(** Lines 282-291. *)
Fixpoint withoutColorterms (refCat : RefCatalog) (selected : list bool) (i : nat)
    (bandsAndFields : list (string * option string)) (cat : FgcmRefCat)
  : result FgcmRefCat :=
  match bandsAndFields with
  | [] => Ok cat
  | (_, fluxField) :: rest =>
      cat' ← plainBand refCat selected i fluxField cat;
      withoutColorterms refCat selected (S i) rest cat'
  end.

(** [zip(self._fluxFilters, self._fluxFields)] *)
Definition zipAttributes (t : Task) : result (list (string * option string)) :=
  match _fluxFilters t, _fluxFields t with
  | Some filters, Some fields => Ok (zip filters fields)
  | _, _ => Raise (TypeError "zip argument is not iterable")
  end.

Definition getFgcmReferenceStarsSkyCircle
    (raDeg decDeg radius : Q) (filterList : list string) : M Task FgcmRefCat :=
  let center := (raDeg, decDeg) in
  cached ← gets _fluxFilters;
  (if bool_decide (cached = Some filterList) then mret tt
   else _determine_flux_fields center filterList);;
  referenceFilter ← gets _referenceFilter;
  refCat ← lift (loadSkyCircle X center radius referenceFilter);
  let selected := selectSources X refCat in
  let n := length (mask selected (coord_ra refCat)) in
  let nFilters := length filterList in
  if bool_decide (n = 0) then
    mret {| ra := []; dec := [];
            refMag := replicate nFilters []; refMagErr := replicate nFilters [] |}
  else
    conv ← lift (degreesPerUnit refCat);
    let cat := {| ra := (λ a, a * conv)%Q <$> mask selected (coord_ra refCat);
                  dec := (λ a, a * conv)%Q <$> mask selected (coord_dec refCat);
                  refMag := replicate nFilters (replicate n 99%Q);
                  refMagErr := replicate nFilters (replicate n 99%Q) |} in
    if applyColorTerms config then
      refCatName ← match ref_dataset_name X with
                   | Some name => mret name
                   | None =>
                       raise (RuntimeError
                                "Cannot perform colorterm corrections with a.net refcats.")
                   end;
      t ← gets id;
      pairs ← lift (zipAttributes t);
      lift (applyColorterms refCatName refCat selected 0 pairs cat)
    else
      t ← gets id;
      pairs ← lift (zipAttributes t);
      lift (withoutColorterms refCat selected 0 pairs cat).

End Loader.

(** *** What [_determine_flux_fields] leaves in the task *)

Section LoaderFacts.

Variable X : Collaborators.
Variable config : FgcmLoadReferenceCatalogConfig.

(** The reference-filter lookup of a band fails: the camera filter is not in
    [refFilterMap], or the catalog has no flux field for its reference
    filter. *)
Definition referenceLookupFails (results : RefCatalog) (filterName : string) : Prop :=
  refFilterMap config !! filterName = None
  ∨ ∃ refFilterName msg,
      refFilterMap config !! filterName = Some refFilterName
      ∧ getRefFluxField X results refFilterName = Raise (RuntimeError msg).

Lemma fluxFieldOf_fails (results : RefCatalog) (filterName : string) :
  referenceLookupFails results filterName →
  fluxFieldOf X config results filterName = Ok None.
Proof.
  unfold fluxFieldOf. intros [->|(rf & msg & -> & ->)]; reflexivity.
Qed.

Lemma findReferenceFilter_found (center : Q * Q) (filters : list string) :
  ∀ t t' results,
    findReferenceFilter X config center filters t = (Ok (Some results), t') →
    _fluxFilters t' = _fluxFilters t
    ∧ _fluxFields t' = _fluxFields t
    ∧ ∃ rf, _referenceFilter t' = Some rf
            ∧ loadSkyCircle X center 0.05 (Some rf) = Ok results.
Proof.
  induction filters as [|filterName rest IH]; intros t t' results; cbn [findReferenceFilter].
  - intros [=].
  - destruct (refFilterMap config !! filterName) as [rf|].
    + destruct (loadSkyCircle X center 0.05 (Some rf)) as [res|e] eqn:Hload.
      * intros [= <- <-]. repeat split. by exists rf.
      * destruct e; try (intros Hbad; discriminate Hbad). apply IH.
    + unfold mbind, M_bind, warn, modify. intros Hrest.
      apply IH in Hrest as (H1 & H2 & H3). by repeat split.
Qed.

Lemma collectFluxFields_run (results : RefCatalog) (filters : list string) :
  ∀ t t' done,
    _fluxFields t = Some done →
    collectFluxFields X config results filters t = (Ok tt, t') →
    ∃ fields,
      Forall2 (λ filterName field, fluxFieldOf X config results filterName = Ok field)
        filters fields
      ∧ _fluxFields t' = Some (done ++ fields)
      ∧ _fluxFilters t' = _fluxFilters t
      ∧ _referenceFilter t' = _referenceFilter t.
Proof.
  induction filters as [|filterName rest IH]; intros t t' done Hdone;
    cbn [collectFluxFields].
  - intros [= <-]. exists []. rewrite app_nil_r. by repeat split.
  - unfold mbind at 1, M_bind at 1, lift.
    destruct (fluxFieldOf X config results filterName) as [field|e] eqn:Hfield;
      [|intros [=]].
    unfold mbind at 1, M_bind at 1.
    set (t1 := ((if field is None
                 then warn ("No reference flux field for camera filter " +:+ filterName)
                 else mret ()) t).2).
    assert ((if field is None
             then warn ("No reference flux field for camera filter " +:+ filterName)
             else mret ()) t = (Ok tt, t1)) as Hwarn
      by (subst t1; by destruct field).
    assert (_fluxFields t1 = Some done ∧ _fluxFilters t1 = _fluxFilters t
            ∧ _referenceFilter t1 = _referenceFilter t) as (Hf1 & Hfl1 & Hr1)
      by (subst t1; by destruct field).
    rewrite Hwarn. unfold mbind at 1, M_bind at 1.
    unfold append_fluxField, mbind at 1, M_bind at 1, gets. rewrite Hf1.
    unfold set_fluxFields, modify. intros Hrest.
    eapply IH in Hrest as (fields & Hall & Hfields & Hfilters & Href);
      [|reflexivity].
    exists (field :: fields). split; [by constructor|].
    cbn in *. rewrite <- app_assoc in Hfields. split; [exact Hfields|].
    split; congruence.
Qed.

Lemma _determine_flux_fields_run (center : Q * Q) (filterList : list string)
    (t t1 : Task) :
  _determine_flux_fields X config center filterList t = (Ok tt, t1) →
  ∃ results rf fields,
    _fluxFilters t1 = Some filterList
    ∧ _fluxFields t1 = Some fields
    ∧ _referenceFilter t1 = Some rf
    ∧ loadSkyCircle X center 0.05 (Some rf) = Ok results
    ∧ Forall2 (λ filterName field, fluxFieldOf X config results filterName = Ok field)
        filterList fields.
Proof.
  unfold _determine_flux_fields. unfold mbind at 1, M_bind at 1.
  unfold set_fluxFilters at 1, modify at 1.
  unfold mbind at 1, M_bind at 1.
  destruct (findReferenceFilter X config center filterList _)
    as [[[results|]|e] t'] eqn:Hfind; try (intros Hbad; discriminate Hbad).
  apply findReferenceFilter_found in Hfind as (Hfl & Hff & rf & Href & Hload).
  unfold mbind at 1, M_bind at 1, set_fluxFields at 1, modify at 1. intros Hcollect.
  eapply collectFluxFields_run in Hcollect as (fields & Hall & Hfields & Hfilters & Hr);
    [|reflexivity].
  exists results, rf, fields. cbn in *. split; [congruence|].
  split; [exact Hfields|]. split; [congruence|]. by split.
Qed.

(** *** The color-term loop touches only bands that have a flux field *)






End LoaderFacts.

(** *** A three-star catalog with fluxes in r and i only *)

Module Survey.

Definition refCatalog : RefCatalog :=
  {| coord_ra := [1; 2; 3]%Q;
     coord_dec := [0.1; 0.2; 0.3]%Q;
     columns := list_to_map [("r_flux", [10; 20; 30]%Q);
                             ("r_fluxErr", [1; 2; 3]%Q);
                             ("i_flux", [40; 50; 60]%Q);
                             ("i_fluxErr", [4; 5; 6]%Q)] |}.

(** A loader for [refCatalog] whose color-term library knows the camera
    filters [withColorterms]. *)
Definition loader (withColorterms : list string) : Collaborators :=
  {| ref_dataset_name := Some "ps1_pv3_3pi_20170110";
     loadSkyCircle := λ _ _ filterName,
       match filterName with
       | Some f =>
           if bool_decide (f ∈ ["r"; "i"]) then Ok refCatalog
           else Raise (RuntimeError "filter not in reference catalog")
       | None => Raise (TypeError "filterName")
       end;
     getRefFluxField := λ refCat f,
       match columns refCat !! (f +:+ "_flux") with
       | Some _ => Ok (f +:+ "_flux")
       | None => Raise (RuntimeError "no flux field")
       end;
     selectSources := λ _, [true; false; true];
     getColorterm := λ filterName _,
       if bool_decide (filterName ∈ withColorterms)
       then Ok (λ _ _, Ok ([20; 21; 95]%Q, [0.1; 0.2; 0.3]%Q))
       else Raise (ColortermNotFoundError filterName);
     asDegrees := λ a, (a * 57)%Q;
     toABmag := λ f, (30 - f)%Q;
     abMagErrFromFluxErr := λ e f, (e / f)%Q |}.

Definition colorTermConfig : FgcmLoadReferenceCatalogConfig :=
  {| refFilterMap := list_to_map [("r", "r"); ("i", "i"); ("z", "z")];
     applyColorTerms := true |}.

Definition plainConfig : FgcmLoadReferenceCatalogConfig :=
  {| refFilterMap := refFilterMap colorTermConfig;
     applyColorTerms := false |}.

Definition freshTask : Task :=
  {| _fluxFilters := None; _fluxFields := None; _referenceFilter := None;
     warnings := [] |}.

(** Bands g (not in [refFilterMap]) and z (no flux field in the catalog)
    stay at 99; band r is corrected. *)
Example unmapped_bands_stay_at_99 :
  ∃ t1,
    getFgcmReferenceStarsSkyCircle (loader ["r"]) colorTermConfig 337 1 0.1
      ["g"; "r"; "z"] freshTask
    = (Ok {| ra := [1 * (1 * 57 / 1); 3 * (1 * 57 / 1)]%Q;
             dec := [0.1 * (1 * 57 / 1); 0.3 * (1 * 57 / 1)]%Q;
             refMag := [[99; 99]; [20; 99]; [99; 99]]%Q;
             refMagErr := [[99; 99]; [0.1; 99]; [99; 99]]%Q |}, t1)
    ∧ warnings t1 = ["Camera filter g not defined in refFilterMap";
                     "No reference flux field for camera filter g";
                     "No reference flux field for camera filter z"].
Proof. eexists. split; vm_compute; reflexivity. Qed.


(** Without color terms a band with no flux field is not skipped either:
    [refCat[None]] raises. *)
Example missing_flux_field_without_colorterms_raises :
  (getFgcmReferenceStarsSkyCircle (loader []) plainConfig 337 1 0.1
     ["r"; "z"] freshTask).1
  = Raise (TypeError "field name expected").
Proof. vm_compute. reflexivity. Qed.

(** No reference filter loads for any band: the call raises. *)
Example no_reference_filter_at_all_raises :
  (getFgcmReferenceStarsSkyCircle (loader []) colorTermConfig 337 1 0.1
     ["g"; "z"] freshTask).1
  = Raise (RuntimeError "Could not find any valid flux field(s) g, z").
Proof. vm_compute. reflexivity. Qed.


End Survey.

(** *** Reuse of the cached flux fields *)

Section Cache.

Variable X : Collaborators.
Variable config : FgcmLoadReferenceCatalogConfig.

(** Lines 212-293 as a function of the task's cached attributes. *)
Definition catalogFromCache (raDeg decDeg radius : Q) (filterList : list string)
    (t : Task) : result FgcmRefCat :=
  refCat ← loadSkyCircle X (raDeg, decDeg) radius (_referenceFilter t);
  let selected := selectSources X refCat in
  let n := length (mask selected (coord_ra refCat)) in
  let nFilters := length filterList in
  if bool_decide (n = 0) then
    Ok {| ra := []; dec := [];
          refMag := replicate nFilters []; refMagErr := replicate nFilters [] |}
  else
    conv ← degreesPerUnit X refCat;
    let cat := {| ra := (λ a, a * conv)%Q <$> mask selected (coord_ra refCat);
                  dec := (λ a, a * conv)%Q <$> mask selected (coord_dec refCat);
                  refMag := replicate nFilters (replicate n 99%Q);
                  refMagErr := replicate nFilters (replicate n 99%Q) |} in
    if applyColorTerms config then
      refCatName ← match ref_dataset_name X with
                   | Some name => Ok name
                   | None =>
                       Raise (RuntimeError
                                "Cannot perform colorterm corrections with a.net refcats.")
                   end;
      pairs ← zipAttributes t;
      applyColorterms X refCatName refCat selected 0 pairs cat
    else
      pairs ← zipAttributes t;
      withoutColorterms X refCat selected 0 pairs cat.

Lemma cached_call_run (raDeg decDeg radius : Q) (filterList : list string)
    (t : Task) :
  _fluxFilters t = Some filterList →
  getFgcmReferenceStarsSkyCircle X config raDeg decDeg radius filterList t
  = (catalogFromCache raDeg decDeg radius filterList t, t).
Proof.
  intros Hcache. unfold getFgcmReferenceStarsSkyCircle, catalogFromCache.
  cbv [mbind M_bind result_bind bind gets lift mret M_ret raise].
  rewrite (bool_decide_eq_true_2 _ Hcache).
  destruct (loadSkyCircle X (raDeg, decDeg) radius (_referenceFilter t)) as [refCat|e];
    [|reflexivity].
  destruct (bool_decide _); [reflexivity|].
  destruct (degreesPerUnit X refCat) as [conv|e]; [|reflexivity].
  unfold id.
  destruct (applyColorTerms config).
  - destruct (ref_dataset_name X) as [name|]; [|reflexivity].
    destruct (zipAttributes t) as [pairs|e]; [|reflexivity].
    destruct (applyColorterms _ _ _ _ _ _ _); reflexivity.
  - destruct (zipAttributes t) as [pairs|e]; [|reflexivity].
    destruct (withoutColorterms _ _ _ _ _ _); reflexivity.
Qed.

(** With the filter list cached the call reads the task and leaves it as it
    is. *)
Lemma cached_call_keeps_task (raDeg decDeg radius : Q) (filterList : list string)
    (t : Task) :
  _fluxFilters t = Some filterList →
  (getFgcmReferenceStarsSkyCircle X config raDeg decDeg radius filterList t).2 = t.
Proof. intros Hcache. by rewrite cached_call_run. Qed.

Lemma determined_call_continues (raDeg decDeg radius : Q) (filterList : list string)
    (t t1 : Task) :
  _fluxFilters t ≠ Some filterList →
  _determine_flux_fields X config (raDeg, decDeg) filterList t = (Ok tt, t1) →
  getFgcmReferenceStarsSkyCircle X config raDeg decDeg radius filterList t
  = getFgcmReferenceStarsSkyCircle X config raDeg decDeg radius filterList t1.
Proof.
  intros Hcache Hdet.
  destruct (_determine_flux_fields_run _ _ _ _ _ _ Hdet)
    as (results & rf & fields & Hfl & _).
  unfold getFgcmReferenceStarsSkyCircle.
  cbv [mbind M_bind gets lift mret M_ret].
  rewrite (bool_decide_eq_false_2 _ Hcache), (bool_decide_eq_true_2 _ Hfl), Hdet.
  reflexivity.
Qed.

Lemma failed_determination_stops_call (raDeg decDeg radius : Q)
    (filterList : list string) (t t' : Task) (e : exn) :
  _fluxFilters t ≠ Some filterList →
  _determine_flux_fields X config (raDeg, decDeg) filterList t = (Raise e, t') →
  getFgcmReferenceStarsSkyCircle X config raDeg decDeg radius filterList t
  = (Raise e, t').
Proof.
  intros Hcache Hdet. unfold getFgcmReferenceStarsSkyCircle.
  cbv [mbind M_bind gets lift mret M_ret].
  rewrite (bool_decide_eq_false_2 _ Hcache), Hdet. reflexivity.
Qed.

Lemma successful_call_from_cache
    (raDeg decDeg radius : Q) (filterList : list string) (t t1 : Task)
    (cat : FgcmRefCat) :
  getFgcmReferenceStarsSkyCircle X config raDeg decDeg radius filterList t
  = (Ok cat, t1) →
  _fluxFilters t1 = Some filterList
  ∧ getFgcmReferenceStarsSkyCircle X config raDeg decDeg radius filterList t1
    = (Ok cat, t1).
Proof.
  intros Hcall.
  destruct (decide (_fluxFilters t = Some filterList)) as [Hcache|Hcache].
  - pose proof (cached_call_keeps_task raDeg decDeg radius filterList t Hcache) as Hkeep.
    rewrite Hcall in Hkeep. cbn [snd] in Hkeep. subst t1. by split.
  - destruct (_determine_flux_fields X config (raDeg, decDeg) filterList t)
      as [[[]|e] t'] eqn:Hdet.
    + destruct (_determine_flux_fields_run _ _ _ _ _ _ Hdet)
        as (results & rf & fields & Hfl & _).
      rewrite (determined_call_continues _ _ _ _ _ _ Hcache Hdet) in Hcall.
      pose proof (cached_call_keeps_task raDeg decDeg radius filterList t' Hfl) as Hkeep.
      rewrite Hcall in Hkeep. cbn [snd] in Hkeep. subst t1. by split.
    + rewrite (failed_determination_stops_call _ _ _ _ _ _ _ Hcache Hdet) in Hcall.
      discriminate Hcall.
Qed.

(** X13. A call that returned a catalog can be repeated: with the same arguments
    it returns the same catalog from the cached flux fields, and the task,
    its warnings included, stays as the first call left it. *)
Theorem repeated_call_reuses_cached_fields
    (raDeg decDeg radius : Q) (filterList : list string) (t t1 : Task)
    (cat : FgcmRefCat) :
  getFgcmReferenceStarsSkyCircle X config raDeg decDeg radius filterList t
  = (Ok cat, t1) →
  _fluxFilters t1 = Some filterList
  ∧ getFgcmReferenceStarsSkyCircle X config raDeg decDeg radius filterList t1
    = (Ok cat, t1).
Proof. apply successful_call_from_cache. Qed.

(** *** Which reference filter is found, and what is warned about *)

Definition notDefinedWarning (filterName : string) : string :=
  "Camera filter " +:+ filterName +:+ " not defined in refFilterMap".

Definition noFluxFieldWarning (filterName : string) : string :=
  "No reference flux field for camera filter " +:+ filterName.

(** The camera filter has no entry in [refFilterMap]. *)
Definition unmapped (filterName : string) : bool :=
  if refFilterMap config !! filterName is None then true else false.

(** The second loop of [_determine_flux_fields] records [None] for the
    camera filter. *)
Definition lacksFluxField (results : RefCatalog) (filterName : string) : bool :=
  match fluxFieldOf X config results filterName with
  | Ok None => true
  | _ => false
  end.

(** The task after more warnings were logged. *)
Definition warned (msgs : list string) (t : Task) : Task :=
  {| _fluxFilters := _fluxFilters t;
     _fluxFields := _fluxFields t;
     _referenceFilter := _referenceFilter t;
     warnings := warnings t ++ msgs |}.

Lemma warned_nil (t : Task) : warned [] t = t.
Proof. destruct t. unfold warned. cbn. by rewrite app_nil_r. Qed.

Lemma warned_warned (a b : list string) (t : Task) :
  warned b (warned a t) = warned (a ++ b) t.
Proof. unfold warned. cbn. by rewrite app_assoc. Qed.

(** No listed filter has a reference filter that loads. *)
Definition noneLoads (center : Q * Q) (filters : list string) : Prop :=
  ∀ filterName refFilterName,
    filterName ∈ filters →
    refFilterMap config !! filterName = Some refFilterName →
    ∃ msg, loadSkyCircle X center 0.05 (Some refFilterName) = Raise (RuntimeError msg).

Lemma findReferenceFilter_none (center : Q * Q) (filters : list string) :
  noneLoads center filters →
  ∀ t, findReferenceFilter X config center filters t
       = (Ok None, warned (notDefinedWarning <$> List.filter unmapped filters) t).
Proof.
  induction filters as [|filterName rest IH]; intros Hnone t;
    cbn [findReferenceFilter List.filter fmap list_fmap].
  - by rewrite warned_nil.
  - assert (noneLoads center rest) as Hrest.
    { intros f rf Hin. apply Hnone. by apply list_elem_of_further. }
    unfold unmapped at 1.
    destruct (refFilterMap config !! filterName) as [rf|] eqn:Hmap.
    + destruct (Hnone filterName rf (list_elem_of_here _ _) Hmap) as [msg ->].
      by apply IH.
    + unfold mbind, M_bind, warn, modify. rewrite (IH Hrest).
      cbn [fmap list_fmap]. f_equal.
      change (warned ?m {| _fluxFilters := _fluxFilters t;
                           _fluxFields := _fluxFields t;
                           _referenceFilter := _referenceFilter t;
                           warnings := warnings t
                                       ++ ["Camera filter " +:+ filterName
                                           +:+ " not defined in refFilterMap"] |})
        with (warned m (warned [notDefinedWarning filterName] t)).
      by rewrite warned_warned.
Qed.

Lemma findReferenceFilter_first (center : Q * Q) (filters : list string) :
  ∀ t t' results,
    findReferenceFilter X config center filters t = (Ok (Some results), t') →
    ∃ k filterName refFilterName,
      filters !! k = Some filterName
      ∧ refFilterMap config !! filterName = Some refFilterName
      ∧ loadSkyCircle X center 0.05 (Some refFilterName) = Ok results
      ∧ noneLoads center (take k filters)
      ∧ t' = {| _fluxFilters := _fluxFilters t;
                _fluxFields := _fluxFields t;
                _referenceFilter := Some refFilterName;
                warnings := warnings t
                            ++ (notDefinedWarning <$> List.filter unmapped (take k filters)) |}.
Proof.
  induction filters as [|filterName rest IH]; intros t t' results;
    cbn [findReferenceFilter].
  - intros Hbad; discriminate Hbad.
  - destruct (refFilterMap config !! filterName) as [rf|] eqn:Hmap.
    + destruct (loadSkyCircle X center 0.05 (Some rf)) as [res|e] eqn:Hload.
      * intros [= <- <-]. exists 0, filterName, rf.
        split; [reflexivity|]. split; [exact Hmap|]. split; [exact Hload|].
        split; [intros f r Hin; by apply elem_of_nil in Hin|].
        cbn. by rewrite app_nil_r.
      * destruct e; try (intros Hbad; discriminate Hbad).
        intros Hrest.
        apply IH in Hrest as (k & f & r & Hk & Hf & Hl & Hnone & ->).
        exists (S k), f, r. split; [exact Hk|]. split; [exact Hf|].
        split; [exact Hl|]. split.
        -- intros f' r' Hin Hmap'. cbn [take] in Hin.
           apply elem_of_cons in Hin as [->|Hin]; [|by apply (Hnone f' r')].
           rewrite Hmap in Hmap'. injection Hmap' as <-. by eexists.
        -- cbn [take List.filter]. unfold unmapped at 2. by rewrite Hmap.
    + unfold mbind, M_bind, warn, modify. intros Hrest.
      apply IH in Hrest as (k & f & r & Hk & Hf & Hl & Hnone & ->).
      exists (S k), f, r. split; [exact Hk|]. split; [exact Hf|].
      split; [exact Hl|]. split.
      * intros f' r' Hin Hmap'. cbn [take] in Hin.
        apply elem_of_cons in Hin as [->|Hin]; [|by apply (Hnone f' r')].
        rewrite Hmap in Hmap'. discriminate Hmap'.
      * cbn [take List.filter _fluxFilters _fluxFields _referenceFilter warnings].
        unfold unmapped at 2. rewrite Hmap. cbn [fmap list_fmap].
        by rewrite <- app_assoc.
Qed.

Lemma collectFluxFields_warnings (results : RefCatalog) (filters : list string) :
  ∀ t t',
    collectFluxFields X config results filters t = (Ok tt, t') →
    warnings t'
    = warnings t ++ (noFluxFieldWarning <$> List.filter (lacksFluxField results) filters)
    ∧ _referenceFilter t' = _referenceFilter t.
Proof.
  induction filters as [|filterName rest IH]; intros t t'; cbn [collectFluxFields].
  - intros [= <-]. cbn. by rewrite app_nil_r.
  - unfold mbind at 1, M_bind at 1, lift. cbn [List.filter].
    unfold lacksFluxField at 1.
    destruct (fluxFieldOf X config results filterName) as [[field|]|e];
      [| |intros Hbad; discriminate Hbad].
    + unfold mbind at 1, M_bind at 1, mret, M_ret.
      unfold mbind at 1, M_bind at 1, append_fluxField, mbind at 1, M_bind at 1, gets.
      destruct (_fluxFields t) as [l|]; [|intros Hbad; discriminate Hbad].
      unfold set_fluxFields, modify. intros Hrest.
      apply IH in Hrest as [-> ->]. by split.
    + unfold mbind at 1, M_bind at 1, warn, modify.
      unfold mbind at 1, M_bind at 1, append_fluxField, mbind at 1, M_bind at 1, gets.
      cbn [_fluxFields].
      destruct (_fluxFields t) as [l|]; [|intros Hbad; discriminate Hbad].
      unfold set_fluxFields, modify. cbn [_fluxFilters _fluxFields _referenceFilter warnings].
      intros Hrest. apply IH in Hrest as [-> ->].
      cbn [warnings _referenceFilter fmap list_fmap]. rewrite <- app_assoc. by split.
Qed.

End Cache.

Section Determination.

Variable X : Collaborators.
Variable config : FgcmLoadReferenceCatalogConfig.

(** X14. The reference filter adopted is that of the first camera filter, in
    list order, whose reference filter loads. The warnings logged are one
    for each unmapped camera filter tried before it and then one for each
    camera filter left without a flux field, in list order. *)
Theorem reference_filter_is_first_loadable
    (center : Q * Q) (filterList : list string) (t t1 : Task) :
  _determine_flux_fields X config center filterList t = (Ok tt, t1) →
  ∃ k filterName refFilterName results,
    filterList !! k = Some filterName
    ∧ refFilterMap config !! filterName = Some refFilterName
    ∧ loadSkyCircle X center 0.05 (Some refFilterName) = Ok results
    ∧ noneLoads X config center (take k filterList)
    ∧ _referenceFilter t1 = Some refFilterName
    ∧ warnings t1
      = warnings t
        ++ (notDefinedWarning <$> List.filter (unmapped config) (take k filterList))
        ++ (noFluxFieldWarning
              <$> List.filter (lacksFluxField X config results) filterList).
Proof.
  unfold _determine_flux_fields. unfold mbind at 1, M_bind at 1.
  unfold set_fluxFilters at 1, modify at 1.
  unfold mbind at 1, M_bind at 1.
  destruct (findReferenceFilter X config center filterList _)
    as [[[results|]|e] t'] eqn:Hfind; try (intros Hbad; discriminate Hbad).
  apply findReferenceFilter_first in Hfind as (k & f & rf & Hk & Hf & Hl & Hnone & ->).
  unfold mbind at 1, M_bind at 1, set_fluxFields at 1, modify at 1. intros Hcollect.
  apply collectFluxFields_warnings in Hcollect as [Hw Hr].
  exists k, f, rf, results. split; [exact Hk|]. split; [exact Hf|].
  split; [exact Hl|]. split; [exact Hnone|]. split; [exact Hr|].
  rewrite Hw. cbn [warnings]. by rewrite <- app_assoc.
Qed.

(** X15. When no listed camera filter has a reference filter that loads, the
    determination raises its [RuntimeError], yet the filter list has already
    been recorded: the flux fields and the reference filter are what they
    were, and a second call with the same list does not determine them
    again, logs nothing and leaves the task as it is. *)
Theorem failed_determination_is_not_retried
    (raDeg decDeg radius : Q) (filterList : list string) (t : Task) :
  _fluxFilters t ≠ Some filterList →
  noneLoads X config (raDeg, decDeg) filterList →
  ∃ t',
    getFgcmReferenceStarsSkyCircle X config raDeg decDeg radius filterList t
    = (Raise (RuntimeError ("Could not find any valid flux field(s) "
                            +:+ String.concat ", " filterList)), t')
    ∧ _fluxFilters t' = Some filterList
    ∧ _fluxFields t' = _fluxFields t
    ∧ _referenceFilter t' = _referenceFilter t
    ∧ warnings t'
      = warnings t ++ (notDefinedWarning <$> List.filter (unmapped config) filterList)
    ∧ (getFgcmReferenceStarsSkyCircle X config raDeg decDeg radius filterList t').2
      = t'
    ∧ (∀ refCat,
         _fluxFields t = None →
         loadSkyCircle X (raDeg, decDeg) radius (_referenceFilter t) = Ok refCat →
         mask (selectSources X refCat) (coord_ra refCat) ≠ [] →
         ∃ e, (getFgcmReferenceStarsSkyCircle X config raDeg decDeg radius
                 filterList t').1 = Raise e
              ∧ e ≠ RuntimeError ("Could not find any valid flux field(s) "
                                  +:+ String.concat ", " filterList)).
Proof.
  intros Hcache Hnone.
  set (t0 := {| _fluxFilters := Some filterList;
                _fluxFields := _fluxFields t;
                _referenceFilter := _referenceFilter t;
                warnings := warnings t |}).
  set (t' := warned (notDefinedWarning <$> List.filter (unmapped config) filterList) t0).
  assert (_determine_flux_fields X config (raDeg, decDeg) filterList t
          = (Raise (RuntimeError ("Could not find any valid flux field(s) "
                                  +:+ String.concat ", " filterList)), t')) as Hdet.
  { unfold _determine_flux_fields. unfold mbind at 1, M_bind at 1.
    unfold set_fluxFilters at 1, modify at 1. fold t0.
    unfold mbind at 1, M_bind at 1.
    rewrite (findReferenceFilter_none X config _ _ Hnone t0). reflexivity. }
  exists t'. split; [by apply failed_determination_stops_call|].
  split; [reflexivity|]. split; [reflexivity|]. split; [reflexivity|].
  split; [reflexivity|].
  split; [by apply cached_call_keeps_task|].
  intros refCat Hfields Hload Hsel.
  unfold getFgcmReferenceStarsSkyCircle.
  cbv [mbind M_bind gets lift mret M_ret raise].
  rewrite (bool_decide_eq_true_2 _ (eq_refl : _fluxFilters t' = Some filterList)).
  change (_referenceFilter t') with (_referenceFilter t). rewrite Hload.
  rewrite bool_decide_eq_false_2
    by (intros Hlen; by apply nil_length_inv in Hlen).
  assert (zipAttributes t' = Raise (TypeError "zip argument is not iterable")) as Hzip.
  { unfold zipAttributes. change (_fluxFields t') with (_fluxFields t).
    by rewrite Hfields. }
  destruct (degreesPerUnit X refCat) as [conv|e] eqn:Hconv.
  - unfold id. destruct (applyColorTerms config).
    + destruct (ref_dataset_name X) as [name|]; cbv beta iota.
      * rewrite Hzip. eexists. split; [reflexivity|discriminate].
      * eexists. split; [reflexivity|]. cbn [String.app]. discriminate.
    + cbv beta iota. rewrite Hzip. eexists. split; [reflexivity|discriminate].
  - exists e. split; [reflexivity|]. unfold degreesPerUnit in Hconv.
    destruct (coord_ra refCat) as [|ra0 ras]; [injection Hconv as <-; discriminate|].
    destruct (Qeq_bool ra0 0); [injection Hconv as <-; discriminate|discriminate Hconv].
Qed.

Lemma fluxFieldOf_None (results : RefCatalog) (filterName : string) :
  fluxFieldOf X config results filterName = Ok None
  ↔ referenceLookupFails X config results filterName.
Proof.
  split; [|apply fluxFieldOf_fails]. unfold fluxFieldOf, referenceLookupFails.
  destruct (refFilterMap config !! filterName) as [rf|]; [|by left].
  destruct (getRefFluxField X results rf) as [field|e] eqn:Hfield;
    [intros Hbad; discriminate Hbad|].
  destruct e; try (intros Hbad; discriminate Hbad).
  intros _. right. by eexists _, _.
Qed.

Lemma fluxFieldOf_Some (results : RefCatalog) (filterName field : string) :
  fluxFieldOf X config results filterName = Ok (Some field)
  ↔ ∃ refFilterName,
      refFilterMap config !! filterName = Some refFilterName
      ∧ getRefFluxField X results refFilterName = Ok field.
Proof.
  unfold fluxFieldOf. split.
  - destruct (refFilterMap config !! filterName) as [rf|];
      [|intros Hbad; discriminate Hbad].
    destruct (getRefFluxField X results rf) as [f|e] eqn:Hfield.
    + intros [= ->]. by exists rf.
    + destruct e; intros Hbad; discriminate Hbad.
  - intros (rf & -> & ->). reflexivity.
Qed.

(** X16. A successful determination leaves one flux field per listed camera
    filter, in list order: [None] exactly for the filters whose lookup
    fails, and otherwise the field that [getRefFluxField] returns for the
    mapped reference filter in the catalog loaded for the reference filter
    found. *)
Theorem flux_fields_follow_the_filter_list
    (center : Q * Q) (filterList : list string) (t t1 : Task) :
  _determine_flux_fields X config center filterList t = (Ok tt, t1) →
  ∃ results fields refFilterName,
    _fluxFilters t1 = Some filterList
    ∧ _fluxFields t1 = Some fields
    ∧ _referenceFilter t1 = Some refFilterName
    ∧ loadSkyCircle X center 0.05 (Some refFilterName) = Ok results
    ∧ length fields = length filterList
    ∧ ∀ i filterName,
        filterList !! i = Some filterName →
        (fields !! i = Some None ↔ referenceLookupFails X config results filterName)
        ∧ (∀ field,
             fields !! i = Some (Some field)
             ↔ ∃ mapped, refFilterMap config !! filterName = Some mapped
                         ∧ getRefFluxField X results mapped = Ok field).
Proof.
  intros Hdet.
  destruct (_determine_flux_fields_run _ _ _ _ _ _ Hdet)
    as (results & rf & fields & Hfl & Hff & Hrf & Hres & Hall).
  exists results, fields, rf. split; [exact Hfl|]. split; [exact Hff|].
  split; [exact Hrf|]. split; [exact Hres|].
  split; [symmetry; by apply Forall2_length in Hall|].
  intros i filterName Hi.
  destruct (Forall2_lookup_l _ _ _ _ _ Hall Hi) as (fld & Hfld & Hok).
  rewrite Hfld. split.
  - rewrite <- fluxFieldOf_None, Hok. split; [by intros [= ->]|by intros [= ->]].
  - intros field. rewrite <- fluxFieldOf_Some, Hok.
    split; [by intros [= ->]|by intros [= ->]].
Qed.

End Determination.

(** *** What the two loops keep *)


Lemma assignWhere_Forall (P : Q → Prop) (good : list bool) (values column : list Q) :
  Forall P column →
  (∀ j v, good !! j = Some true → values !! j = Some v → P v) →
  Forall P (assignWhere good values column).
Proof.
  revert values column. induction good as [|g good IH]; intros [|v values] [|x column];
    intros Hcol Hval; try exact Hcol.
  cbn [assignWhere]. apply Forall_cons in Hcol as [Hx Hcol]. constructor.
  - destruct g; [|exact Hx]. by apply (Hval 0).
  - apply IH; [exact Hcol|]. intros j w Hg Hw. by apply (Hval (S j)).
Qed.

Lemma goodMagnitudes_lookup (magS errS : list Q) (j : nat) :
  goodMagnitudes magS errS !! j = Some true →
  ∃ m e, magS !! j = Some m ∧ errS !! j = Some e
         ∧ (m < 90)%Q ∧ (e < 90)%Q ∧ (0 < e)%Q.
Proof.
  unfold goodMagnitudes. rewrite lookup_zip_with.
  destruct (magS !! j) as [m|]; [|intros Hbad; discriminate Hbad].
  destruct (errS !! j) as [e|]; [|intros Hbad; discriminate Hbad].
  cbn. intros [= Hgood]. apply andb_true_iff in Hgood as [Hgood He].
  apply andb_true_iff in Hgood as [Hm He90].
  exists m, e. split; [reflexivity|]. split; [reflexivity|].
  split; [by apply CalibrateTract.Qltb_lt|].
  split; by apply CalibrateTract.Qltb_lt.
Qed.


Section Loops.

Variable X : Collaborators.

(** The color-term loop keeps whatever each column's assignment keeps. *)
Lemma applyColorterms_preserves (Pm Pe : list Q → Prop)
    (name : string) (refCat : RefCatalog) (selected : list bool) :
  (∀ magS errS col, Pm col → Pm (assignWhere (goodMagnitudes magS errS) magS col)) →
  (∀ magS errS col, Pe col → Pe (assignWhere (goodMagnitudes magS errS) errS col)) →
  ∀ pairs i cat cat',
    applyColorterms X name refCat selected i pairs cat = Ok cat' →
    Forall Pm (refMag cat) → Forall Pe (refMagErr cat) →
    Forall Pm (refMag cat') ∧ Forall Pe (refMagErr cat').
Proof.
  intros Hm He. induction pairs as [|[filterName [field|]] rest IH];
    intros i cat cat'; cbn [applyColorterms].
  - intros [= <-]. by split.
  - unfold mbind, result_bind, bind.
    destruct (correctedBand X name refCat selected i filterName cat) as [cat1|e]
      eqn:Hband; [|intros Hbad; discriminate Hbad].
    intros Hrest Hmag Herr. apply (IH _ _ _ Hrest).
    + unfold correctedBand, mbind, result_bind, bind in Hband.
      destruct (getColorterm X filterName name) as [ct|e]; [|discriminate Hband].
      destruct (ct refCat filterName) as [[mag magErr]|e]; [|discriminate Hband].
      injection Hband as <-. cbn [refMag].
      apply Forall_alter; [exact Hmag|]. intros col _. apply Hm.
    + unfold correctedBand, mbind, result_bind, bind in Hband.
      destruct (getColorterm X filterName name) as [ct|e]; [|discriminate Hband].
      destruct (ct refCat filterName) as [[mag magErr]|e]; [|discriminate Hband].
      injection Hband as <-. cbn [refMagErr].
      apply Forall_alter; [exact Herr|]. intros col _. apply He.
  - apply IH.
Qed.







End Loops.

(** *** The catalog returned *)

Section Catalogs.

Variable X : Collaborators.
Variable config : FgcmLoadReferenceCatalogConfig.




(** X18. With color terms applied, every magnitude of a returned catalog is the
    default 99 or lies below 90, and every magnitude error is 99 or lies
    strictly between 0 and 90. *)
Theorem corrected_magnitudes_are_99_or_below_90
    (raDeg decDeg radius : Q) (filterList : list string) (t t1 : Task)
    (cat : FgcmRefCat) :
  applyColorTerms config = true →
  getFgcmReferenceStarsSkyCircle X config raDeg decDeg radius filterList t
  = (Ok cat, t1) →
  Forall (Forall (λ m, m = 99%Q ∨ (m < 90)%Q)) (refMag cat)
  ∧ Forall (Forall (λ e, e = 99%Q ∨ (0 < e)%Q ∧ (e < 90)%Q)) (refMagErr cat).
Proof.
  intros Hact Hcall.
  apply successful_call_from_cache in Hcall as [Hcache Hcall].
  rewrite (cached_call_run _ _ _ _ _ _ _ Hcache) in Hcall.
  injection Hcall as Hcall. unfold catalogFromCache in Hcall.
  cbv [mbind result_bind bind] in Hcall. rewrite Hact in Hcall.
  destruct (loadSkyCircle X (raDeg, decDeg) radius (_referenceFilter t1))
    as [refCat|e]; [|discriminate Hcall].
  destruct (bool_decide _).
  - injection Hcall as <-. cbn [refMag refMagErr].
    split; apply Forall_replicate, Forall_nil_2.
  - destruct (degreesPerUnit X refCat) as [conv|e]; [|discriminate Hcall].
    destruct (ref_dataset_name X) as [name|]; [|discriminate Hcall].
    destruct (zipAttributes t1) as [pairs|e]; [|discriminate Hcall].
    refine (applyColorterms_preserves X
              (Forall (λ m, m = 99%Q ∨ (m < 90)%Q))
              (Forall (λ e, e = 99%Q ∨ (0 < e)%Q ∧ (e < 90)%Q))
              name refCat (selectSources X refCat) _ _ pairs 0 _ cat Hcall _ _).
    + intros magS errS col Hcol. apply assignWhere_Forall; [exact Hcol|].
      intros j v Hgood Hv.
      apply goodMagnitudes_lookup in Hgood as (m & e & Hm & _ & Hlt & _).
      rewrite Hm in Hv. injection Hv as <-. by right.
    + intros magS errS col Hcol. apply assignWhere_Forall; [exact Hcol|].
      intros j v Hgood Hv.
      apply goodMagnitudes_lookup in Hgood as (m & e & _ & He & _ & Hlt & Hpos).
      rewrite He in Hv. injection Hv as <-. right. by split.
    + cbn [refMag]. apply Forall_replicate, Forall_replicate. by left.
    + cbn [refMagErr]. apply Forall_replicate, Forall_replicate. by left.
Qed.


End Catalogs.

(** *** Without color terms *)


Section Plain.

Variable X : Collaborators.
Variable config : FgcmLoadReferenceCatalogConfig.






End Plain.

(** *** Loading by healpix pixel
    [getFgcmReferenceStarsHealpix], lines 112-170. *)

(** [healpy], [numpy] and [lsst.geom], as far as the method calls them.
    Angles are in radians. *)
Record Sky : Type := {
  SpherePoint : Type;
  spherePoint : Q → Q → SpherePoint;
  getRa : SpherePoint → Q;
  getDec : SpherePoint → Q;
  separation : SpherePoint → SpherePoint → Q;
  np_pi : Q;
  np_radians : Q → Q;
  pix2ang : Z → Z → bool → Q * Q;
  (** [hp.vec2ang(np.transpose(hp.boundaries(nside, pixel, step=1, nest=nest)))] *)
  cornerAngles : Z → Z → bool → list Q * list Q;
  ang2pix : Z → Q → Q → bool → Z }.

(** [fgcmRefCat[inPix]]: one selection of rows for all fields. *)
Definition rows (inPix : list bool) (cat : FgcmRefCat) : FgcmRefCat :=
  {| ra := mask inPix (ra cat);
     dec := mask inPix (dec cat);
     refMag := mask inPix <$> refMag cat;
     refMagErr := mask inPix <$> refMagErr cat |}.

Section Healpix.

Variable X : Collaborators.
Variable S : Sky.
Variable config : FgcmLoadReferenceCatalogConfig.

(** Line 148. *)
Definition pixelCenter (nside pixel : Z) (nest : bool) : SpherePoint S :=
  let '(theta, phi) := pix2ang S nside pixel nest in
  spherePoint S phi (np_pi S / 2 - theta)%Q.

Definition cornerSeparation (center : SpherePoint S) (corner : Q * Q) : Q :=
  let '(ctheta, cphi) := corner in
  separation S center (spherePoint S cphi (np_pi S / 2 - ctheta)%Q).

(** Lines 153-158: the largest separation of a corner from the center. *)
Definition cornerRadius (center : SpherePoint S) (corners : list (Q * Q)) : Q :=
  foldl (λ radius corner,
           let rad := cornerSeparation center corner in
           if Qltb radius rad then rad else radius)
    0%Q corners.

(** Lines 165-168. *)
Definition pixelOf (nside : Z) (nest : bool) (d r : Q) : Z :=
  ang2pix S nside (np_radians S (90 - d)%Q) (np_radians S r) nest.

Definition inPixel (nside pixel : Z) (nest : bool) (cat : FgcmRefCat) : list bool :=
  (λ p, bool_decide (p = pixel)) <$> zip_with (pixelOf nside nest) (dec cat) (ra cat).

Definition getFgcmReferenceStarsHealpix
    (nside pixel : Z) (filterList : list string) (nest : bool) : M Task FgcmRefCat :=
  let center := pixelCenter nside pixel nest in
  let '(thetas, phis) := cornerAngles S nside pixel nest in
  let radius := cornerRadius center (zip thetas phis) in
  fgcmRefCat ← getFgcmReferenceStarsSkyCircle X config
                 (asDegrees X (getRa S center)) (asDegrees X (getDec S center))
                 (asDegrees X radius) filterList;
  mret (rows (inPixel nside pixel nest fgcmRefCat) fgcmRefCat).

(** *** The radius loaded *)

Lemma cornerRadius_from (center : SpherePoint S) (corners : list (Q * Q)) :
  ∀ start,
    let radius :=
      foldl (λ radius corner,
               let rad := cornerSeparation center corner in
               if Qltb radius rad then rad else radius)
        start corners in
    (start <= radius)%Q
    ∧ Forall (λ corner, (cornerSeparation center corner <= radius)%Q) corners
    ∧ (radius = start
       ∨ ∃ corner, corner ∈ corners ∧ radius = cornerSeparation center corner).
Proof.
  induction corners as [|corner corners IH]; intros start; cbn [foldl].
  - split; [apply Qle_refl|]. split; [constructor|by left].
  - cbv zeta.
    set (next := if Qltb start (cornerSeparation center corner)
                 then cornerSeparation center corner else start).
    destruct (IH next) as (Hge & Hall & Hattained). cbv zeta in Hge, Hall, Hattained.
    assert ((start <= next)%Q ∧ (cornerSeparation center corner <= next)%Q
            ∧ (next = start ∨ next = cornerSeparation center corner))
      as (Hstart & Hcorner & Hnext).
    { subst next. destruct (Qltb _ _) eqn:Hlt.
      - apply CalibrateTract.Qltb_lt in Hlt.
        split; [by apply Qlt_le_weak|]. split; [apply Qle_refl|by right].
      - split; [apply Qle_refl|]. split; [|by left].
        unfold Qltb in Hlt. apply negb_false_iff in Hlt.
        by apply Qle_bool_iff in Hlt. }
    split; [by apply Qle_trans with next|]. split.
    + constructor; [by apply Qle_trans with next|exact Hall].
    + destruct Hattained as [->|(c & Hin & ->)].
      * destruct Hnext as [->| ->]; [by left|].
        right. exists corner. split; [apply list_elem_of_here|reflexivity].
      * right. exists c. split; [by apply list_elem_of_further|reflexivity].
Qed.

(** X22. The radius of the circle loaded for a pixel is the largest separation
    of a listed corner from the pixel center: no corner lies farther out,
    and the radius is that of some corner, or 0 when no corner is listed or
    none has a positive separation. *)
Theorem pixel_radius_is_largest_corner_separation
    (center : SpherePoint S) (corners : list (Q * Q)) :
  (0 <= cornerRadius center corners)%Q
  ∧ Forall (λ corner,
              (cornerSeparation center corner <= cornerRadius center corners)%Q)
      corners
  ∧ (cornerRadius center corners = 0%Q
     ∨ ∃ corner, corner ∈ corners
                 ∧ cornerRadius center corners = cornerSeparation center corner).
Proof. exact (cornerRadius_from center corners 0%Q). Qed.

(** *** The rows returned *)

Lemma mask_fmap_filter {A} (f : A → bool) (l : list A) :
  mask (f <$> l) l = List.filter f l.
Proof.
  induction l as [|x l IH]; [reflexivity|].
  cbn [fmap list_fmap mask List.filter]. destruct (f x); cbn [mask]; by rewrite IH.
Qed.

Lemma mask_zip_with_filter {A B C} (g : A → B → C) (h : C → bool)
    (xs : list A) (ys : list B) :
  mask (h <$> zip_with g xs ys) (zip xs ys)
  = List.filter (λ p, h (g p.1 p.2)) (zip xs ys).
Proof.
  revert ys. induction xs as [|x xs IH]; intros [|y ys]; try reflexivity.
  cbn [zip_with fmap list_fmap mask List.filter fst snd].
  destruct (h (g x y)); cbn [mask]; [f_equal|]; apply IH.
Qed.

Lemma zip_mask {A B} (m : list bool) (xs : list A) (ys : list B) :
  length m ≤ length xs → length m ≤ length ys →
  zip (mask m xs) (mask m ys) = mask m (zip xs ys).
Proof.
  revert xs ys. induction m as [|b m IH]; intros xs ys Hx Hy.
  - by destruct xs, ys.
  - destruct xs as [|x xs]; [cbn in Hx; lia|].
    destruct ys as [|y ys]; [cbn in Hy; lia|].
    cbn in Hx, Hy. destruct b; cbn [mask zip zip_with]; [f_equal|];
      apply IH; lia.
Qed.

Lemma mask_sublist {A} (m : list bool) (xs : list A) : mask m xs `sublist_of` xs.
Proof.
  revert xs. induction m as [|b m IH]; intros xs.
  - destruct xs; apply sublist_nil_l.
  - destruct b, xs as [|x xs]; cbn [mask]; try apply sublist_nil_l.
    + by apply sublist_skip.
    + by apply sublist_cons.
Qed.

(** X23. The pixel catalog is the sky-circle catalog, for the circle around the
    pixel center through its farthest corner, cut down to the rows whose
    coordinates fall in the pixel: the coordinate pairs returned are exactly
    those of the sky-circle catalog that map to the pixel, in their order,
    every column is thinned to a subsequence of itself, no band is added or
    dropped, and the task is left as the sky-circle call leaves it. *)
Theorem pixel_catalog_holds_the_rows_in_the_pixel
    (nside pixel : Z) (filterList : list string) (nest : bool) (t t1 : Task)
    (circle : FgcmRefCat) :
  let center := pixelCenter nside pixel nest in
  let corners := zip (cornerAngles S nside pixel nest).1
                     (cornerAngles S nside pixel nest).2 in
  getFgcmReferenceStarsSkyCircle X config
    (asDegrees X (getRa S center)) (asDegrees X (getDec S center))
    (asDegrees X (cornerRadius center corners)) filterList t
  = (Ok circle, t1) →
  ∃ cat,
    getFgcmReferenceStarsHealpix nside pixel filterList nest t = (Ok cat, t1)
    ∧ zip (dec cat) (ra cat)
      = List.filter (λ row, bool_decide (pixelOf nside nest row.1 row.2 = pixel))
          (zip (dec circle) (ra circle))
    ∧ (∀ j d r, dec cat !! j = Some d → ra cat !! j = Some r →
                pixelOf nside nest d r = pixel)
    ∧ ra cat `sublist_of` ra circle
    ∧ dec cat `sublist_of` dec circle
    ∧ Forall2 (λ col col0, col `sublist_of` col0) (refMag cat) (refMag circle)
    ∧ Forall2 (λ col col0, col `sublist_of` col0) (refMagErr cat) (refMagErr circle).
Proof.
  intros center corners Hcircle.
  exists (rows (inPixel nside pixel nest circle) circle).
  assert (zip (dec (rows (inPixel nside pixel nest circle) circle))
              (ra (rows (inPixel nside pixel nest circle) circle))
          = List.filter
              (λ row, bool_decide (pixelOf nside nest row.1 row.2 = pixel))
              (zip (dec circle) (ra circle))) as Hrows.
  { cbn [rows dec ra]. unfold inPixel.
    rewrite zip_mask
      by (rewrite length_fmap, length_zip_with; lia).
    exact (mask_zip_with_filter (pixelOf nside nest)
             (λ p, bool_decide (p = pixel)) (dec circle) (ra circle)). }
  split; [|split; [exact Hrows|split; [|split; [|split; [|split]]]]].
  - unfold getFgcmReferenceStarsHealpix. fold center.
    destruct (cornerAngles S nside pixel nest) as [thetas phis] eqn:Hc.
    cbn [fst snd] in corners. fold corners.
    unfold mbind, M_bind. rewrite Hcircle. reflexivity.
  - intros j d r Hd Hr.
    assert (zip (dec (rows (inPixel nside pixel nest circle) circle))
                (ra (rows (inPixel nside pixel nest circle) circle)) !! j
            = Some (d, r)) as Hj.
    { rewrite lookup_zip_with, Hd. cbn [mbind option_bind]. by rewrite Hr. }
    rewrite Hrows in Hj. apply list_elem_of_lookup_2 in Hj.
    apply list_elem_of_In, List.filter_In in Hj as [_ Hj].
    by apply bool_decide_eq_true in Hj.
  - apply mask_sublist.
  - apply mask_sublist.
  - cbn [rows refMag]. apply Forall2_fmap_l, Forall_Forall2_diag, Forall_forall.
    intros col _. apply mask_sublist.
  - cbn [rows refMagErr]. apply Forall2_fmap_l, Forall_Forall2_diag, Forall_forall.
    intros col _. apply mask_sublist.
Qed.

(** An error of the sky-circle call is the error of the pixel call. *)
Lemma pixel_call_raises (nside pixel : Z) (filterList : list string) (nest : bool)
    (t t1 : Task) (e : exn) :
  let center := pixelCenter nside pixel nest in
  let corners := zip (cornerAngles S nside pixel nest).1
                     (cornerAngles S nside pixel nest).2 in
  getFgcmReferenceStarsSkyCircle X config
    (asDegrees X (getRa S center)) (asDegrees X (getDec S center))
    (asDegrees X (cornerRadius center corners)) filterList t
  = (Raise e, t1) →
  getFgcmReferenceStarsHealpix nside pixel filterList nest t = (Raise e, t1).
Proof.
  intros center corners Hcircle.
  unfold getFgcmReferenceStarsHealpix. fold center.
  destruct (cornerAngles S nside pixel nest) as [thetas phis] eqn:Hc.
  cbn [fst snd] in corners. fold corners.
  unfold mbind, M_bind. by rewrite Hcircle.
Qed.

End Healpix.

(** *** The three-star catalog again *)

Module SurveyCalls.
Import Survey.

Definition noCatalog : FgcmRefCat :=
  {| ra := []; dec := []; refMag := []; refMagErr := [] |}.

Definition catalogOf (out : result FgcmRefCat * Task) : FgcmRefCat :=
  match out.1 with
  | Ok cat => cat
  | Raise _ => noCatalog
  end.


(** A sky in which pixel [p] covers the longitudes from [p] to [p + 1]. *)
Definition flatSky : Sky :=
  {| SpherePoint := Q * Q;
     spherePoint := λ lon lat, (lon, lat);
     getRa := fst;
     getDec := snd;
     separation := λ a b, ((a.1 - b.1) * (a.1 - b.1) + (a.2 - b.2) * (a.2 - b.2))%Q;
     np_pi := 3.14159;
     np_radians := λ d, (d / 57)%Q;
     pix2ang := λ _ pixel _, (1.5, inject_Z pixel + 0.5)%Q;
     cornerAngles := λ _ pixel _,
       ([1.4; 1.6; 1.6; 1.4], [inject_Z pixel; inject_Z pixel;
                               inject_Z pixel + 1; inject_Z pixel + 1])%Q;
     ang2pix := λ _ _ phi _, Qfloor phi |}.

Lemma repeated_call_reuses_cached_fields_witness :
  let call := getFgcmReferenceStarsSkyCircle (loader ["r"]) colorTermConfig
                337 1 0.1 ["g"; "r"; "z"] in
  let cat := catalogOf (call freshTask) in
  let t1 := (call freshTask).2 in
  call freshTask = (Ok cat, t1)
  ∧ _fluxFilters t1 = Some ["g"; "r"; "z"]
  ∧ call t1 = (Ok cat, t1).
Proof.
  cbv zeta.
  assert (getFgcmReferenceStarsSkyCircle (loader ["r"]) colorTermConfig
            337 1 0.1 ["g"; "r"; "z"] freshTask
          = (Ok (catalogOf (getFgcmReferenceStarsSkyCircle (loader ["r"])
                              colorTermConfig 337 1 0.1 ["g"; "r"; "z"] freshTask)),
             (getFgcmReferenceStarsSkyCircle (loader ["r"]) colorTermConfig
                337 1 0.1 ["g"; "r"; "z"] freshTask).2)) as Hcall
    by (vm_compute; reflexivity).
  split; [exact Hcall|].
  exact (repeated_call_reuses_cached_fields (loader ["r"]) colorTermConfig
           337 1 0.1 ["g"; "r"; "z"] freshTask _ _ Hcall).
Defined.

Lemma flux_fields_follow_the_filter_list_witness :
  let X := loader ["r"] in
  let config := colorTermConfig in
  let filterList := ["g"; "r"; "z"] in
  let t1 := (_determine_flux_fields X config (337, 1)%Q filterList freshTask).2 in
  _determine_flux_fields X config (337, 1)%Q filterList freshTask = (Ok tt, t1)
  ∧ _fluxFields t1 = Some [None; Some "r_flux"; None]
  ∧ ∃ results fields refFilterName,
      _fluxFilters t1 = Some filterList
      ∧ _fluxFields t1 = Some fields
      ∧ _referenceFilter t1 = Some refFilterName
      ∧ loadSkyCircle X (337, 1)%Q 0.05 (Some refFilterName) = Ok results
      ∧ length fields = length filterList
      ∧ ∀ i filterName,
          filterList !! i = Some filterName →
          (fields !! i = Some None ↔ referenceLookupFails X config results filterName)
          ∧ (∀ field,
               fields !! i = Some (Some field)
               ↔ ∃ mapped, refFilterMap config !! filterName = Some mapped
                           ∧ getRefFluxField X results mapped = Ok field).
Proof.
  cbv zeta.
  assert (_determine_flux_fields (loader ["r"]) colorTermConfig (337, 1)%Q
            ["g"; "r"; "z"] freshTask
          = (Ok tt, (_determine_flux_fields (loader ["r"]) colorTermConfig (337, 1)%Q
                       ["g"; "r"; "z"] freshTask).2)) as Hdet
    by (vm_compute; reflexivity).
  split; [exact Hdet|]. split; [vm_compute; reflexivity|].
  exact (flux_fields_follow_the_filter_list (loader ["r"]) colorTermConfig
           (337, 1)%Q ["g"; "r"; "z"] freshTask _ Hdet).
Defined.

Lemma reference_filter_is_first_loadable_witness :
  let X := loader ["r"] in
  let config := colorTermConfig in
  let filterList := ["g"; "z"; "i"; "r"] in
  let t1 := (_determine_flux_fields X config (337, 1)%Q filterList freshTask).2 in
  _determine_flux_fields X config (337, 1)%Q filterList freshTask = (Ok tt, t1)
  ∧ ∃ k filterName refFilterName results,
      filterList !! k = Some filterName
      ∧ refFilterMap config !! filterName = Some refFilterName
      ∧ loadSkyCircle X (337, 1)%Q 0.05 (Some refFilterName) = Ok results
      ∧ noneLoads X config (337, 1)%Q (take k filterList)
      ∧ _referenceFilter t1 = Some refFilterName
      ∧ warnings t1
        = warnings freshTask
          ++ (notDefinedWarning <$> List.filter (unmapped config) (take k filterList))
          ++ (noFluxFieldWarning
                <$> List.filter (lacksFluxField X config results) filterList).
Proof.
  cbv zeta.
  assert (_determine_flux_fields (loader ["r"]) colorTermConfig (337, 1)%Q
            ["g"; "z"; "i"; "r"] freshTask
          = (Ok tt, (_determine_flux_fields (loader ["r"]) colorTermConfig (337, 1)%Q
                       ["g"; "z"; "i"; "r"] freshTask).2)) as Hdet
    by (vm_compute; reflexivity).
  split; [exact Hdet|].
  exact (reference_filter_is_first_loadable (loader ["r"]) colorTermConfig
           (337, 1)%Q ["g"; "z"; "i"; "r"] freshTask _ Hdet).
Defined.

Lemma g_and_z_do_not_load :
  noneLoads (loader ["r"]) colorTermConfig (337, 1)%Q ["g"; "z"].
Proof.
  intros f rf Hin Hmap.
  apply elem_of_cons in Hin as [->|Hin].
  - vm_compute in Hmap. discriminate Hmap.
  - apply elem_of_cons in Hin as [->|Hin]; [|by apply elem_of_nil in Hin].
    vm_compute in Hmap. injection Hmap as <-. eexists. vm_compute. reflexivity.
Qed.

Lemma failed_determination_is_not_retried_witness :
  let X := loader ["r"] in
  let config := colorTermConfig in
  let filterList := ["g"; "z"] in
  let call := getFgcmReferenceStarsSkyCircle X config 337 1 0.1 filterList in
  let message := "Could not find any valid flux field(s) g, z" in
  _fluxFilters freshTask ≠ Some filterList
  ∧ noneLoads X config (337, 1)%Q filterList
  ∧ ∃ t',
      call freshTask = (Raise (RuntimeError message), t')
      ∧ _fluxFilters t' = Some filterList
      ∧ _fluxFields t' = _fluxFields freshTask
      ∧ _referenceFilter t' = _referenceFilter freshTask
      ∧ warnings t'
        = warnings freshTask
          ++ (notDefinedWarning <$> List.filter (unmapped config) filterList)
      ∧ (call t').2 = t'
      ∧ (∀ refCat,
           _fluxFields freshTask = None →
           loadSkyCircle X (337, 1)%Q 0.1 (_referenceFilter freshTask) = Ok refCat →
           mask (selectSources X refCat) (coord_ra refCat) ≠ [] →
           ∃ e, (call t').1 = Raise e ∧ e ≠ RuntimeError message).
Proof.
  cbv zeta.
  assert (_fluxFilters freshTask ≠ Some ["g"; "z"]) as Hcache
    by (intros Hbad; discriminate Hbad).
  split; [exact Hcache|]. split; [exact g_and_z_do_not_load|].
  exact (failed_determination_is_not_retried (loader ["r"]) colorTermConfig
           337 1 0.1 ["g"; "z"] freshTask Hcache g_and_z_do_not_load).
Defined.


Lemma corrected_magnitudes_are_99_or_below_90_witness :
  let X := loader ["r"; "i"] in
  let call := getFgcmReferenceStarsSkyCircle X colorTermConfig
                337 1 0.1 ["r"; "i"; "z"] in
  let cat := catalogOf (call freshTask) in
  let t1 := (call freshTask).2 in
  (applyColorTerms colorTermConfig = true
   ∧ call freshTask = (Ok cat, t1)
   ∧ refMag cat = [[20; 99]; [20; 99]; [99; 99]]%Q)
  ∧ Forall (Forall (λ m, m = 99%Q ∨ (m < 90)%Q)) (refMag cat)
  ∧ Forall (Forall (λ e, e = 99%Q ∨ (0 < e)%Q ∧ (e < 90)%Q)) (refMagErr cat).
Proof.
  cbv zeta.
  assert (getFgcmReferenceStarsSkyCircle (loader ["r"; "i"]) colorTermConfig
            337 1 0.1 ["r"; "i"; "z"] freshTask
          = (Ok (catalogOf (getFgcmReferenceStarsSkyCircle (loader ["r"; "i"])
                              colorTermConfig 337 1 0.1 ["r"; "i"; "z"] freshTask)),
             (getFgcmReferenceStarsSkyCircle (loader ["r"; "i"]) colorTermConfig
                337 1 0.1 ["r"; "i"; "z"] freshTask).2)) as Hcall
    by (vm_compute; reflexivity).
  split; [split; [reflexivity|split; [exact Hcall|vm_compute; reflexivity]]|].
  exact (corrected_magnitudes_are_99_or_below_90 (loader ["r"; "i"]) colorTermConfig
           337 1 0.1 ["r"; "i"; "z"] freshTask _ _ eq_refl Hcall).
Defined.




(** The two bands of the catalog without color terms: every flux is
    positive, so every selected row is converted. *)
Example plain_r_and_i_magnitudes :
  ∃ t1,
    getFgcmReferenceStarsSkyCircle (loader []) plainConfig 337 1 0.1 ["r"; "i"]
      freshTask
    = (Ok {| ra := [1 * (1 * 57 / 1); 3 * (1 * 57 / 1)]%Q;
             dec := [0.1 * (1 * 57 / 1); 0.3 * (1 * 57 / 1)]%Q;
             refMag := [[30 - 10; 30 - 30]; [30 - 40; 30 - 60]]%Q;
             refMagErr := [[1 / 10; 3 / 30]; [4 / 40; 6 / 60]]%Q |}, t1).
Proof. eexists. vm_compute. reflexivity. Qed.

Lemma pixel_catalog_holds_the_rows_in_the_pixel_witness :
  let X := loader ["r"] in
  let S := flatSky in
  let config := colorTermConfig in
  let filterList := ["g"; "r"; "z"] in
  let center := pixelCenter S 8 1 false in
  let corners := zip (cornerAngles S 8 1 false).1 (cornerAngles S 8 1 false).2 in
  let circleCall :=
    getFgcmReferenceStarsSkyCircle X config
      (asDegrees X (getRa S center)) (asDegrees X (getDec S center))
      (asDegrees X (cornerRadius S center corners)) filterList in
  let circle := catalogOf (circleCall freshTask) in
  let t1 := (circleCall freshTask).2 in
  (circleCall freshTask = (Ok circle, t1)
   ∧ ra circle = [1 * (1 * 57 / 1); 3 * (1 * 57 / 1)]%Q)
  ∧ ∃ cat,
      getFgcmReferenceStarsHealpix X S config 8 1 filterList false freshTask
      = (Ok cat, t1)
      ∧ ra cat = [1 * (1 * 57 / 1)]%Q
      ∧ refMag cat = [[99]; [20]; [99]]%Q.
Proof.
  cbv zeta.
  set (circleCall :=
         getFgcmReferenceStarsSkyCircle (loader ["r"]) colorTermConfig
           (asDegrees (loader ["r"]) (getRa flatSky (pixelCenter flatSky 8 1 false)))
           (asDegrees (loader ["r"]) (getDec flatSky (pixelCenter flatSky 8 1 false)))
           (asDegrees (loader ["r"])
              (cornerRadius flatSky (pixelCenter flatSky 8 1 false)
                 (zip (cornerAngles flatSky 8 1 false).1
                    (cornerAngles flatSky 8 1 false).2)))
           ["g"; "r"; "z"]).
  assert (circleCall freshTask
          = (Ok (catalogOf (circleCall freshTask)), (circleCall freshTask).2)) as Hcircle
    by (vm_compute; reflexivity).
  split; [split; [exact Hcircle|vm_compute; reflexivity]|].
  destruct (pixel_catalog_holds_the_rows_in_the_pixel (loader ["r"]) flatSky
              colorTermConfig 8 1 ["g"; "r"; "z"] false freshTask _ _ Hcircle)
    as (cat & Hcall & _).
  exists cat. split; [exact Hcall|].
  assert (Ok cat = Ok (catalogOf (getFgcmReferenceStarsHealpix (loader ["r"]) flatSky
                                    colorTermConfig 8 1 ["g"; "r"; "z"] false freshTask)))
    as Hcat by (rewrite Hcall; reflexivity).
  injection Hcat as ->. split; vm_compute; reflexivity.
Defined.

End SurveyCalls.

End LoadReferenceCatalog.

(** ** The tract task on source tables
    [fgcmCalibrateTractTable.py]: [FgcmCalibrateTractTableConnections] and
    [FgcmCalibrateTractTableTask.runQuantum]. *)

Module CalibrateTractTable.

(** *** The connections (lines 40-142) *)

(** The configuration values that [__init__] and [runQuantum] read. *)
Record TableConfig : Type := {
  connections_refCat : string;
  buildStars_ref_dataset_name : string;
  outputProducts_ref_dataset_name : string;
  doReferenceMatches : bool;
  doModelErrorsWithBackground : bool;
  doReferenceCalibration : bool;
  doRefcatOutput : bool;
  doAtmosphereOutput : bool;
  doZeropointOutput : bool }.

Inductive failure : Type :=
| ValueError (msg : string)
| KeyError (key : string).

(** The three sets of connection names of a [PipelineTaskConnections]
    object. *)
Record Connections : Type := {
  inputs : gset string;
  prerequisiteInputs : gset string;
  outputs : gset string }.

(** The connections declared in the class body, lines 44-119, as
    [PipelineTaskConnections.__init__] collects them. *)
Definition declared : Connections :=
  {| inputs := {["sourceTable_visit"; "calexp"; "background"]};
     prerequisiteInputs := {["camera"; "fgcmLookUpTable"; "srcSchema"; "refCat"]};
     outputs := {["fgcmPhotoCalib"; "fgcmTransmissionAtmosphere"]} |}.

(** [set.remove(name)] *)
Definition remove (name : string) (s : gset string) : failure + gset string :=
  if decide (name ∈ s) then inr (s ∖ {[name]}) else inl (KeyError name).

Definition refCatMismatch (loader : string) : failure :=
  ValueError ("connections.refCat must be the same as " +:+ loader).

(** Lines 121-142. *)
Definition __init__ (config : TableConfig) : failure + Connections :=
  if negb (bool_decide (connections_refCat config = buildStars_ref_dataset_name config))
  then inl (refCatMismatch
              "config.fgcmBuildStars.fgcmLoadReferenceCatalog.refObjLoader.ref_dataset_name")
  else if doReferenceCalibration config
          && negb (bool_decide (connections_refCat config
                                = outputProducts_ref_dataset_name config))
  then inl (refCatMismatch "config.fgcmOutputProducts.refObjLoader.ref_dataset_name")
  else
    match (if negb (doModelErrorsWithBackground config)
           then remove "background" (inputs declared)
           else inr (inputs declared)) with
    | inl e => inl e
    | inr ins =>
        if doRefcatOutput config
        then inl (ValueError
                    "FgcmCalibrateTractTableTask (Gen3) does not support doRefcatOutput")
        else
          match (if negb (doAtmosphereOutput config)
                 then remove "fgcmAtmosphereParameters" (prerequisiteInputs declared)
                 else inr (prerequisiteInputs declared)) with
          | inl e => inl e
          | inr pre =>
              match (if negb (doZeropointOutput config)
                     then remove "fgcmZeropoints" pre
                     else inr pre) with
              | inl e => inl e
              | inr pre' =>
                  inr {| inputs := ins; prerequisiteInputs := pre';
                         outputs := outputs declared |}
              end
          end
    end.

(** The reference-catalog names that [__init__] compares agree. *)
Definition refCatAgrees (config : TableConfig) : Prop :=
  connections_refCat config = buildStars_ref_dataset_name config
  ∧ (doReferenceCalibration config = true →
     connections_refCat config = outputProducts_ref_dataset_name config).

Lemma background_declared : "background" ∈ inputs declared.
Proof. apply (bool_decide_unpack _). vm_compute. exact I. Qed.

Lemma atmosphere_parameters_not_declared :
  "fgcmAtmosphereParameters" ∉ prerequisiteInputs declared.
Proof. apply (bool_decide_unpack _). vm_compute. exact I. Qed.

Lemma zeropoints_not_declared : "fgcmZeropoints" ∉ prerequisiteInputs declared.
Proof. apply (bool_decide_unpack _). vm_compute. exact I. Qed.

(** X24. The connections can be constructed only with both output switches on:
    [fgcmAtmosphereParameters] and [fgcmZeropoints] are not among the
    prerequisite inputs the class declares, so removing either raises
    [KeyError]. A configuration is accepted exactly when the
    reference-catalog names agree, [doRefcatOutput] is off and
    [doAtmosphereOutput] and [doZeropointOutput] are on; the connections
    are then the declared ones, without [background] when
    [doModelErrorsWithBackground] is off. *)
Theorem connections_need_both_output_switches (config : TableConfig) :
  ((∃ conns, __init__ config = inr conns)
   ↔ refCatAgrees config
     ∧ doRefcatOutput config = false
     ∧ doAtmosphereOutput config = true
     ∧ doZeropointOutput config = true)
  ∧ (∀ conns,
       __init__ config = inr conns →
       prerequisiteInputs conns = prerequisiteInputs declared
       ∧ outputs conns = outputs declared
       ∧ inputs conns
         = if doModelErrorsWithBackground config then inputs declared
           else inputs declared ∖ {["background"]})
  ∧ (refCatAgrees config →
     doRefcatOutput config = false →
     doAtmosphereOutput config = false →
     __init__ config = inl (KeyError "fgcmAtmosphereParameters"))
  ∧ (refCatAgrees config →
     doRefcatOutput config = false →
     doAtmosphereOutput config = true →
     doZeropointOutput config = false →
     __init__ config = inl (KeyError "fgcmZeropoints")).
Proof.
  assert (remove "background" (inputs declared)
          = inr (inputs declared ∖ {["background"]})) as Hback.
  { unfold remove. by rewrite (decide_True _ _ background_declared). }
  assert (remove "fgcmAtmosphereParameters" (prerequisiteInputs declared)
          = inl (KeyError "fgcmAtmosphereParameters")) as Hatm.
  { unfold remove. by rewrite (decide_False _ _ atmosphere_parameters_not_declared). }
  assert (remove "fgcmZeropoints" (prerequisiteInputs declared)
          = inl (KeyError "fgcmZeropoints")) as Hzp.
  { unfold remove. by rewrite (decide_False _ _ zeropoints_not_declared). }
  unfold __init__, refCatAgrees.
  destruct (bool_decide (connections_refCat config = buildStars_ref_dataset_name config))
    eqn:Hname; [apply bool_decide_eq_true in Hname|apply bool_decide_eq_false in Hname];
    cbn [negb].
  2:{ split; [|split; [|split]].
      - split; [intros [conns Hbad]; discriminate Hbad|]. intros [[Hbad _] _]. by destruct Hname.
      - intros conns Hbad; discriminate Hbad.
      - intros [Hbad _]. by destruct Hname.
      - intros [Hbad _]. by destruct Hname. }
  destruct (doReferenceCalibration config);
    [destruct (bool_decide (connections_refCat config
                            = outputProducts_ref_dataset_name config)) eqn:Hout;
     [apply bool_decide_eq_true in Hout|apply bool_decide_eq_false in Hout]|];
    cbn [negb andb].
  2:{ split; [|split; [|split]].
      - split; [intros [conns Hbad]; discriminate Hbad|].
        intros [[_ Hbad] _]. destruct Hout. by apply Hbad.
      - intros conns Hbad; discriminate Hbad.
      - intros [_ Hbad]. destruct Hout. by apply Hbad.
      - intros [_ Hbad]. destruct Hout. by apply Hbad. }
  all: destruct (doModelErrorsWithBackground config), (doRefcatOutput config),
         (doAtmosphereOutput config), (doZeropointOutput config); cbn [negb];
       rewrite ?Hback, ?Hatm, ?Hzp;
       (split; [split; [intros [conns Hc]; try discriminate Hc; by repeat split
                       |intros (_ & H1 & H2 & H3);
                        try discriminate H1; try discriminate H2; try discriminate H3;
                        by eexists]
               |split; [intros conns Hc; try discriminate Hc;
                        injection Hc as <-; by repeat split
                       |split; intros; try discriminate; reflexivity]]).
Qed.

(** *** [runQuantum] (lines 169-226) *)

(** A deferred dataset reference with the two data-id values that
    [runQuantum] reads. *)
Record DataRef : Type := {
  visit : Z;
  detector : Z;
  handle : Z }.

#[export] Instance DataRef_eq_dec : EqDecision DataRef.
Proof. solve_decision. Defined.

(** The references of a quantum: [inputRefs], [outputRefs] and the tract of
    [butlerQC.quantum.dataId]. *)
Record Quantum : Type := {
  quantum_tract : Z;
  sourceTable_visit : list DataRef;
  camera : Z;
  srcSchema : Z;
  fgcmLookUpTable : Z;
  calexp : list DataRef;
  refCat : list DataRef;
  fgcmPhotoCalib : list DataRef;
  fgcmTransmissionAtmosphere : list DataRef }.

(** The values of [dataRefDict]. *)
Inductive entry : Type :=
| Handle (h : Z)
| Refs (refs : list DataRef)
| ByVisitDetector (d : gmap (Z * Z) DataRef)
| ByTractVisitDetector (d : gmap (Z * Z * Z) DataRef)
| ByTractVisit (d : gmap (Z * Z) DataRef).

(** [{key(ref): ref for ref in refs}] *)
Definition dictOf `{Countable K} (key : DataRef → K) (refs : list DataRef)
  : gmap K DataRef :=
  foldl (λ d ref, <[key ref := ref]> d) ∅ refs.

(** What [runQuantum] hands to [run], and what it has set on the task: the
    flag, the number of data references it logged and the loaders. *)
Record RunArguments : Type := {
  isGen3 : bool;
  loggedDataRefs : nat;
  dataRefDict : gmap string entry;
  tract : Z;
  buildStarsRefObjLoader : option (list DataRef);
  outputProductsRefObjLoader : option (list DataRef) }.

Definition runQuantum (config : TableConfig) (q : Quantum) : RunArguments :=
  let dataRefs := sourceTable_visit q in
  let tract := quantum_tract q in
  let d := <["camera" := Handle (camera q)]> ∅ in
  let d := <["source_catalogs" := Refs dataRefs]> d in
  let d := <["src_schema" := Handle (srcSchema q)]> d in
  let d := <["fgcmLookUpTable" := Handle (fgcmLookUpTable q)]> d in
  let d := <["calexps" :=
               ByVisitDetector (dictOf (λ r, (visit r, detector r)) (calexp q))]> d in
  let d := if doZeropointOutput config
           then <["fgcmPhotoCalibs" :=
                    ByTractVisitDetector
                      (dictOf (λ r, (tract, visit r, detector r)) (fgcmPhotoCalib q))]> d
           else d in
  let d := if doAtmosphereOutput config
           then <["fgcmTransmissionAtmospheres" :=
                    ByTractVisit
                      (dictOf (λ r, (tract, visit r)) (fgcmTransmissionAtmosphere q))]> d
           else d in
  {| isGen3 := true;
     loggedDataRefs := length dataRefs;
     dataRefDict := d;
     tract := tract;
     buildStarsRefObjLoader :=
       if doReferenceMatches config then Some (refCat q) else None;
     outputProductsRefObjLoader :=
       if doReferenceCalibration config then Some (refCat q) else None |}.

(** *** A dictionary comprehension keeps the last reference of each key *)

Lemma dictOf_from `{Countable K} (key : DataRef → K) (refs : list DataRef) :
  ∀ (d : gmap K DataRef) (k : K),
    foldl (λ d ref, <[key ref := ref]> d) d refs !! k
    = match last (List.filter (λ r, bool_decide (key r = k)) refs) with
      | Some r => Some r
      | None => d !! k
      end.
Proof.
  induction refs as [|ref refs IH]; intros d k; [reflexivity|].
  cbn [foldl List.filter]. rewrite IH.
  destruct (decide (key ref = k)) as [Hk|Hk].
  - rewrite (bool_decide_eq_true_2 _ Hk).
    destruct (List.filter _ refs) as [|r rest] eqn:Hrest.
    + cbn. by rewrite <- Hk, lookup_insert_eq.
    + change (last (ref :: r :: rest)) with (last (r :: rest)).
      destruct (last (r :: rest)) eqn:Hlast; [reflexivity|].
      apply last_None in Hlast. discriminate Hlast.
  - rewrite (bool_decide_eq_false_2 _ Hk).
    destruct (last _); [reflexivity|]. by rewrite lookup_insert_ne.
Qed.

Lemma dictOf_lookup `{Countable K} (key : DataRef → K) (refs : list DataRef) (k : K) :
  dictOf key refs !! k = last (List.filter (λ r, bool_decide (key r = k)) refs).
Proof.
  unfold dictOf. rewrite dictOf_from. by destruct (last _).
Qed.

Lemma dictOf_distinct `{Countable K} (key : DataRef → K) (refs : list DataRef) :
  NoDup (key <$> refs) →
  ∀ ref, ref ∈ refs → dictOf key refs !! key ref = Some ref.
Proof.
  intros Hnodup ref Hin. rewrite dictOf_lookup.
  induction refs as [|r refs IH]; [by apply elem_of_nil in Hin|].
  cbn [fmap list_fmap] in Hnodup. apply NoDup_cons in Hnodup as [Hfresh Hnodup].
  cbn [List.filter]. apply elem_of_cons in Hin as [->|Hin].
  - rewrite bool_decide_eq_true_2 by reflexivity.
    replace (List.filter (λ r0, bool_decide (key r0 = key r)) refs) with (@nil DataRef);
      [reflexivity|].
    symmetry. clear -Hfresh. induction refs as [|x refs IH]; [reflexivity|].
    cbn [List.filter fmap list_fmap] in *.
    apply not_elem_of_cons in Hfresh as [Hne Hfresh].
    rewrite bool_decide_eq_false_2 by (intros Heq; by apply Hne). by apply IH.
  - rewrite bool_decide_eq_false_2.
    + by apply IH.
    + intros Heq. apply Hfresh. rewrite Heq. by apply list_elem_of_fmap_2.
Qed.

(** X25. The dictionary handed to [run] always holds the camera, the source
    catalogs, the schema, the look-up table and the calexps; the photoCalib
    and the atmosphere dictionaries are present exactly when their output
    switch is on. A calexp is looked up by visit and detector, the outputs
    by the tract of the quantum as well; of several references with one key
    the last is kept, and when the keys are distinct every reference is
    found under its own. *)
Theorem quantum_references_are_filed_by_data_id (config : TableConfig) (q : Quantum) :
  let args := runQuantum config q in
  tract args = quantum_tract q
  ∧ dataRefDict args !! "camera" = Some (Handle (camera q))
  ∧ dataRefDict args !! "source_catalogs" = Some (Refs (sourceTable_visit q))
  ∧ dataRefDict args !! "src_schema" = Some (Handle (srcSchema q))
  ∧ dataRefDict args !! "fgcmLookUpTable" = Some (Handle (fgcmLookUpTable q))
  ∧ (∃ calexps,
       dataRefDict args !! "calexps" = Some (ByVisitDetector calexps)
       ∧ (∀ v d, calexps !! (v, d)
                 = last (List.filter
                           (λ r, bool_decide ((visit r, detector r) = (v, d)))
                           (calexp q)))
       ∧ (NoDup ((λ r, (visit r, detector r)) <$> calexp q) →
          ∀ ref, ref ∈ calexp q → calexps !! (visit ref, detector ref) = Some ref))
  ∧ (if doZeropointOutput config
     then ∃ photoCalibs,
            dataRefDict args !! "fgcmPhotoCalibs" = Some (ByTractVisitDetector photoCalibs)
            ∧ ∀ t v d, photoCalibs !! (t, v, d)
                       = last (List.filter
                                 (λ r, bool_decide
                                         ((quantum_tract q, visit r, detector r)
                                          = (t, v, d)))
                                 (fgcmPhotoCalib q))
     else dataRefDict args !! "fgcmPhotoCalibs" = None)
  ∧ (if doAtmosphereOutput config
     then ∃ atmospheres,
            dataRefDict args !! "fgcmTransmissionAtmospheres"
            = Some (ByTractVisit atmospheres)
            ∧ ∀ t v, atmospheres !! (t, v)
                     = last (List.filter
                               (λ r, bool_decide ((quantum_tract q, visit r) = (t, v)))
                               (fgcmTransmissionAtmosphere q))
     else dataRefDict args !! "fgcmTransmissionAtmospheres" = None).
Proof.
  cbv zeta. unfold runQuantum. cbn [tract dataRefDict].
  split; [reflexivity|].
  destruct (doZeropointOutput config), (doAtmosphereOutput config).
  all: repeat match goal with
         | |- _ ∧ _ => split
         | |- ∃ _, _ => eexists
         | |- ∀ _, _ => intro
         | |- context [<[?k := _]> _ !! ?k] => rewrite lookup_insert_eq
         | |- context [<[?k := _]> _ !! ?k'] =>
             rewrite (lookup_insert_ne _ k k') by (intros Hbad; discriminate Hbad)
         | |- Some _ = Some _ => reflexivity
         | |- ∅ !! _ = None => apply lookup_empty
         | |- dictOf _ _ !! _ = last _ => apply dictOf_lookup
         | Hnodup : NoDup _, Hin : _ ∈ _ |- dictOf ?key ?refs !! _ = Some ?ref =>
             exact (dictOf_distinct key refs Hnodup ref Hin)
         end.
Qed.

(** A quantum of two visits on detector 3, with visit 120 listed twice. *)
Example last_calexp_of_a_visit_is_kept :
  dictOf (λ r, (visit r, detector r))
    [{| visit := 120; detector := 3; handle := 1 |};
     {| visit := 121; detector := 3; handle := 2 |};
     {| visit := 120; detector := 3; handle := 5 |}] !! (120%Z, 3%Z)
  = Some {| visit := 120; detector := 3; handle := 5 |}.
Proof. vm_compute. reflexivity. Qed.

End CalibrateTractTable.
